(** * Verification of the commitment subround and of the shard-identifier test

    Shallow embedding of

    - [core/address.go]: [IsMetaChainShardId] and [IsSmartContractAddress];
    - package [bn], the commitment subround (its text is the last part of
      [node/heartbeat/monitor.go]): [NewSubroundCommitment],
      [checkNewSubroundCommitmentParams], [doCommitmentJob],
      [receivedCommitment], [doCommitmentConsensusCheck] and
      [commitmentsCollected];
    - package [heartbeat] ([node/heartbeat/monitor.go]):
      [addPeerToFullPeersSlice], [isPeerInFullPeersSlice] and
      [computeShardID];
    - package [shard] ([process/factory/shard/interceptorsContainerFactory.go]):
      [NewInterceptorsContainerFactory], [Create],
      [createTopicAndAssignHandler] and the generators of the interceptors.

    The commitment subround works on a [spos.ConsensusState] and talks to a
    multi-signer, a rounder and a send callback.  The subround's own
    functions are translated from their Go text.  The accessors of
    [ConsensusState] are written after the design document (each one says
    so), and the collaborators that the code reaches through interfaces are
    parameters of the development.  Logging has no effect on the state and
    is left out. *)

From Stdlib Require Import ZArith Lia.
From Stdlib.Strings Require Import Byte.
From stdpp Require Import base option list gmap strings.

Local Open Scope Z_scope.

(** Go byte slices. *)
Abbreviation bytes := (list byte).

#[global] Instance byte_eq_decision : EqDecision byte := byte_eq_dec.

(* ================================================================== *)
(** ** Package [core] *)
(* ================================================================== *)

Module Core.

(** [const metaChainIdentifier uint8 = 255] *)
Definition metaChainIdentifier : byte := xff.

(** [IsMetaChainShardId]: the loop runs over the indices [0 .. len-1] and
    leaves with [false] at the first byte that differs from
    [metaChainIdentifier]; after the loop it returns [true]. *)
Fixpoint IsMetaChainShardId (identifier : bytes) : bool :=
  match identifier with
  | [] => true
  | b :: rest =>
      if negb (Byte.eqb b metaChainIdentifier) then false
      else IsMetaChainShardId rest
  end.

End Core.

(* ================================================================== *)
(** ** Results and errors *)
(* ================================================================== *)

(** The errors the commitment subround can meet.  The first three are the
    ones [checkNewSubroundCommitmentParams] returns; the next two are the
    ones the design document names for [ConsensusState]; [ErrExternal] stands
    for whatever a collaborator behind an interface reports. *)
Inductive Error : Type :=
| ErrNilSubround
| ErrNilConsensusState
| ErrNilSendConsensusMessageFunction
| ErrInvalidSubround
| ErrNodeNotInGroup
| ErrExternal (what : string).

(** A Go pair [(value, error)] of which exactly one side is meaningful. *)
Inductive result (A : Type) : Type :=
| Ok (a : A)
| Err (e : Error).
Arguments Ok {A} a.
Arguments Err {A} e.

(** Go conversions between integer types, with their wrap-around. *)
Definition uint16 (n : Z) : Z := n mod 2 ^ 16.
Definition uint64 (n : Z) : Z := n mod 2 ^ 64.

(* ================================================================== *)
(** ** Subround identifiers and statuses *)
(* ================================================================== *)

(** Modelled from the spec: the constants [SrStartRound] .. [SrEndRound] of
    package [bn] are not part of the sources at hand; the design document
    lists the phases of a round as
    StartRound, Block, Bitmap, Commitment, Signature, EndRound. *)
Inductive SubroundId : Type :=
| SrStartRound | SrBlock | SrBitmap | SrCommitment | SrSignature | SrEndRound.

#[global] Instance SubroundId_eq_decision : EqDecision SubroundId.
Proof. solve_decision. Defined.

Definition SubroundId_to_nat (s : SubroundId) : nat :=
  match s with
  | SrStartRound => 0 | SrBlock => 1 | SrBitmap => 2
  | SrCommitment => 3 | SrSignature => 4 | SrEndRound => 5
  end%nat.

Definition SubroundId_of_nat (n : nat) : SubroundId :=
  match n with
  | 0 => SrStartRound | 1 => SrBlock | 2 => SrBitmap
  | 3 => SrCommitment | 4 => SrSignature | _ => SrEndRound
  end%nat.

#[global] Instance SubroundId_countable : Countable SubroundId.
Proof.
  refine (inj_countable' SubroundId_to_nat SubroundId_of_nat _).
  intros []; reflexivity.
Defined.

(** Modelled from the spec: [spos.SubroundStatus] is not part of the sources
    at hand; the design document gives the three values. *)
Inductive SubroundStatus : Type :=
| SsNotFinished | SsExtended | SsFinished.

#[global] Instance SubroundStatus_eq_decision : EqDecision SubroundStatus.
Proof. solve_decision. Defined.

(* ================================================================== *)
(** ** Package [consensus]: the message *)
(* ================================================================== *)

(** Modelled from the spec: the message-type tags; [MtCommitment] is the one
    [doCommitmentJob] uses. *)
Inductive MessageType : Type :=
| MtStartRound | MtBlock | MtBitmap | MtCommitment | MtSignature.

(** Modelled from the spec: [consensus.Message] and its constructor
    [consensus.NewConsensusMessage] are not part of the sources at hand.  The
    fields are those of the inbound consensus message of the design
    document, in the order of the constructor call in [doCommitmentJob]. *)
Record Message : Type := NewConsensusMessage {
  BlockHeaderHash : bytes;
  SubRoundData : bytes;
  PubKey : bytes;
  Signature : bytes;
  MsgType : MessageType;
  TimeStamp : Z;   (* uint64 *)
  RoundIndex : Z;  (* int32 *)
}.

(* ================================================================== *)
(** ** Package [spos]: the consensus state *)
(* ================================================================== *)

Module Spos.

(** Modelled from the spec: [spos.ConsensusState] is not part of the
    sources at hand.  The record has the per-round data of the design
    document: the ordered consensus group, the local identity, the job
    status (a map from validator identity to a map from subround to flag),
    the round's data ([None] is Go's [nil], not yet set), the cancel flag,
    the status of each subround and the threshold table. *)
Record ConsensusState : Type := mkConsensusState {
  consensusGroup : list string;
  selfPubKey : string;
  jobStatus : gmap string (gmap SubroundId bool);
  Data : option bytes;
  RoundCanceled : bool;
  status : gmap SubroundId SubroundStatus;
  threshold : SubroundId → Z;
}.

Definition set_jobStatus (js : gmap string (gmap SubroundId bool))
    (cns : ConsensusState) : ConsensusState :=
  {| consensusGroup := consensusGroup cns;
     selfPubKey := selfPubKey cns;
     jobStatus := js;
     Data := Data cns;
     RoundCanceled := RoundCanceled cns;
     status := status cns;
     threshold := threshold cns |}.

Definition set_status (ss : gmap SubroundId SubroundStatus)
    (cns : ConsensusState) : ConsensusState :=
  {| consensusGroup := consensusGroup cns;
     selfPubKey := selfPubKey cns;
     jobStatus := jobStatus cns;
     Data := Data cns;
     RoundCanceled := RoundCanceled cns;
     status := ss;
     threshold := threshold cns |}.

(** The flag stored for a pair (validator, subround); an absent entry
    reads as [false]. *)
Definition jobFlag (cns : ConsensusState) (nodeId : string)
    (subroundId : SubroundId) : bool :=
  default false (jobStatus cns !! nodeId ≫= λ m, m !! subroundId).

(** Modelled from the spec: [JobDone(nodeId, subround) -> (bool, error)]
    fails with [NodeNotInGroup] if [nodeId] is absent from the
    consensus group. *)
Definition JobDone (cns : ConsensusState) (nodeId : string)
    (subroundId : SubroundId) : result bool :=
  if decide (nodeId ∈ consensusGroup cns)
  then Ok (jobFlag cns nodeId subroundId)
  else Err ErrNodeNotInGroup.

(** Modelled from the spec: [SetJobDone(nodeId, subround, done) -> error]
    fails with [NodeNotInGroup] if [nodeId] is absent from the
    consensus group, without touching the state. *)
Definition SetJobDone (cns : ConsensusState) (nodeId : string)
    (subroundId : SubroundId) (done : bool) : result ConsensusState :=
  if decide (nodeId ∈ consensusGroup cns)
  then Ok (set_jobStatus
             (<[nodeId := <[subroundId := done]>
                             (default ∅ (jobStatus cns !! nodeId))]>
                (jobStatus cns)) cns)
  else Err ErrNodeNotInGroup.

(** Modelled from the spec: "the sender is marked done"; the boolean
    reading of [JobDone], an error counting as not done. *)
Definition IsJobDone (cns : ConsensusState) (node : string)
    (currentSubroundId : SubroundId) : bool :=
  match JobDone cns node currentSubroundId with
  | Ok jobDone => jobDone
  | Err _ => false
  end.

(** Modelled from the spec: [IsSelfJobDone(subround) -> bool]. *)
Definition IsSelfJobDone (cns : ConsensusState)
    (currentSubroundId : SubroundId) : bool :=
  IsJobDone cns (selfPubKey cns) currentSubroundId.

(** Modelled from the spec: [SetSelfJobDone(subround, done) -> error]
    records completion for the local validator.  Every [SubroundId] is a
    known one, so the [InvalidSubround] failure cannot arise here. *)
Definition SetSelfJobDone (cns : ConsensusState)
    (subroundId : SubroundId) (done : bool) : result ConsensusState :=
  SetJobDone cns (selfPubKey cns) subroundId done.

(** Modelled from the spec: the index of a validator in the ordered
    consensus group, an error if it is not a member. *)
Definition ConsensusGroupIndex (cns : ConsensusState) (pubKey : string)
    : result Z :=
  match list_find (λ k, k = pubKey) (consensusGroup cns) with
  | Some (i, _) => Ok (Z.of_nat i)
  | None => Err ErrNodeNotInGroup
  end.

Definition SelfConsensusGroupIndex (cns : ConsensusState) : result Z :=
  ConsensusGroupIndex cns (selfPubKey cns).

(** Modelled from the spec: [Threshold(subround) -> int]. *)
Definition Threshold (cns : ConsensusState) (subroundId : SubroundId) : Z :=
  threshold cns subroundId.

(** Modelled from the spec: [ComputeSize(subround) -> int], the count of
    true entries across the group for that subround. *)
Definition ComputeSize (cns : ConsensusState) (subroundId : SubroundId) : Z :=
  Z.of_nat
    (length (filter (λ node, IsJobDone cns node subroundId = true)
                    (consensusGroup cns))).

(** Modelled from the spec: [Status(subround)]; a subround starts a round
    as [SsNotFinished]. *)
Definition Status (cns : ConsensusState) (subroundId : SubroundId)
    : SubroundStatus :=
  default SsNotFinished (status cns !! subroundId).

(** Modelled from the spec: [SetStatus(subround, status)]. *)
Definition SetStatus (cns : ConsensusState) (subroundId : SubroundId)
    (subroundStatus : SubroundStatus) : ConsensusState :=
  set_status (<[subroundId := subroundStatus]> (status cns)) cns.

(** Modelled from the spec: [IsConsensusDataSet() -> bool]. *)
Definition IsConsensusDataSet (cns : ConsensusState) : bool :=
  match Data cns with Some _ => true | None => false end.

(** Modelled from the spec: [IsConsensusDataEqual(candidate) -> bool], an
    exact byte comparison against the round's data (a [nil] slice compares
    as the empty one, as [bytes.Equal] has it). *)
Definition IsConsensusDataEqual (cns : ConsensusState) (data : bytes) : bool :=
  bool_decide (default [] (Data cns) = data).

End Spos.

(* ================================================================== *)
(** ** Package [bn]: the commitment subround *)
(* ================================================================== *)

Module Bn.
Import Spos.

(** What the external [Rounder] answers at the time of a call: the round
    index ([int32]) and the Unix time of the round's time stamp ([int64]). *)
Record Rounder : Type := mkRounder {
  Index : Z;
  TimeStampUnix : Z;
}.

(** The multi-signer is reached through an interface.  [Commitment] and
    [StoreCommitment] are the two methods the commitment subround calls, the
    first a query, the second returning the multi-signer it leaves or the
    error it met; [CommitmentStore] is the store the multi-signer owns, a
    map from consensus-group index to the commitment contributed by that
    index. *)
Class MultiSigner (M : Type) : Type := {
  Commitment : M → Z → result bytes;
  StoreCommitment : M → Z → bytes → result M;
  CommitmentStore : M → gmap Z bytes;
}.

(** Modelled from the spec: the multi-signer itself is an external
    collaborator.  What the design document says of its store is that a
    call for one index concerns the entry of that index: the entries of the
    other indices stay as they are. *)
Class MultiSignerStore (M : Type) `{MultiSigner M} : Prop := {
  StoreCommitment_other :
    ∀ (m m' : M) (i j : Z) (c : bytes),
      StoreCommitment m i c = Ok m' → j ≠ i →
      CommitmentStore m' !! j = CommitmentStore m !! j;
}.

(** Everything a call of the subround can read or change: the consensus
    state behind the [*spos.ConsensusState] pointer, the state of the
    multi-signer, and the messages handed to the send callback so far (the
    oldest first). *)
Record World (M : Type) : Type := mkWorld {
  cns : ConsensusState;
  multiSigner : M;
  sent : list Message;
}.
Arguments mkWorld {M} _ _ _.
Arguments cns {M} _.
Arguments multiSigner {M} _.
Arguments sent {M} _.

Definition set_cns {M : Type} (c : ConsensusState) (w : World M) : World M :=
  mkWorld c (multiSigner w) (sent w).

Definition set_multiSigner {M : Type} (m : M) (w : World M) : World M :=
  mkWorld (cns w) m (sent w).

Definition record_sent {M : Type} (msg : Message) (w : World M) : World M :=
  mkWorld (cns w) (multiSigner w) (sent w ++ [msg]).

(** Modelled from the spec: the struct [subround] is not part of the sources
    at hand.  It carries the pointer to the consensus state ([None] is
    [nil]), the consensus core handler and the three behaviours of a phase;
    [job] and [check] are closures over the world. *)
Record subround (M Core ExtendFn : Type) : Type := mkSubround {
  ConsensusStatePtr : option ConsensusState;
  ConsensusCoreHandler : Core;
  job : option (Rounder → World M → bool * World M);
  check : option (World M → bool * World M);
  extend : option ExtendFn;
}.
Arguments mkSubround {M Core ExtendFn} _ _ _ _ _.
Arguments ConsensusStatePtr {M Core ExtendFn} _.
Arguments ConsensusCoreHandler {M Core ExtendFn} _.
Arguments job {M Core ExtendFn} _.
Arguments check {M Core ExtendFn} _.
Arguments extend {M Core ExtendFn} _.

(** [type subroundCommitment struct { *subround; sendConsensusMessage }] *)
Record subroundCommitment (M Core ExtendFn : Type) : Type :=
  mkSubroundCommitment {
    embedded : subround M Core ExtendFn;
    sendConsensusMessage : Message → bool;
  }.
Arguments mkSubroundCommitment {M Core ExtendFn} _ _.
Arguments embedded {M Core ExtendFn} _.
Arguments sendConsensusMessage {M Core ExtendFn} _.

Section SubroundCommitment.

Context {M : Type} `{MultiSigner M} {Core ExtendFn : Type}.

(** [spos.ValidateConsensusCore], [ConsensusState.CanDoSubroundJob] and
    [ConsensusState.CanProcessReceivedMessage] are called by the subround
    and are not part of the sources at hand; they are parameters.  The two
    predicates read the consensus state and answer a boolean. *)
Variable ValidateConsensusCore : Core → option Error.
Variable CanDoSubroundJob : ConsensusState → SubroundId → bool.
Variable CanProcessReceivedMessage :
  ConsensusState → Message → Z → SubroundId → bool.

(** [commitmentsCollected], the loop: [n] counts the members whose Bitmap
    and Commitment jobs are both done; an error of [JobDone] skips the
    member ([continue]); a member with the Bitmap job done and the
    Commitment job not done ends the function with [false] ([None] here).
    [n] is at most the length of the group, so the Go [int] cannot wrap. *)
Fixpoint commitmentsCollected_loop (c : ConsensusState)
    (nodes : list string) (n : Z) : option Z :=
  match nodes with
  | [] => Some n
  | node :: rest =>
      match JobDone c node SrBitmap with
      | Err _ => commitmentsCollected_loop c rest n
      | Ok isBitmapJobDone =>
          if isBitmapJobDone then
            match JobDone c node SrCommitment with
            | Err _ => commitmentsCollected_loop c rest n
            | Ok isCommJobDone =>
                if negb isCommJobDone then None
                else commitmentsCollected_loop c rest (n + 1)
            end
          else commitmentsCollected_loop c rest n
      end
  end.

(** [commitmentsCollected(threshold)]: [return n >= threshold] after the
    loop. *)
Definition commitmentsCollected (c : ConsensusState) (threshold : Z) : bool :=
  match commitmentsCollected_loop c (consensusGroup c) 0 with
  | None => false
  | Some n => n >=? threshold
  end.

(** [doCommitmentConsensusCheck] *)
Definition doCommitmentConsensusCheck (w : World M) : bool * World M :=
  if RoundCanceled (cns w) then (false, w)
  else if decide (Status (cns w) SrCommitment = SsFinished) then (true, w)
  else
    let threshold := Threshold (cns w) SrCommitment in
    if commitmentsCollected (cns w) threshold
    then (true, set_cns (SetStatus (cns w) SrCommitment SsFinished) w)
    else (false, w).

(** [doCommitmentJob]; the receiver is read for its send callback only. *)
Definition doCommitmentJob (send : Message → bool) (rounder : Rounder)
    (w : World M) : bool * World M :=
  if negb (IsSelfJobDone (cns w) SrBitmap) then (false, w)
  else if negb (CanDoSubroundJob (cns w) SrCommitment) then (false, w)
  else
    match SelfConsensusGroupIndex (cns w) with
    | Err _ => (false, w)
    | Ok selfIndex =>
        match Commitment (multiSigner w) (uint16 selfIndex) with
        | Err _ => (false, w)
        | Ok commitment =>
            let msg :=
              NewConsensusMessage
                (default [] (Data (cns w)))
                commitment
                (String.list_byte_of_string (selfPubKey (cns w)))
                []
                MtCommitment
                (uint64 (TimeStampUnix rounder))
                (Index rounder) in
            let w1 := record_sent msg w in
            if negb (send msg) then (false, w1)
            else
              match SetSelfJobDone (cns w1) SrCommitment true with
              | Err _ => (false, w1)
              | Ok c' => (true, set_cns c' w1)
              end
        end
    end.

(** [receivedCommitment]; the closing block of the Go function only logs. *)
Definition receivedCommitment (rounder : Rounder) (w : World M)
    (cnsDta : Message) : bool * World M :=
  let node := String.string_of_list_byte (PubKey cnsDta) in
  if negb (IsConsensusDataSet (cns w)) then (false, w)
  else if negb (IsConsensusDataEqual (cns w) (BlockHeaderHash cnsDta))
  then (false, w)
  else if negb (IsJobDone (cns w) node SrBitmap) then (false, w)
  else if negb (CanProcessReceivedMessage (cns w) cnsDta (Index rounder)
                  SrCommitment)
  then (false, w)
  else
    match ConsensusGroupIndex (cns w) node with
    | Err _ => (false, w)
    | Ok index =>
        match StoreCommitment (multiSigner w) (uint16 index)
                (SubRoundData cnsDta) with
        | Err _ => (false, w)
        | Ok m' =>
            let w1 := set_multiSigner m' w in
            match SetJobDone (cns w1) node SrCommitment true with
            | Err _ => (false, w1)
            | Ok c' => (true, set_cns c' w1)
            end
        end
    end.

(** [checkNewSubroundCommitmentParams]; [None] is the [nil] error. *)
Definition checkNewSubroundCommitmentParams
    (sr : option (subround M Core ExtendFn))
    (send : option (Message → bool)) : option Error :=
  match sr with
  | None => Some ErrNilSubround
  | Some s =>
      match ConsensusStatePtr s with
      | None => Some ErrNilConsensusState
      | Some _ =>
          match send with
          | None => Some ErrNilSendConsensusMessageFunction
          | Some _ => ValidateConsensusCore (ConsensusCoreHandler s)
          end
      end
  end.

(** [NewSubroundCommitment]: the pair (object, error).  After a passed
    check the object is built from the subround and the callback, and its
    [job], [check] and [extend] fields are assigned.  The last case stands
    for a passed check on a [nil] argument, where Go would dereference
    [nil]; the check excludes it. *)
Definition NewSubroundCommitment
    (sr : option (subround M Core ExtendFn))
    (send : option (Message → bool))
    (ext : option ExtendFn)
    : option (subroundCommitment M Core ExtendFn) * option Error :=
  match checkNewSubroundCommitmentParams sr send, sr, send with
  | Some err, _, _ => (None, Some err)
  | None, Some s, Some f =>
      (Some (mkSubroundCommitment
               (mkSubround (ConsensusStatePtr s) (ConsensusCoreHandler s)
                  (Some (doCommitmentJob f))
                  (Some doCommitmentConsensusCheck)
                  ext)
               f),
       None)
  | None, _, _ => (None, None)
  end.

End SubroundCommitment.

(** *** Notions used in the statements *)

(** A member counts toward the commitments when its Bitmap job and its
    Commitment job are both done. *)
Definition bothDone (c : ConsensusState) (node : string) : bool :=
  IsJobDone c node SrBitmap && IsJobDone c node SrCommitment.

(** The number of positions of the consensus group whose member has both
    jobs done. *)
Definition bothDoneCount (c : ConsensusState) : Z :=
  Z.of_nat (length (filter (λ node, bothDone c node = true)
                           (consensusGroup c))).

(** A member breaks the coverage of the bitmap when its Bitmap job is done
    and its Commitment job is not. *)
Definition uncovered (c : ConsensusState) (node : string) : bool :=
  IsJobDone c node SrBitmap && negb (IsJobDone c node SrCommitment).

(** The commitments cover the bitmap. *)
Definition bitmapCovered (c : ConsensusState) : Prop :=
  ∀ node, node ∈ consensusGroup c →
    IsJobDone c node SrBitmap = true → IsJobDone c node SrCommitment = true.

(** The commitment subround is fresh: the round is not canceled and the
    subround is not yet finished. *)
Definition fresh (c : ConsensusState) : Prop :=
  RoundCanceled c = false ∧ Status c SrCommitment ≠ SsFinished.

(** The relation between the commitment store and the job status: an index
    has an entry only if it is the index of a member of the group whose
    Commitment job is done. *)
Definition storeWithinJobStatus {M : Type} `{MultiSigner M} (w : World M)
    : Prop :=
  ∀ (i : Z) (c : bytes),
    CommitmentStore (multiSigner w) !! i = Some c →
    0 ≤ i ∧
    ∃ node, consensusGroup (cns w) !! Z.to_nat i = Some node ∧
            IsJobDone (cns w) node SrCommitment = true.

(** The commitment [doCommitmentJob] asks the multi-signer for: the one of
    the local node's index in the group. *)
Definition ownCommitment {M : Type} `{MultiSigner M} (w : World M)
    : result bytes :=
  match SelfConsensusGroupIndex (cns w) with
  | Err e => Err e
  | Ok selfIndex => Commitment (multiSigner w) (uint16 selfIndex)
  end.

(** The message [doCommitmentJob] builds around a commitment. *)
Definition commitmentMessage (c : ConsensusState) (rounder : Rounder)
    (commitment : bytes) : Message :=
  NewConsensusMessage
    (default [] (Data c)) commitment
    (String.list_byte_of_string (selfPubKey c)) []
    MtCommitment (uint64 (TimeStampUnix rounder)) (Index rounder).

(** The calls that reach a commitment subround during a round, each with
    what the rounder answers at that time. *)
Inductive Call : Type :=
| CallJob (rounder : Rounder)
| CallReceived (rounder : Rounder) (cnsDta : Message)
| CallCheck.

Section Rounds.

Context {M : Type} `{MultiSigner M}.
Variable CanDoSubroundJob : ConsensusState → SubroundId → bool.
Variable CanProcessReceivedMessage :
  ConsensusState → Message → Z → SubroundId → bool.
Variable send : Message → bool.

(** The four conditions [receivedCommitment] tests before it touches
    anything, in the order of the code. *)
Definition accepted (rounder : Rounder) (w : World M) (cnsDta : Message)
    : bool :=
  IsConsensusDataSet (cns w)
  && IsConsensusDataEqual (cns w) (BlockHeaderHash cnsDta)
  && IsJobDone (cns w) (String.string_of_list_byte (PubKey cnsDta)) SrBitmap
  && CanProcessReceivedMessage (cns w) cnsDta (Index rounder) SrCommitment.

(** One call: its answer and the world it leaves. *)
Definition call (w : World M) (k : Call) : bool * World M :=
  match k with
  | CallJob rounder => doCommitmentJob CanDoSubroundJob send rounder w
  | CallReceived rounder cnsDta =>
      receivedCommitment CanProcessReceivedMessage rounder w cnsDta
  | CallCheck => doCommitmentConsensusCheck w
  end.

(** The world after a sequence of calls, the first of the list first. *)
Definition run (w : World M) (ks : list Call) : World M :=
  fold_left (λ w k, snd (call w k)) ks w.

End Rounds.

End Bn.

(* ================================================================== *)
(** ** Collaborators and rounds used in the examples *)
(* ================================================================== *)

Module Scenario.
Import Spos Bn.

(** Modelled from the spec: a multi-signer whose store is the map itself.
    [own] holds the commitments the signer hands out through
    [Commitment]; [StoreCommitment] refuses an empty commitment, and keeps
    the entry an index already has (entries are append-only within a
    round). *)
Record TableSigner : Type := mkTableSigner {
  own : gmap Z bytes;
  stored : gmap Z bytes;
}.

#[global] Instance TableSigner_MultiSigner : MultiSigner TableSigner := {|
  Commitment m i :=
    match own m !! i with
    | Some c => Ok c
    | None => Err (ErrExternal "no commitment for this index")
    end;
  StoreCommitment m i c :=
    if decide (c = []) then Err (ErrExternal "empty commitment")
    else match stored m !! i with
         | Some _ => Ok m
         | None => Ok (mkTableSigner (own m) (<[i := c]> (stored m)))
         end;
  CommitmentStore m := stored m;
|}.

(** Modelled from the spec: the generic "processable" check of a received
    message: correct round index, not a duplicate, sender in the group. *)
Definition CanProcessReceivedMessage (c : ConsensusState) (cnsDta : Message)
    (currentRoundIndex : Z) (currentSubroundId : SubroundId) : bool :=
  let node := String.string_of_list_byte (PubKey cnsDta) in
  bool_decide (RoundIndex cnsDta = currentRoundIndex)
  && negb (IsJobDone c node currentSubroundId)
  && bool_decide (node ∈ consensusGroup c).

(** Modelled from the spec: a job is run when the round's data is set and
    the local node has not yet done its job for that phase. *)
Definition CanDoSubroundJob (c : ConsensusState)
    (currentSubroundId : SubroundId) : bool :=
  IsConsensusDataSet c && negb (IsSelfJobDone c currentSubroundId).

(** A consensus core is a list of named collaborators, a missing one being
    [None]; it is valid when none is missing. *)
Definition ValidateConsensusCore (core : list (string * option unit))
    : option Error :=
  match list_find (λ p, p.2 = None) core with
  | Some (_, (name, _)) => Some (ErrExternal name)
  | None => None
  end.

Definition flags (l : list (SubroundId * bool)) : gmap SubroundId bool :=
  list_to_map l.

(** A group of three, all in the leader's bitmap; "a" and "b" have their
    commitment counted, "c" has not.  [self] is the local node. *)
Definition group3 : list string := ["a"; "b"; "c"]%string.

Definition hash1 : bytes := [x01; x02].

Definition jobs3 : gmap string (gmap SubroundId bool) :=
  list_to_map
    [("a"%string, flags [(SrBitmap, true); (SrCommitment, true)]);
     ("b"%string, flags [(SrBitmap, true); (SrCommitment, true)]);
     ("c"%string, flags [(SrBitmap, true)])].

Definition state3 (self : string) (canceled : bool)
    (st : gmap SubroundId SubroundStatus) (thr : Z) : ConsensusState :=
  mkConsensusState group3 self jobs3 (Some hash1) canceled st (λ _, thr).

Definition signer3 : TableSigner :=
  mkTableSigner {[ 2 := [x0c] ]} {[ 0 := [x0a]; 1 := [x0b] ]}.

Definition world3 (self : string) (canceled : bool)
    (st : gmap SubroundId SubroundStatus) (thr : Z) : World TableSigner :=
  mkWorld (state3 self canceled st thr) signer3 [].

Definition rounder7 : Rounder := mkRounder 7 1500000000.

(** The commitment of "c", as a peer would receive it. *)
Definition msgC : Message :=
  NewConsensusMessage hash1 [x0c] (String.list_byte_of_string "c") []
    MtCommitment 1500000000 7.

(** The commitment of "a", delivered once more. *)
Definition msgA : Message :=
  NewConsensusMessage hash1 [x0a] (String.list_byte_of_string "a") []
    MtCommitment 1500000000 7.

(** Consensus cores and subrounds to build a commitment subround from. *)
Definition core_ok : list (string * option unit) :=
  [("MultiSigner"%string, Some ()); ("Rounder"%string, Some ())].

Definition core_no_signer : list (string * option unit) :=
  [("MultiSigner"%string, None); ("Rounder"%string, Some ())].

Definition subround_with (c : option ConsensusState)
    (core : list (string * option unit))
    : subround TableSigner (list (string * option unit)) unit :=
  mkSubround c core None None None.

Definition sendAlways (msg : Message) : bool := true.
Definition sendNever (msg : Message) : bool := false.

End Scenario.

(* ================================================================== *)
(** ** Package [core]: smart-contract addresses *)
(* ================================================================== *)

(** A Go call either returns or stops the goroutine with a run-time
    panic. *)
Inductive outcome (A : Type) : Type :=
| Returns (a : A)
| Panics.
Arguments Returns {A} a.
Arguments Panics {A}.

Module Address.

(** A Go byte slice with what lies behind it: [elems] are the [len] bytes
    the slice shows, [spare] the bytes of the backing array between [len]
    and [cap].  A slice expression may reach into [spare]. *)
Record Slice : Type := mkSlice {
  elems : bytes;
  spare : bytes;
}.

Definition len (s : Slice) : nat := length (elems s).
Definition cap (s : Slice) : nat := length (elems s) + length (spare s).

(** [make([]byte, n)]: [n] zero bytes. *)
Definition make (n : nat) : bytes := replicate n x00.

(** [s[:high]]: the run-time check is [high <= cap(s)]. *)
Definition slice_to (s : Slice) (high : nat) : outcome bytes :=
  if decide (high ≤ cap s)%nat
  then Returns (take high (elems s ++ spare s))
  else Panics.

Section Constants.

(** [hooks.NumInitCharactersForScAddress] and [hooks.VMTypeLen] are constants
    of a package that is not part of the sources at hand; they are
    parameters.  The file compiles only if their difference is not
    negative, so the difference is taken in the naturals. *)
Variable NumInitCharactersForScAddress : nat.
Variable VMTypeLen : nat.

(** [IsSmartContractAddress] *)
Definition IsSmartContractAddress (rcvAddress : Slice) : outcome bool :=
  let isEmptyAddress :=
    bool_decide (elems rcvAddress = make (len rcvAddress)) in
  if isEmptyAddress then Returns true
  else
    match slice_to rcvAddress
            (NumInitCharactersForScAddress - VMTypeLen) with
    | Panics => Panics
    | Returns prefix =>
        let isSCAddress :=
          bool_decide
            (prefix = make (NumInitCharactersForScAddress - VMTypeLen)) in
        if isSCAddress then Returns true else Returns false
    end.

End Constants.

End Address.

(* ================================================================== *)
(** ** Package [heartbeat]: the slice of all peers *)
(* ================================================================== *)

Module Heartbeat.

(** The storer is reached through an interface; [SaveKeys] is the method the
    functions below call.  It answers the storer it leaves and the error it
    met ([None] is [nil]). *)
Class HeartbeatStorageHandler (S : Type) : Type := {
  SaveKeys : S → list bytes → S * option Error;
}.

(** The fields of [Monitor] that [addPeerToFullPeersSlice] and
    [isPeerInFullPeersSlice] read or write. *)
Record Monitor (S : Type) : Type := mkMonitor {
  fullPeersSlice : list bytes;
  storer : S;
}.
Arguments mkMonitor {S} _ _.
Arguments fullPeersSlice {S} _.
Arguments storer {S} _.

(** [isPeerInFullPeersSlice]: the loop leaves with [true] at the first peer
    that [bytes.Equal] finds equal. *)
Fixpoint isPeerInSlice (peers : list bytes) (pubKey : bytes) : bool :=
  match peers with
  | [] => false
  | peer :: rest =>
      if bool_decide (peer = pubKey) then true
      else isPeerInSlice rest pubKey
  end.

Definition isPeerInFullPeersSlice {S : Type} (m : Monitor S)
    (pubKey : bytes) : bool :=
  isPeerInSlice (fullPeersSlice m) pubKey.

(** [addPeerToFullPeersSlice]: an error of [SaveKeys] is logged and nothing
    else. *)
Definition addPeerToFullPeersSlice {S : Type} `{HeartbeatStorageHandler S}
    (m : Monitor S) (pubKey : bytes) : Monitor S :=
  if negb (isPeerInFullPeersSlice m pubKey) then
    let peers := fullPeersSlice m ++ [pubKey] in
    let (storer', err) := SaveKeys (storer m) peers in
    mkMonitor peers storer'
  else m.

(** A storer that keeps the last slice it was given, counts the calls, and
    fails on every call when [broken]. *)
Record MemStorer : Type := mkMemStorer {
  broken : bool;
  savedKeys : list bytes;
  saves : nat;
}.

#[global] Instance MemStorer_handler : HeartbeatStorageHandler MemStorer := {|
  SaveKeys s keys :=
    if broken s
    then (mkMemStorer true (savedKeys s) (S (saves s)),
          Some (ErrExternal "storage is down"))
    else (mkMemStorer false keys (S (saves s)), None);
|}.

End Heartbeat.

(* ================================================================== *)
(** ** Package [heartbeat]: the shard of a public key *)
(* ================================================================== *)

Module HeartbeatShard.

(** Of [heartbeatMessageInfo] the function below reads one field. *)
Record heartbeatMessageInfo : Type := mkHeartbeatMessageInfo {
  computedShardID : Z;  (* uint32 *)
}.

(** The inner loop of [computeShardID]: is the key in the slice? *)
Fixpoint keyInSlice (pubKeysSlice : list string) (pubkey : string) : bool :=
  match pubKeysSlice with
  | [] => false
  | pKey :: rest =>
      if bool_decide (pKey = pubkey) then true else keyInSlice rest pubkey
  end.

(** The outer loop of [computeShardID] over the entries of [pubKeysMap] in
    the order the [range] clause happens to produce them: the first shard
    whose slice holds the key. *)
Fixpoint firstShardOf (entries : list (Z * list string)) (pubkey : string)
    : option Z :=
  match entries with
  | [] => None
  | (shardID, pubKeysSlice) :: rest =>
      if keyInSlice pubKeysSlice pubkey then Some shardID
      else firstShardOf rest pubkey
  end.

(** [computeShardID].  Go leaves the iteration order of a map open, so the
    order is an argument: [entries] are the entries of [pubKeysMap] in the
    order of this call.  A key found in no slice is looked up in
    [heartbeatMessages], a map to pointers ([Some None] is a [nil]
    pointer); reading the field through a missing or [nil] entry
    panics. *)
Definition computeShardID (entries : list (Z * list string))
    (heartbeatMessages : gmap string (option heartbeatMessageInfo))
    (pubkey : string) : outcome Z :=
  match firstShardOf entries pubkey with
  | Some shardID => Returns shardID
  | None =>
      match heartbeatMessages !! pubkey with
      | Some (Some hbmi) => Returns (computedShardID hbmi)
      | _ => Panics
      end
  end.

(** The orders a [range] over [pubKeysMap] can take. *)
Definition iterationOf (pubKeysMap : gmap Z (list string))
    (entries : list (Z * list string)) : Prop :=
  entries ≡ₚ map_to_list pubKeysMap.

End HeartbeatShard.

(* ================================================================== *)
(** ** Package [shard]: the factory of the interceptors *)
(* ================================================================== *)

Module Shard.

(** A Go interface value: the [nil] interface, an interface that holds a
    [nil] pointer, or one that holds an implementation. *)
Inductive iface (A : Type) : Type :=
| NilInterface
| NilPointer
| Impl (a : A).
Arguments NilInterface {A}.
Arguments NilPointer {A}.
Arguments Impl {A} a.

(** [x == nil] *)
Definition isNil {A : Type} (x : iface A) : bool :=
  match x with NilInterface => true | _ => false end.

(** [x == nil || x.IsInterfaceNil()]: the second test is reached only for a
    non-[nil] interface, and [IsInterfaceNil] answers whether the receiver
    is a [nil] pointer, as the implementations of the repository do. *)
Definition isNilOrInterfaceNil {A : Type} (x : iface A) : bool :=
  match x with
  | NilInterface => true
  | NilPointer => true
  | Impl _ => false
  end.

(** The interface holds an implementation. *)
Definition present {A : Type} (x : iface A) : Prop := ∃ a, x = Impl a.

(** The errors of package [process] the factory returns, and [ErrOther] for
    what a collaborator reports. *)
Inductive ProcessError : Type :=
| ErrNilAccountsAdapter
| ErrNilShardCoordinator
| ErrNilMessenger
| ErrNilBlockChain
| ErrNilMarshalizer
| ErrNilHasher
| ErrNilKeyGen
| ErrNilSingleSigner
| ErrNilMultiSigVerifier
| ErrNilDataPoolHolder
| ErrNilAddressConverter
| ErrNilNodesCoordinator
| ErrNilEconomicsFeeHandler
| ErrOther (what : string).

(** A Go pair [(value, error)] of package [process]. *)
Inductive res (A : Type) : Type :=
| Done (a : A)
| Failed (e : ProcessError).
Arguments Done {A} a.
Arguments Failed {A} e.

(** [const maxGoRoutineTxInterceptor = 100] *)
Definition maxGoRoutineTxInterceptor : Z := 100.

(** The storage units the factory asks the store for. *)
Inductive UnitType : Type :=
| RewardTransactionUnit
| UnsignedTransactionUnit
| MiniBlockUnit
| PeerChangesUnit.

(** [type interceptorsContainerFactory struct].  [F] is what a field holds:
    [iface] for the struct as the constructor fills it, the identity for a
    factory whose collaborators are all implementations. *)
Record interceptorsContainerFactory (F : Type → Type)
    (Accounts Coordinator Messenger Store Marshalizer Hasher KeyGen
       SingleSigner MultiSigVerifier DataPool AddrConverter NodesCoordinator
       Throttler FeeHandler : Type) : Type :=
  mkFactory {
    accounts : F Accounts;
    shardCoordinator : F Coordinator;
    messenger : F Messenger;
    store : F Store;
    marshalizer : F Marshalizer;
    hasher : F Hasher;
    keyGen : F KeyGen;
    singleSigner : F SingleSigner;
    multiSigner : F MultiSigVerifier;
    dataPool : F DataPool;
    addrConverter : F AddrConverter;
    nodesCoordinator : F NodesCoordinator;
    txInterceptorThrottler : Throttler;
    maxTxNonceDeltaAllowed : Z;
    txFeeHandler : F FeeHandler;
  }.
Arguments mkFactory {F Accounts Coordinator Messenger Store Marshalizer Hasher KeyGen
  SingleSigner MultiSigVerifier DataPool AddrConverter NodesCoordinator
  Throttler FeeHandler}.
Arguments accounts {F Accounts Coordinator Messenger Store Marshalizer Hasher KeyGen
  SingleSigner MultiSigVerifier DataPool AddrConverter NodesCoordinator
  Throttler FeeHandler} _.
Arguments shardCoordinator {F Accounts Coordinator Messenger Store Marshalizer Hasher KeyGen
  SingleSigner MultiSigVerifier DataPool AddrConverter NodesCoordinator
  Throttler FeeHandler} _.
Arguments messenger {F Accounts Coordinator Messenger Store Marshalizer Hasher KeyGen
  SingleSigner MultiSigVerifier DataPool AddrConverter NodesCoordinator
  Throttler FeeHandler} _.
Arguments store {F Accounts Coordinator Messenger Store Marshalizer Hasher KeyGen
  SingleSigner MultiSigVerifier DataPool AddrConverter NodesCoordinator
  Throttler FeeHandler} _.
Arguments marshalizer {F Accounts Coordinator Messenger Store Marshalizer Hasher KeyGen
  SingleSigner MultiSigVerifier DataPool AddrConverter NodesCoordinator
  Throttler FeeHandler} _.
Arguments hasher {F Accounts Coordinator Messenger Store Marshalizer Hasher KeyGen
  SingleSigner MultiSigVerifier DataPool AddrConverter NodesCoordinator
  Throttler FeeHandler} _.
Arguments keyGen {F Accounts Coordinator Messenger Store Marshalizer Hasher KeyGen
  SingleSigner MultiSigVerifier DataPool AddrConverter NodesCoordinator
  Throttler FeeHandler} _.
Arguments singleSigner {F Accounts Coordinator Messenger Store Marshalizer Hasher KeyGen
  SingleSigner MultiSigVerifier DataPool AddrConverter NodesCoordinator
  Throttler FeeHandler} _.
Arguments multiSigner {F Accounts Coordinator Messenger Store Marshalizer Hasher KeyGen
  SingleSigner MultiSigVerifier DataPool AddrConverter NodesCoordinator
  Throttler FeeHandler} _.
Arguments dataPool {F Accounts Coordinator Messenger Store Marshalizer Hasher KeyGen
  SingleSigner MultiSigVerifier DataPool AddrConverter NodesCoordinator
  Throttler FeeHandler} _.
Arguments addrConverter {F Accounts Coordinator Messenger Store Marshalizer Hasher KeyGen
  SingleSigner MultiSigVerifier DataPool AddrConverter NodesCoordinator
  Throttler FeeHandler} _.
Arguments nodesCoordinator {F Accounts Coordinator Messenger Store Marshalizer Hasher KeyGen
  SingleSigner MultiSigVerifier DataPool AddrConverter NodesCoordinator
  Throttler FeeHandler} _.
Arguments txInterceptorThrottler {F Accounts Coordinator Messenger Store Marshalizer Hasher KeyGen
  SingleSigner MultiSigVerifier DataPool AddrConverter NodesCoordinator
  Throttler FeeHandler} _.
Arguments maxTxNonceDeltaAllowed {F Accounts Coordinator Messenger Store Marshalizer Hasher KeyGen
  SingleSigner MultiSigVerifier DataPool AddrConverter NodesCoordinator
  Throttler FeeHandler} _.
Arguments txFeeHandler {F Accounts Coordinator Messenger Store Marshalizer Hasher KeyGen
  SingleSigner MultiSigVerifier DataPool AddrConverter NodesCoordinator
  Throttler FeeHandler} _.

Section Factory.

Context {Accounts Coordinator Messenger Store Marshalizer Hasher KeyGen
           SingleSigner MultiSigVerifier DataPool AddrConverter
           NodesCoordinator Throttler FeeHandler : Type}.

(** [throttler.NewNumGoRoutineThrottler] is not part of the sources at hand;
    it is a parameter. *)
Variable NewNumGoRoutineThrottler : Z → res Throttler.

(** [NewInterceptorsContainerFactory]: the pair (object, error). *)
Definition NewInterceptorsContainerFactory
    (accounts : iface Accounts)
    (shardCoordinator : iface Coordinator)
    (nodesCoordinator : iface NodesCoordinator)
    (messenger : iface Messenger)
    (store : iface Store)
    (marshalizer : iface Marshalizer)
    (hasher : iface Hasher)
    (keyGen : iface KeyGen)
    (singleSigner : iface SingleSigner)
    (multiSigner : iface MultiSigVerifier)
    (dataPool : iface DataPool)
    (addrConverter : iface AddrConverter)
    (maxTxNonceDeltaAllowed : Z)
    (txFeeHandler : iface FeeHandler)
    : option (interceptorsContainerFactory iface Accounts Coordinator
                Messenger Store Marshalizer Hasher KeyGen SingleSigner
                MultiSigVerifier DataPool AddrConverter NodesCoordinator
                Throttler FeeHandler)
      * option ProcessError :=
  if isNilOrInterfaceNil accounts then (None, Some ErrNilAccountsAdapter)
  else if isNilOrInterfaceNil shardCoordinator
  then (None, Some ErrNilShardCoordinator)
  else if isNil messenger then (None, Some ErrNilMessenger)
  else if isNilOrInterfaceNil store then (None, Some ErrNilBlockChain)
  else if isNilOrInterfaceNil marshalizer then (None, Some ErrNilMarshalizer)
  else if isNilOrInterfaceNil hasher then (None, Some ErrNilHasher)
  else if isNilOrInterfaceNil keyGen then (None, Some ErrNilKeyGen)
  else if isNilOrInterfaceNil singleSigner
  then (None, Some ErrNilSingleSigner)
  else if isNilOrInterfaceNil multiSigner
  then (None, Some ErrNilMultiSigVerifier)
  else if isNilOrInterfaceNil dataPool then (None, Some ErrNilDataPoolHolder)
  else if isNilOrInterfaceNil addrConverter
  then (None, Some ErrNilAddressConverter)
  else if isNilOrInterfaceNil nodesCoordinator
  then (None, Some ErrNilNodesCoordinator)
  else if isNilOrInterfaceNil txFeeHandler
  then (None, Some ErrNilEconomicsFeeHandler)
  else
    match NewNumGoRoutineThrottler maxGoRoutineTxInterceptor with
    | Failed err => (None, Some err)
    | Done txInterceptorThrottler =>
        (Some (mkFactory accounts shardCoordinator messenger store
                 marshalizer hasher keyGen singleSigner multiSigner dataPool
                 addrConverter nodesCoordinator txInterceptorThrottler
                 maxTxNonceDeltaAllowed txFeeHandler),
         None)
    end.

End Factory.

(** The messenger is reached through an interface; its state [T] is
    threaded through the calls.  Both methods answer the messenger they
    leave and the error they met ([None] is [nil]). *)
Class TopicHandler (T Interceptor : Type) : Type := {
  CreateTopic : T → string → bool → T * option ProcessError;
  RegisterMessageProcessor :
    T → string → Interceptor → T * option ProcessError;
}.

(** The container of package [containers] is reached through an interface
    as well. *)
Class InterceptorsContainer (C Interceptor : Type) : Type := {
  NewInterceptorsContainer : C;
  AddMultiple : C → list string → list (option Interceptor) → res C;
}.

(** [uint32] arithmetic. *)
Definition uint32 (n : Z) : Z := n mod 2 ^ 32.

(** [s[i] = v]: the run-time check is [i < len(s)]. *)
Definition assign {A : Type} (s : list A) (i : Z) (v : A)
    : outcome (list A) :=
  if decide (0 ≤ i < Z.of_nat (length s))
  then Returns (<[Z.to_nat i := v]> s)
  else Panics.

(** The methods of [sharding.Coordinator], [dataRetriever.PoolsHolder] and
    [dataRetriever.StorageService] the factory calls, the topic names of
    package [factory], [sharding.MetachainShardId] and the constructors of
    the validators and interceptors are not part of the sources at hand;
    they are the fields of one class of parameters. *)
Class Collaborators
    (Accounts Coordinator Messenger Store Marshalizer Hasher KeyGen
    SingleSigner MultiSigVerifier DataPool AddrConverter NodesCoordinator
    Throttler FeeHandler ShardedCache Cache NoncesCache Storer TxValidator
    HdrValidator Interceptor : Type)
    : Type := {
  NumberOfShards : Coordinator → Z;  (* uint32 *)
  CommunicationIdentifier : Coordinator → Z → string;
  SelfId : Coordinator → Z;
  MetachainShardId : Z;

  TransactionTopic : string;
  UnsignedTransactionTopic : string;
  RewardsTransactionTopic : string;
  HeadersTopic : string;
  MiniBlocksTopic : string;
  PeerChBodyTopic : string;
  MetachainBlocksTopic : string;

  Transactions : DataPool → ShardedCache;
  RewardTransactions : DataPool → ShardedCache;
  UnsignedTransactions : DataPool → ShardedCache;
  Headers : DataPool → Cache;
  HeadersNonces : DataPool → NoncesCache;
  MiniBlocks : DataPool → Cache;
  PeerChangesBlocks : DataPool → Cache;
  MetaBlocks : DataPool → Cache;
  GetStorer : Store → UnitType → Storer;

  NewTxValidator : Accounts → Coordinator → Z → res TxValidator;
  NewNilHeaderValidator : res HdrValidator;
  NewTxInterceptor :
    Marshalizer → ShardedCache → TxValidator → AddrConverter → Hasher →
    SingleSigner → KeyGen → Coordinator → Throttler → FeeHandler →
    res Interceptor;
  NewRewardTxInterceptor :
    Marshalizer → ShardedCache → Storer → AddrConverter → Hasher →
    Coordinator → res Interceptor;
  NewUnsignedTxInterceptor :
    Marshalizer → ShardedCache → Storer → AddrConverter → Hasher →
    Coordinator → res Interceptor;
  NewHeaderInterceptor :
    Marshalizer → Cache → NoncesCache → HdrValidator → MultiSigVerifier →
    Hasher → Coordinator → NodesCoordinator → res Interceptor;
  NewTxBlockBodyInterceptor :
    Marshalizer → Cache → Storer → Hasher → Coordinator → res Interceptor;
  NewPeerBlockBodyInterceptor :
    Marshalizer → Cache → Storer → Hasher → Coordinator → res Interceptor;
  NewMetachainHeaderInterceptor :
    Marshalizer → Cache → NoncesCache → HdrValidator → MultiSigVerifier →
    Hasher → Coordinator → NodesCoordinator → res Interceptor;
}.

Section Generators.

Context {Accounts Coordinator Messenger Store Marshalizer Hasher KeyGen
           SingleSigner MultiSigVerifier DataPool AddrConverter NodesCoordinator
           Throttler FeeHandler ShardedCache Cache NoncesCache Storer TxValidator
           HdrValidator Interceptor T C : Type}.
Context `{!TopicHandler T Interceptor} `{!InterceptorsContainer C Interceptor}.
Context `{!Collaborators Accounts Coordinator Messenger Store Marshalizer
            Hasher KeyGen SingleSigner MultiSigVerifier DataPool
            AddrConverter NodesCoordinator Throttler FeeHandler ShardedCache
            Cache NoncesCache Storer TxValidator HdrValidator Interceptor}.

(** A factory whose fields hold implementations. *)
Abbreviation factory :=
  (interceptorsContainerFactory (λ A : Type, A) Accounts Coordinator
     Messenger Store Marshalizer Hasher KeyGen SingleSigner MultiSigVerifier
     DataPool AddrConverter NodesCoordinator Throttler FeeHandler).

(** What a function that returns [(process.Interceptor, error)] leaves: the
    messenger, the interceptor ([None] is [nil]) and the error. *)
Definition created : Type := T * (option Interceptor * option ProcessError).

(** A function that makes one interceptor answers it whenever it answers no
    error. *)
Definition answersInterceptor (createOne : string → T → created) : Prop :=
  ∀ identifier m m' x,
    createOne identifier m = (m', (x, None)) → is_Some x.

(** [createTopicAndAssignHandler]: the last line returns the interceptor
    together with whatever [RegisterMessageProcessor] answers. *)
Definition createTopicAndAssignHandler (topic : string)
    (interceptor : Interceptor) (createChannel : bool) (m : T) : created :=
  match CreateTopic m topic createChannel with
  | (m1, Some err) => (m1, (None, Some err))
  | (m1, None) =>
      let (m2, err) := RegisterMessageProcessor m1 topic interceptor in
      (m2, (Some interceptor, err))
  end.

(** [createOneTxInterceptor] *)
Definition createOneTxInterceptor (icf : factory) (identifier : string)
    (m : T) : created :=
  match NewTxValidator (accounts icf)
          (shardCoordinator icf)
          (maxTxNonceDeltaAllowed icf) with
  | Failed err => (m, (None, Some err))
  | Done txValidator =>
      match NewTxInterceptor
              (marshalizer icf)
              (Transactions (dataPool icf))
              txValidator
              (addrConverter icf)
              (hasher icf)
              (singleSigner icf)
              (keyGen icf)
              (shardCoordinator icf)
              (txInterceptorThrottler icf)
              (txFeeHandler icf) with
      | Failed err => (m, (None, Some err))
      | Done interceptor =>
          createTopicAndAssignHandler identifier interceptor true m
      end
  end.


(** [createOneRewardTxInterceptor] *)
Definition createOneRewardTxInterceptor (icf : factory) (identifier : string)
    (m : T) : created :=
  let rewardTxStorer := GetStorer (store icf) RewardTransactionUnit in
  match NewRewardTxInterceptor (marshalizer icf)
          (RewardTransactions (dataPool icf)) rewardTxStorer
          (addrConverter icf) (hasher icf) (shardCoordinator icf) with
  | Failed err => (m, (None, Some err))
  | Done interceptor =>
      createTopicAndAssignHandler identifier interceptor true m
  end.

(** [createOneUnsignedTxInterceptor] *)
Definition createOneUnsignedTxInterceptor (icf : factory)
    (identifier : string) (m : T) : created :=
  let uTxStorer := GetStorer (store icf) UnsignedTransactionUnit in
  match NewUnsignedTxInterceptor (marshalizer icf)
          (UnsignedTransactions (dataPool icf)) uTxStorer
          (addrConverter icf) (hasher icf) (shardCoordinator icf) with
  | Failed err => (m, (None, Some err))
  | Done interceptor =>
      createTopicAndAssignHandler identifier interceptor true m
  end.

(** [createOneMiniBlocksInterceptor] *)
Definition createOneMiniBlocksInterceptor (icf : factory)
    (identifier : string) (m : T) : created :=
  let txBlockBodyStorer := GetStorer (store icf) MiniBlockUnit in
  match NewTxBlockBodyInterceptor (marshalizer icf)
          (MiniBlocks (dataPool icf)) txBlockBodyStorer
          (hasher icf) (shardCoordinator icf) with
  | Failed err => (m, (None, Some err))
  | Done interceptor =>
      createTopicAndAssignHandler identifier interceptor true m
  end.

(** What a generator leaves: the messenger and either the keys with their
    interceptors or the error; a failed index check panics. *)
Definition generated : Type :=
  outcome (T * res (list string * list (option Interceptor))).

(** The loop the four generators over the shards share,
    [for idx := uint32(0); idx < noOfShards; idx++]: [remaining] is
    [noOfShards - idx].  The counter stays below [noOfShards], so the
    [uint32] increment does not wrap. *)
Fixpoint shardLoop (createOne : string → T → created) (topic : string)
    (shardC : Coordinator) (remaining : nat) (idx : Z) (m : T)
    (keys : list string) (interceptorSlice : list (option Interceptor))
    : generated :=
  match remaining with
  | O => Returns (m, Done (keys, interceptorSlice))
  | Datatypes.S remaining' =>
      let identifier := (topic +:+ CommunicationIdentifier shardC idx)%string in
      match createOne identifier m with
      | (m', (_, Some err)) => Returns (m', Failed err)
      | (m', (interceptor, None)) =>
          match assign keys idx identifier with
          | Panics => Panics
          | Returns keys' =>
              match assign interceptorSlice idx interceptor with
              | Panics => Panics
              | Returns interceptorSlice' =>
                  shardLoop createOne topic shardC remaining' (idx + 1) m'
                    keys' interceptorSlice'
              end
          end
      end
  end.

(** [generateTxInterceptors], [generateRewardTxInterceptors] and
    [generateUnsignedTxsInterceptors] are the same text for three topics and
    three constructors: slices of [noOfShards] entries, the loop, and the
    entry of the metachain appended. *)
Definition generateAppending (createOne : string → T → created)
    (topic : string) (icf : factory) (m : T) : generated :=
  let shardC := shardCoordinator icf in
  let noOfShards := NumberOfShards shardC in
  let keys := replicate (Z.to_nat noOfShards) ""%string in
  let interceptorSlice := replicate (Z.to_nat noOfShards) None in
  match shardLoop createOne topic shardC (Z.to_nat noOfShards) 0 m keys
          interceptorSlice with
  | Panics => Panics
  | Returns (m1, Failed err) => Returns (m1, Failed err)
  | Returns (m1, Done (keys, interceptorSlice)) =>
      let identifierTx :=
        (topic +:+ CommunicationIdentifier shardC MetachainShardId)%string in
      match createOne identifierTx m1 with
      | (m2, (_, Some err)) => Returns (m2, Failed err)
      | (m2, (interceptor, None)) =>
          Returns (m2, Done (keys ++ [identifierTx],
                             interceptorSlice ++ [interceptor]))
      end
  end.

Definition generateTxInterceptors (icf : factory) (m : T) : generated :=
  generateAppending (createOneTxInterceptor icf) TransactionTopic icf m.

Definition generateRewardTxInterceptors (icf : factory) (m : T) : generated :=
  generateAppending (createOneRewardTxInterceptor icf)
    RewardsTransactionTopic icf m.

Definition generateUnsignedTxsInterceptors (icf : factory) (m : T)
    : generated :=
  generateAppending (createOneUnsignedTxInterceptor icf)
    UnsignedTransactionTopic icf m.

(** [generateMiniBlocksInterceptors]: slices of [noOfShards+1] entries (a
    [uint32] sum), the loop, and the entry of the metachain assigned at
    index [noOfShards]. *)
Definition generateMiniBlocksInterceptors (icf : factory) (m : T)
    : generated :=
  let shardC := shardCoordinator icf in
  let noOfShards := NumberOfShards shardC in
  let keys := replicate (Z.to_nat (uint32 (noOfShards + 1))) ""%string in
  let interceptorsSlice :=
    replicate (Z.to_nat (uint32 (noOfShards + 1))) None in
  match shardLoop (createOneMiniBlocksInterceptor icf) MiniBlocksTopic shardC
          (Z.to_nat noOfShards) 0 m keys interceptorsSlice with
  | Panics => Panics
  | Returns (m1, Failed err) => Returns (m1, Failed err)
  | Returns (m1, Done (keys, interceptorsSlice)) =>
      let identifierMiniBlocks :=
        (MiniBlocksTopic
         +:+ CommunicationIdentifier shardC MetachainShardId)%string in
      match createOneMiniBlocksInterceptor icf identifierMiniBlocks m1 with
      | (m2, (_, Some err)) => Returns (m2, Failed err)
      | (m2, (interceptor, None)) =>
          match assign keys noOfShards identifierMiniBlocks with
          | Panics => Panics
          | Returns keys' =>
              match assign interceptorsSlice noOfShards interceptor with
              | Panics => Panics
              | Returns interceptorsSlice' =>
                  Returns (m2, Done (keys', interceptorsSlice'))
              end
          end
      end
  end.

(** [generateHdrInterceptor] *)
Definition generateHdrInterceptor (icf : factory) (m : T) : generated :=
  let shardC := shardCoordinator icf in
  match NewNilHeaderValidator with
  | Failed err => Returns (m, Failed err)
  | Done hdrValidator =>
      let identifierHdr :=
        (HeadersTopic
         +:+ CommunicationIdentifier shardC (SelfId shardC))%string in
      match NewHeaderInterceptor (marshalizer icf) (Headers (dataPool icf))
              (HeadersNonces (dataPool icf)) hdrValidator (multiSigner icf)
              (hasher icf) (shardCoordinator icf) (nodesCoordinator icf) with
      | Failed err => Returns (m, Failed err)
      | Done interceptor =>
          match createTopicAndAssignHandler identifierHdr interceptor true m
          with
          | (m1, (_, Some err)) => Returns (m1, Failed err)
          | (m1, (_, None)) =>
              Returns (m1, Done ([identifierHdr], [Some interceptor]))
          end
      end
  end.

(** [generatePeerChBlockBodyInterceptor] *)
Definition generatePeerChBlockBodyInterceptor (icf : factory) (m : T)
    : generated :=
  let shardC := shardCoordinator icf in
  let identifierPeerCh :=
    (PeerChBodyTopic
     +:+ CommunicationIdentifier shardC (SelfId shardC))%string in
  let peerBlockBodyStorer := GetStorer (store icf) PeerChangesUnit in
  match NewPeerBlockBodyInterceptor (marshalizer icf)
          (PeerChangesBlocks (dataPool icf)) peerBlockBodyStorer
          (hasher icf) shardC with
  | Failed err => Returns (m, Failed err)
  | Done interceptor =>
      match createTopicAndAssignHandler identifierPeerCh interceptor true m
      with
      | (m1, (_, Some err)) => Returns (m1, Failed err)
      | (m1, (_, None)) =>
          Returns (m1, Done ([identifierPeerCh], [Some interceptor]))
      end
  end.

(** [generateMetachainHeaderInterceptor] *)
Definition generateMetachainHeaderInterceptor (icf : factory) (m : T)
    : generated :=
  let identifierHdr := MetachainBlocksTopic in
  match NewNilHeaderValidator with
  | Failed err => Returns (m, Failed err)
  | Done hdrValidator =>
      match NewMetachainHeaderInterceptor (marshalizer icf)
              (MetaBlocks (dataPool icf)) (HeadersNonces (dataPool icf))
              hdrValidator (multiSigner icf) (hasher icf)
              (shardCoordinator icf) (nodesCoordinator icf) with
      | Failed err => Returns (m, Failed err)
      | Done interceptor =>
          match createTopicAndAssignHandler identifierHdr interceptor true m
          with
          | (m1, (_, Some err)) => Returns (m1, Failed err)
          | (m1, (_, None)) =>
              Returns (m1, Done ([identifierHdr], [Some interceptor]))
          end
      end
  end.

(** The keys a generator over the shards is to return: the topic of every
    shard in turn, then the topic of the metachain. *)
Definition shardKeys (topic : string) (shardC : Coordinator) : list string :=
  map (λ i : nat, (topic +:+ CommunicationIdentifier shardC (Z.of_nat i))%string)
      (seq 0 (Z.to_nat (NumberOfShards shardC)))
  ++ [(topic +:+ CommunicationIdentifier shardC MetachainShardId)%string].

(** The keys of the seven batches [Create] hands to the container, in its
    order. *)
Definition createKeys (shardC : Coordinator) : list (list string) :=
  [shardKeys TransactionTopic shardC;
   shardKeys UnsignedTransactionTopic shardC;
   shardKeys RewardsTransactionTopic shardC;
   [(HeadersTopic +:+ CommunicationIdentifier shardC (SelfId shardC))%string];
   shardKeys MiniBlocksTopic shardC;
   [(PeerChBodyTopic
     +:+ CommunicationIdentifier shardC (SelfId shardC))%string];
   [MetachainBlocksTopic]].

(** [AddMultiple] for one batch after the other. *)
Fixpoint addAll (container : C)
    (batches : list (list string * list (option Interceptor))) : res C :=
  match batches with
  | [] => Done container
  | (keys, interceptorSlice) :: rest =>
      match AddMultiple container keys interceptorSlice with
      | Failed err => Failed err
      | Done container1 => addAll container1 rest
      end
  end.

(** A batch is well made: as many interceptors as keys, none of them
    [nil]. *)
Definition wellMade (keys : list string)
    (interceptorSlice : list (option Interceptor)) : Prop :=
  length interceptorSlice = length keys ∧
  Forall (λ i, is_Some i) interceptorSlice.

(** The shape of what a generator returns: the keys it is to return, well
    made, and no panic. *)
Definition returnsKeys (gen : factory → T → generated) (icf : factory)
    (expected : list string) : Prop :=
  ∀ m, gen icf m ≠ Panics ∧
       ∀ m' keys slice,
         gen icf m = Returns (m', Done (keys, slice)) →
         keys = expected ∧ wellMade keys slice.

(** One step of [Create]: run a generator and hand what it made to the
    container. *)
Definition generateInto (gen : factory → T → generated) (icf : factory)
    (mc : T * C) : outcome (T * res C) :=
  match gen icf (fst mc) with
  | Panics => Panics
  | Returns (m1, Failed err) => Returns (m1, Failed err)
  | Returns (m1, Done (keys, interceptorSlice)) =>
      Returns (m1, AddMultiple (snd mc) keys interceptorSlice)
  end.

(** The generators in the order [Create] runs them. *)
Definition generators : list (factory → T → generated) :=
  [generateTxInterceptors;
   generateUnsignedTxsInterceptors;
   generateRewardTxInterceptors;
   generateHdrInterceptor;
   generateMiniBlocksInterceptors;
   generatePeerChBlockBodyInterceptor;
   generateMetachainHeaderInterceptor].

(** [Create]: a new container, then the seven generators in turn, each
    followed by [AddMultiple]; the first error ends the function. *)
Fixpoint createFrom (gens : list (factory → T → generated)) (icf : factory)
    (m : T) (container : C) : outcome (T * res C) :=
  match gens with
  | [] => Returns (m, Done container)
  | gen :: rest =>
      match generateInto gen icf (m, container) with
      | Panics => Panics
      | Returns (m1, Failed err) => Returns (m1, Failed err)
      | Returns (m1, Done container1) => createFrom rest icf m1 container1
      end
  end.

Definition Create (icf : factory) (m : T) : outcome (T * res C) :=
  createFrom generators icf m NewInterceptorsContainer.

End Generators.

End Shard.

(* ================================================================== *)
(** ** Collaborators of the factory used in the examples *)
(* ================================================================== *)

Module ShardScenario.
Import Shard.

(** A messenger that is the list of its topics, the oldest first: a topic
    can be created once, and a processor goes to a topic that exists. *)
#[global] Instance ListMessenger : TopicHandler (list string) string := {|
  CreateTopic m topic createChannel :=
    if bool_decide (topic ∈ m)
    then (m, Some (ErrOther "topic already exists"))
    else (m ++ [topic], None);
  RegisterMessageProcessor m topic interceptor :=
    if bool_decide (topic ∈ m) then (m, None)
    else (m, Some (ErrOther "no such topic"));
|}.

(** A container that is the list of its keys: a batch needs as many
    interceptors as keys. *)
#[global] Instance ListContainer : InterceptorsContainer (list string) string
  := {|
  NewInterceptorsContainer := [];
  AddMultiple c keys interceptorSlice :=
    if bool_decide (length keys = length interceptorSlice)
    then Done (c ++ keys)
    else Failed (ErrOther "keys and interceptors differ in number");
|}.

(** The suffix of a shard's topic. *)
Definition shardSuffix (shardId : Z) : string :=
  if bool_decide (shardId = 4294967295) then "_META"%string
  else ("_" +:+ String (Ascii.ascii_of_nat (48 + Z.to_nat shardId))
                  EmptyString)%string.

(** A coordinator is its number of shards, the own shard being shard 0; the
    other collaborators are units, and every constructor succeeds. *)
#[global] Instance UnitCollaborators :
  Collaborators unit Z unit unit unit unit unit unit unit unit unit unit
    unit unit unit unit unit unit unit unit string := {|
  NumberOfShards c := c;
  CommunicationIdentifier c i := shardSuffix i;
  SelfId c := 0;
  MetachainShardId := 4294967295;
  TransactionTopic := "transactions";
  UnsignedTransactionTopic := "unsignedTransactions";
  RewardsTransactionTopic := "rewardsTransactions";
  HeadersTopic := "headers";
  MiniBlocksTopic := "txBlockBodies";
  PeerChBodyTopic := "peerChangeBlockBodies";
  MetachainBlocksTopic := "metachainBlocks";
  Transactions _ := ();
  RewardTransactions _ := ();
  UnsignedTransactions _ := ();
  Headers _ := ();
  HeadersNonces _ := ();
  MiniBlocks _ := ();
  PeerChangesBlocks _ := ();
  MetaBlocks _ := ();
  GetStorer _ _ := ();
  NewTxValidator _ _ _ := Done ();
  NewNilHeaderValidator := Done ();
  NewTxInterceptor _ _ _ _ _ _ _ _ _ _ := Done "tx"%string;
  NewRewardTxInterceptor _ _ _ _ _ _ := Done "rewardTx"%string;
  NewUnsignedTxInterceptor _ _ _ _ _ _ := Done "unsignedTx"%string;
  NewHeaderInterceptor _ _ _ _ _ _ _ _ := Done "header"%string;
  NewTxBlockBodyInterceptor _ _ _ _ _ := Done "txBlockBody"%string;
  NewPeerBlockBodyInterceptor _ _ _ _ _ := Done "peerBlockBody"%string;
  NewMetachainHeaderInterceptor _ _ _ _ _ _ _ _ := Done "metaHeader"%string;
|}.

(** A factory for two shards. *)
Definition factory2 :
  interceptorsContainerFactory (λ A : Type, A) unit Z unit unit unit unit
    unit unit unit unit unit unit unit unit :=
  mkFactory (F := λ A : Type, A) () 2 () () () () () () () () () () () 0 ().

End ShardScenario.

(* ================================================================== *)
(** ** A consensus group larger than the index of the multi-signer *)
(* ================================================================== *)

Module LargeGroup.
Import Spos Bn Scenario.

(** The name of a member: the binary digits of its number, the lowest
    first. *)
Fixpoint name (p : positive) : string :=
  match p with
  | xH => "1"
  | xO q => "0" +:+ name q
  | xI q => "1" +:+ name q
  end%string.

Definition member (i : nat) : string := name (Pos.of_succ_nat i).

(** The [n] positive numbers from [p] on. *)
Fixpoint positives (n : nat) (p : positive) : list positive :=
  match n with
  | O => []
  | Datatypes.S n' => p :: positives n' (Pos.succ p)
  end.

(** A group of 65537 members, with the indices 0 to 65536: the member at
    index [i] is [member i], the name of the number [i + 1]. *)
Definition group : list string := map name (positives (Z.to_nat 65537) 1).

(** Only the last member, at index 65536, is in the leader's bitmap; no
    commitment has been received and the store is empty. *)
Definition state : ConsensusState :=
  mkConsensusState group (member 1)
    {[ member (Z.to_nat 65536) := flags [(SrBitmap, true)] ]}
    (Some hash1) false ∅ (λ _, 1).

Definition world : World TableSigner :=
  mkWorld state (mkTableSigner ∅ ∅) [].

(** The commitment of the last member. *)
Definition msgLast : Message :=
  NewConsensusMessage hash1 [x0c]
    (String.list_byte_of_string (member (Z.to_nat 65536))) []
    MtCommitment 1500000000 7.

End LargeGroup.

(* ================================================================== *)
(** ** Package [heartbeat]: the slice of all peers, with the buffers *)
(* ================================================================== *)

Module HeartbeatBuffers.
Import Heartbeat.

(** A Go byte slice is a view of a backing array: [append] in
    [addPeerToFullPeersSlice] stores the caller's view, not a copy of the
    bytes, so the bytes of a stored peer are those the array holds when
    they are read. *)
Record View : Type := mkView {
  array : nat;   (* which backing array *)
  offset : nat;  (* where the view starts in it *)
  extent : nat;  (* [len] of the slice *)
}.

(** The bytes a view shows in a memory of backing arrays. *)
Definition contents (mem : gmap nat bytes) (v : View) : bytes :=
  take (extent v) (drop (offset v) (default [] (mem !! array v))).

(** [buf[i] = b] by whoever holds the array. *)
Definition write (mem : gmap nat bytes) (a i : nat) (b : byte)
    : gmap nat bytes :=
  match mem !! a with
  | Some bs => <[a := <[i := b]> bs]> mem
  | None => mem
  end.

(** The fields of [Monitor] again, the peers now as the views they are. *)
Record Monitor (S : Type) : Type := mkMonitor {
  fullPeersSlice : list View;
  storer : S;
}.
Arguments mkMonitor {S} _ _.
Arguments fullPeersSlice {S} _.
Arguments storer {S} _.

(** [isPeerInFullPeersSlice]: [bytes.Equal] compares what the two views
    show at the time of the call. *)
Fixpoint isPeerInViews (mem : gmap nat bytes) (peers : list View)
    (pubKey : View) : bool :=
  match peers with
  | [] => false
  | peer :: rest =>
      if bool_decide (contents mem peer = contents mem pubKey) then true
      else isPeerInViews mem rest pubKey
  end.

Definition isPeerInFullPeersSlice {S : Type} (mem : gmap nat bytes)
    (m : Monitor S) (pubKey : View) : bool :=
  isPeerInViews mem (fullPeersSlice m) pubKey.

(** [addPeerToFullPeersSlice]: the view is appended and [SaveKeys] is given
    the slice of views, of which it can read the bytes they show now. *)
Definition addPeerToFullPeersSlice {S : Type} `{HeartbeatStorageHandler S}
    (mem : gmap nat bytes) (m : Monitor S) (pubKey : View) : Monitor S :=
  if negb (isPeerInFullPeersSlice mem m pubKey) then
    let peers := fullPeersSlice m ++ [pubKey] in
    let (storer', err) := SaveKeys (storer m) (map (contents mem) peers) in
    mkMonitor peers storer'
  else m.

(** The peers as the bytes they show in a memory. *)
Definition shown {S : Type} (mem : gmap nat bytes) (m : Monitor S)
    : list bytes :=
  map (contents mem) (fullPeersSlice m).

End HeartbeatBuffers.

(* ================================================================== *)
(** ** Theorems: package [core] *)
(* ================================================================== *)

Lemma byte_eqb_true_iff (a b : byte) : Byte.eqb a b = true ↔ a = b.
Proof.
  split; [apply byte_dec_bl | apply byte_dec_lb].
Qed.

Lemma IsMetaChainShardId_Forall (identifier : bytes) :
  Core.IsMetaChainShardId identifier = true ↔
  Forall (λ b, b = Core.metaChainIdentifier) identifier.
Proof.
  induction identifier as [|b rest IH]; simpl.
  - split; [constructor | reflexivity].
  - destruct (Byte.eqb b Core.metaChainIdentifier) eqn:E; simpl.
    + apply byte_eqb_true_iff in E. rewrite IH. split.
      * intros H. constructor; assumption.
      * intros H. apply Forall_cons in H as [_ H]. exact H.
    + split; [discriminate |].
      intros H. apply Forall_cons in H as [Hb _].
      apply byte_eqb_true_iff in Hb. congruence.
Qed.

(** C10: [IsMetaChainShardId] answers [true] on the empty slice, and on any
    slice it answers [true] exactly when every byte of it is 255. *)
Theorem IsMetaChainShardId_spec :
  Core.IsMetaChainShardId [] = true ∧
  ∀ identifier : bytes,
    Core.IsMetaChainShardId identifier = true ↔
    ∀ b, b ∈ identifier → Byte.to_N b = 255%N.
Proof.
  split; [reflexivity |].
  intros identifier. rewrite IsMetaChainShardId_Forall, Forall_forall.
  split; intros H b Hb.
  - rewrite (H b Hb). reflexivity.
  - specialize (H b Hb).
    apply (f_equal Byte.of_N) in H. rewrite Byte.of_to_N in H.
    simpl in H. unfold Core.metaChainIdentifier. congruence.
Qed.

(* ================================================================== *)
(** ** Lemmas: the consensus state *)
(* ================================================================== *)

Section SposFacts.
Import Spos.

Implicit Types (c : ConsensusState) (node : string) (s : SubroundId).

Lemma JobDone_member c node s :
  node ∈ consensusGroup c → JobDone c node s = Ok (jobFlag c node s).
Proof.
  intros Hin. unfold JobDone. destruct (decide _); [reflexivity | contradiction].
Qed.

Lemma JobDone_stranger c node s :
  node ∉ consensusGroup c → JobDone c node s = Err ErrNodeNotInGroup.
Proof.
  intros Hin. unfold JobDone. destruct (decide _); [contradiction | reflexivity].
Qed.

Lemma IsJobDone_member c node s :
  node ∈ consensusGroup c → IsJobDone c node s = jobFlag c node s.
Proof.
  intros Hin. unfold IsJobDone. rewrite JobDone_member; auto.
Qed.

Lemma IsJobDone_stranger c node s :
  node ∉ consensusGroup c → IsJobDone c node s = false.
Proof.
  intros Hin. unfold IsJobDone. rewrite JobDone_stranger; auto.
Qed.

(** [SetJobDone] succeeds exactly on the members of the group. *)
Lemma SetJobDone_member c node s b :
  node ∈ consensusGroup c → ∃ c', SetJobDone c node s b = Ok c'.
Proof.
  intros Hin. unfold SetJobDone. destruct (decide _); [eauto | contradiction].
Qed.

Lemma SetJobDone_Ok_inv c node s b c' :
  SetJobDone c node s b = Ok c' →
  node ∈ consensusGroup c ∧
  c' = set_jobStatus
         (<[node := <[s := b]> (default ∅ (jobStatus c !! node))]>
            (jobStatus c)) c.
Proof.
  unfold SetJobDone. destruct (decide _); [| discriminate].
  intros [= <-]. split; [assumption | reflexivity].
Qed.

(** What [SetJobDone] leaves alone. *)
Lemma SetJobDone_frame c node s b c' :
  SetJobDone c node s b = Ok c' →
  consensusGroup c' = consensusGroup c ∧ selfPubKey c' = selfPubKey c ∧
  Data c' = Data c ∧ RoundCanceled c' = RoundCanceled c ∧
  status c' = status c ∧ threshold c' = threshold c.
Proof.
  intros Hs. apply SetJobDone_Ok_inv in Hs as [_ ->]. simpl. tauto.
Qed.

(** The flags after [SetJobDone]. *)
Lemma SetJobDone_jobFlag c node s b c' node' s' :
  SetJobDone c node s b = Ok c' →
  jobFlag c' node' s' =
    if decide (node' = node ∧ s' = s) then b else jobFlag c node' s'.
Proof.
  intros Hs. apply SetJobDone_Ok_inv in Hs as [_ ->].
  unfold jobFlag. simpl.
  destruct (decide (node' = node)) as [->|Hne].
  - rewrite lookup_insert_eq. simpl.
    destruct (decide (s' = s)) as [->|Hs'].
    + rewrite lookup_insert_eq. simpl.
      destruct (decide _) as [|Hn]; [reflexivity | exfalso; apply Hn; auto].
    + rewrite lookup_insert_ne by congruence.
      destruct (decide _) as [[_ ?]|_]; [congruence |].
      destruct (jobStatus c !! node); simpl; [reflexivity |].
      rewrite lookup_empty. reflexivity.
  - rewrite lookup_insert_ne by congruence.
    destruct (decide _) as [[? _]|_]; [congruence | reflexivity].
Qed.

Lemma SetJobDone_IsJobDone c node s b c' node' s' :
  SetJobDone c node s b = Ok c' →
  IsJobDone c' node' s' =
    if decide (node' = node ∧ s' = s) then b else IsJobDone c node' s'.
Proof.
  intros Hs.
  pose proof (SetJobDone_frame _ _ _ _ _ Hs) as (Hg & _).
  pose proof (SetJobDone_Ok_inv _ _ _ _ _ Hs) as [Hin _].
  destruct (decide (node' ∈ consensusGroup c)) as [Hm|Hm].
  - rewrite !IsJobDone_member by (rewrite ?Hg; assumption).
    eapply SetJobDone_jobFlag; eassumption.
  - rewrite !IsJobDone_stranger by (rewrite ?Hg; assumption).
    destruct (decide _) as [[-> _]|_]; [contradiction | reflexivity].
Qed.

(** Marking done an entry that is already done changes no answer of
    [IsJobDone]. *)
Lemma SetJobDone_again c node s c' node' s' :
  IsJobDone c node s = true →
  SetJobDone c node s true = Ok c' →
  IsJobDone c' node' s' = IsJobDone c node' s'.
Proof.
  intros Hd Hs. rewrite (SetJobDone_IsJobDone _ _ _ _ _ _ _ Hs).
  destruct (decide _) as [[-> ->]|_]; [symmetry; assumption | reflexivity].
Qed.

Lemma ConsensusGroupIndex_Ok_inv c node i :
  ConsensusGroupIndex c node = Ok i →
  0 ≤ i ∧ consensusGroup c !! Z.to_nat i = Some node.
Proof.
  unfold ConsensusGroupIndex.
  destruct (list_find _ _) as [[k x]|] eqn:E; [| discriminate].
  intros [= <-]. apply list_find_Some in E as (Hl & -> & _).
  split; [lia |]. rewrite Nat2Z.id. assumption.
Qed.

Lemma Status_SetStatus c s st s' :
  Status (SetStatus c s st) s' = if decide (s' = s) then st else Status c s'.
Proof.
  unfold Status, SetStatus. simpl.
  destruct (decide (s' = s)) as [->|Hne].
  - rewrite lookup_insert_eq. reflexivity.
  - rewrite lookup_insert_ne by congruence. reflexivity.
Qed.

End SposFacts.

(* ================================================================== *)
(** ** Lemmas: the collection loop *)
(* ================================================================== *)

Section Collection.
Import Spos Bn.

Implicit Types (c : ConsensusState) (node : string) (nodes : list string).

Lemma commitmentsCollected_loop_spec c nodes n :
  commitmentsCollected_loop c nodes n =
    if existsb (uncovered c) nodes then None
    else Some (n + Z.of_nat
                     (length (filter (λ node, bothDone c node = true) nodes))).
Proof.
  revert n. induction nodes as [|node rest IH]; intros n.
  - simpl. f_equal. lia.
  - cbn [commitmentsCollected_loop existsb]. rewrite filter_cons.
    destruct (decide (node ∈ consensusGroup c)) as [Hin|Hin].
    + assert (uncovered c node =
                jobFlag c node SrBitmap && negb (jobFlag c node SrCommitment))
        as Hu by (unfold uncovered; rewrite !IsJobDone_member; auto).
      assert (bothDone c node =
                jobFlag c node SrBitmap && jobFlag c node SrCommitment)
        as Hb by (unfold bothDone; rewrite !IsJobDone_member; auto).
      rewrite (JobDone_member c node SrBitmap Hin),
        (JobDone_member c node SrCommitment Hin), Hu, Hb.
      destruct (jobFlag c node SrBitmap); cbn [andb orb negb].
      * destruct (jobFlag c node SrCommitment); cbn [andb orb negb].
        -- rewrite IH. destruct (decide _); [| congruence].
           destruct (existsb _ _); [reflexivity |].
           cbn [length]. f_equal. lia.
        -- reflexivity.
      * rewrite IH. destruct (decide _); [discriminate | reflexivity].
    + assert (uncovered c node = false) as Hu
        by (unfold uncovered; rewrite IsJobDone_stranger; auto).
      assert (bothDone c node = false) as Hb
        by (unfold bothDone; rewrite IsJobDone_stranger; auto).
      rewrite (JobDone_stranger c node SrBitmap Hin), Hu, Hb.
      cbn [orb]. rewrite IH.
      destruct (decide _); [discriminate | reflexivity].
Qed.

Lemma commitmentsCollected_spec c threshold :
  commitmentsCollected c threshold =
    negb (existsb (uncovered c) (consensusGroup c))
    && (threshold <=? bothDoneCount c).
Proof.
  unfold commitmentsCollected, bothDoneCount.
  rewrite commitmentsCollected_loop_spec.
  destruct (existsb _ _); [reflexivity |].
  cbn [negb andb]. rewrite Z.geb_leb. reflexivity.
Qed.

Lemma bitmapCovered_existsb c :
  bitmapCovered c ↔ existsb (uncovered c) (consensusGroup c) = false.
Proof.
  unfold bitmapCovered. split.
  - intros Hc. apply not_true_is_false. intros He.
    apply existsb_exists in He as (node & Hin & Hu).
    apply list_elem_of_In in Hin.
    unfold uncovered in Hu. apply andb_true_iff in Hu as [Hb Hn].
    rewrite (Hc node Hin Hb) in Hn. discriminate.
  - intros He node Hin Hb.
    destruct (IsJobDone c node SrCommitment) eqn:Hcm; [reflexivity |].
    assert (existsb (uncovered c) (consensusGroup c) = true) as Ht.
    { apply existsb_exists. exists node. split.
      - apply list_elem_of_In. assumption.
      - unfold uncovered. rewrite Hb, Hcm. reflexivity. }
    congruence.
Qed.

Lemma commitmentsCollected_true_iff c threshold :
  commitmentsCollected c threshold = true ↔
  bitmapCovered c ∧ threshold ≤ bothDoneCount c.
Proof.
  rewrite commitmentsCollected_spec, andb_true_iff, negb_true_iff.
  rewrite <- bitmapCovered_existsb, Z.leb_le. reflexivity.
Qed.

(** The collection reads the job status through [IsJobDone] and the group
    only. *)
Lemma commitmentsCollected_ext c c' threshold :
  consensusGroup c' = consensusGroup c →
  (∀ node s, IsJobDone c' node s = IsJobDone c node s) →
  commitmentsCollected c' threshold = commitmentsCollected c threshold ∧
  bothDoneCount c' = bothDoneCount c.
Proof.
  intros Hg Hj.
  assert (∀ node, uncovered c' node = uncovered c node) as Hu.
  { intros node. unfold uncovered. rewrite !Hj. reflexivity. }
  assert (∀ node, bothDone c' node = bothDone c node) as Hb.
  { intros node. unfold bothDone. rewrite !Hj. reflexivity. }
  assert (bothDoneCount c' = bothDoneCount c) as Hc.
  { unfold bothDoneCount. rewrite Hg. do 2 f_equal.
    apply list_filter_iff. intros node. rewrite Hb. reflexivity. }
  split; [| exact Hc].
  rewrite !commitmentsCollected_spec, Hc, Hg.
  assert (existsb (uncovered c') (consensusGroup c) =
          existsb (uncovered c) (consensusGroup c)) as ->; [| reflexivity].
  clear Hg Hc. induction (consensusGroup c) as [|x l IH]; [reflexivity |].
  simpl. rewrite Hu, IH. reflexivity.
Qed.

End Collection.

(* ================================================================== *)
(** ** Theorems: collecting the commitments *)
(* ================================================================== *)

Section CollectionTheorems.
Import Spos Bn Scenario.

(** C9: [commitmentsCollected] answers [true] only if every member of the
    consensus group whose Bitmap job is done also has its Commitment job
    done; one member with the Bitmap job done and no commitment makes it
    answer [false], whatever the threshold is. *)
Theorem commitmentsCollected_covers_bitmap (c : ConsensusState) :
  (∀ threshold, commitmentsCollected c threshold = true → bitmapCovered c) ∧
  (∀ node,
     node ∈ consensusGroup c →
     IsJobDone c node SrBitmap = true →
     IsJobDone c node SrCommitment = false →
     ∀ threshold, commitmentsCollected c threshold = false).
Proof.
  split.
  - intros threshold Ht.
    apply commitmentsCollected_true_iff in Ht. tauto.
  - intros node Hin Hb Hc threshold.
    apply not_true_is_false. intros Ht.
    apply commitmentsCollected_true_iff in Ht as [Hcov _].
    rewrite (Hcov node Hin Hb) in Hc. discriminate.
Qed.

(** C1, the count alone does not decide the check: in a group of three, all
    in the bitmap, with two commitments and a threshold of two, the count
    reaches the threshold and the check of the fresh subround still answers
    [false], because "c" is in the bitmap and has no commitment. *)
Lemma check_count_alone_counterexample :
  fresh (state3 "a" false ∅ 2) ∧
  Threshold (state3 "a" false ∅ 2) SrCommitment
    ≤ bothDoneCount (state3 "a" false ∅ 2) ∧
  fst (doCommitmentConsensusCheck (world3 "a" false ∅ 2)) = false.
Proof.
  split; [| split].
  - split; [reflexivity |]. vm_compute. discriminate.
  - vm_compute. discriminate.
  - vm_compute. reflexivity.
Qed.

(** C1 (amended): for a fresh subround (round not canceled, status not
    Finished) [doCommitmentConsensusCheck] answers [true] exactly when the
    commitments cover the bitmap and the number of members with both the
    Bitmap and the Commitment job done is at least [Threshold(SrCommitment)];
    it sets the status to Finished when it answers [true] and changes
    nothing when it answers [false]. *)
Theorem doCommitmentConsensusCheck_fresh {M : Type} (w : World M) :
  fresh (cns w) →
  (fst (doCommitmentConsensusCheck w) = true ↔
     bitmapCovered (cns w) ∧
     Threshold (cns w) SrCommitment ≤ bothDoneCount (cns w)) ∧
  (fst (doCommitmentConsensusCheck w) = true →
     snd (doCommitmentConsensusCheck w)
       = set_cns (SetStatus (cns w) SrCommitment SsFinished) w) ∧
  (fst (doCommitmentConsensusCheck w) = false →
     snd (doCommitmentConsensusCheck w) = w).
Proof.
  intros [Hc Hs]. unfold doCommitmentConsensusCheck. rewrite Hc.
  destruct (decide _) as [|_]; [contradiction |].
  rewrite <- commitmentsCollected_true_iff.
  destruct (commitmentsCollected _ _); simpl.
  - split; [tauto |]. split; [reflexivity | discriminate].
  - split; [tauto |]. split; [discriminate | reflexivity].
Qed.

Lemma doCommitmentConsensusCheck_fresh_witness :
  fresh (state3 "a" false ∅ 2) ∧
  snd (doCommitmentConsensusCheck (world3 "a" false ∅ 2))
    = world3 "a" false ∅ 2.
Proof.
  assert (fresh (cns (world3 "a" false ∅ 2))) as Hf.
  { split; [reflexivity |]. vm_compute. discriminate. }
  split; [exact Hf |].
  apply (proj2 (proj2 (doCommitmentConsensusCheck_fresh
                         (world3 "a" false ∅ 2) Hf))).
  vm_compute. reflexivity.
Defined.

End CollectionTheorems.

(* ================================================================== *)
(** ** Theorems: receiving a commitment *)
(* ================================================================== *)

Section ReceivedTheorems.
Import Spos Bn Scenario.

Context {M : Type} `{MultiSigner M}.
Variable gate : ConsensusState → Message → Z → SubroundId → bool.

Lemma receivedCommitment_rejected rounder (w : World M) cnsDta :
  accepted gate rounder w cnsDta = false →
  receivedCommitment gate rounder w cnsDta = (false, w).
Proof.
  unfold accepted, receivedCommitment. intros Ha.
  destruct (IsConsensusDataSet _); [| reflexivity].
  destruct (IsConsensusDataEqual _ _); [| reflexivity].
  destruct (IsJobDone _ _ _); [| reflexivity].
  destruct (gate _ _ _ _); [discriminate | reflexivity].
Qed.

(** A call that answers [true] went through the whole function. *)
Lemma receivedCommitment_true_inv rounder (w w' : World M) cnsDta :
  receivedCommitment gate rounder w cnsDta = (true, w') →
  accepted gate rounder w cnsDta = true ∧
  ∃ index m' c',
    ConsensusGroupIndex (cns w) (String.string_of_list_byte (PubKey cnsDta))
      = Ok index ∧
    StoreCommitment (multiSigner w) (uint16 index) (SubRoundData cnsDta)
      = Ok m' ∧
    SetJobDone (cns w) (String.string_of_list_byte (PubKey cnsDta))
      SrCommitment true = Ok c' ∧
    w' = mkWorld c' m' (sent w).
Proof.
  unfold accepted, receivedCommitment.
  destruct (IsConsensusDataSet _); [| discriminate].
  destruct (IsConsensusDataEqual _ _); [| discriminate].
  destruct (IsJobDone _ _ _); [| discriminate].
  destruct (gate _ _ _ _); [| discriminate]. cbn [negb andb].
  destruct (ConsensusGroupIndex _ _) as [index|]; [| discriminate].
  destruct (StoreCommitment _ _ _) as [m'|] eqn:Hst; [| discriminate].
  cbn [set_multiSigner cns].
  destruct (SetJobDone _ _ _ _) as [c'|] eqn:Hset; [| discriminate].
  intros [= <-]. split; [reflexivity |].
  exists index, m', c'. auto.
Qed.

(** A call changes the consensus state only by marking the sender's
    Commitment job done. *)
Lemma receivedCommitment_cns rounder (w : World M) cnsDta :
  cns (snd (receivedCommitment gate rounder w cnsDta)) = cns w ∨
  SetJobDone (cns w) (String.string_of_list_byte (PubKey cnsDta))
    SrCommitment true
  = Ok (cns (snd (receivedCommitment gate rounder w cnsDta))).
Proof.
  unfold receivedCommitment.
  destruct (IsConsensusDataSet _); [| left; reflexivity].
  destruct (IsConsensusDataEqual _ _); [| left; reflexivity].
  destruct (IsJobDone _ _ _); [| left; reflexivity].
  destruct (gate _ _ _ _); [| left; reflexivity]. cbn [negb].
  destruct (ConsensusGroupIndex _ _) as [index|]; [| left; reflexivity].
  destruct (StoreCommitment _ _ _) as [m'|]; [| left; reflexivity].
  cbn [set_multiSigner cns].
  destruct (SetJobDone _ _ _ _) as [c'|]; [right | left]; reflexivity.
Qed.

(** C2: [receivedCommitment] stores the commitment at the sender's index in
    the group and marks the sender's Commitment job done only if the round's
    data is set, the block-header hash of the message equals it byte for
    byte, the sender's Bitmap job is done and the generic check of received
    messages passes; if one of the four fails it answers [false] and leaves
    everything as it was. *)
Theorem receivedCommitment_conditions (rounder : Rounder) (w : World M)
    (cnsDta : Message) :
  let node := String.string_of_list_byte (PubKey cnsDta) in
  let r := receivedCommitment gate rounder w cnsDta in
  ((IsConsensusDataSet (cns w) = false ∨
    IsConsensusDataEqual (cns w) (BlockHeaderHash cnsDta) = false ∨
    IsJobDone (cns w) node SrBitmap = false ∨
    gate (cns w) cnsDta (Index rounder) SrCommitment = false) →
   r = (false, w)) ∧
  (fst r = true →
   (Data (cns w) = Some (BlockHeaderHash cnsDta) ∧
    IsJobDone (cns w) node SrBitmap = true ∧
    gate (cns w) cnsDta (Index rounder) SrCommitment = true) ∧
   ∃ index,
     ConsensusGroupIndex (cns w) node = Ok index ∧
     StoreCommitment (multiSigner w) (uint16 index) (SubRoundData cnsDta)
       = Ok (multiSigner (snd r)) ∧
     JobDone (cns (snd r)) node SrCommitment = Ok true) ∧
  (snd r ≠ w →
   Data (cns w) = Some (BlockHeaderHash cnsDta) ∧
   IsJobDone (cns w) node SrBitmap = true ∧
   gate (cns w) cnsDta (Index rounder) SrCommitment = true).
Proof.
  intros node r.
  assert (accepted gate rounder w cnsDta = true →
          Data (cns w) = Some (BlockHeaderHash cnsDta) ∧
          IsJobDone (cns w) node SrBitmap = true ∧
          gate (cns w) cnsDta (Index rounder) SrCommitment = true) as Hacc.
  { unfold accepted. rewrite !andb_true_iff. intros [[[Hset Heq] Hb] Hg].
    split; [| split; assumption].
    unfold IsConsensusDataSet in Hset. unfold IsConsensusDataEqual in Heq.
    apply bool_decide_eq_true in Heq.
    destruct (Data (cns w)); [| discriminate]. simpl in Heq. congruence. }
  split; [| split].
  - intros Hfail. apply receivedCommitment_rejected.
    unfold accepted. fold node.
    destruct Hfail as [-> | [-> | [-> | ->]]];
      rewrite ?andb_false_r; reflexivity.
  - intros Ht. destruct r as [b w'] eqn:Er. simpl in Ht. subst b.
    apply receivedCommitment_true_inv in Er
      as (Ha & index & m' & c' & Hi & Hst & Hset & ->).
    split; [apply Hacc, Ha |].
    exists index. fold node in Hi, Hset. cbn [snd multiSigner cns].
    split; [exact Hi |]. split; [exact Hst |].
    pose proof (SetJobDone_Ok_inv _ _ _ _ _ Hset) as [Hin _].
    pose proof (SetJobDone_frame _ _ _ _ _ Hset) as [Hg _].
    rewrite JobDone_member by (rewrite Hg; exact Hin).
    rewrite (SetJobDone_jobFlag _ _ _ _ _ node SrCommitment Hset).
    destruct (decide _) as [|Hn]; [reflexivity | exfalso; apply Hn; auto].
  - intros Hne. apply Hacc.
    destruct (accepted gate rounder w cnsDta) eqn:Ha; [reflexivity |].
    apply receivedCommitment_rejected in Ha.
    subst r. rewrite Ha in Hne. contradiction.
Qed.

End ReceivedTheorems.

(* ================================================================== *)
(** ** Theorems: the job of the commitment subround *)
(* ================================================================== *)

Section JobTheorems.
Import Spos Bn Scenario.

Context {M : Type} `{MultiSigner M}.
Variable canDo : ConsensusState → SubroundId → bool.
Variable send : Message → bool.

Lemma SelfConsensusGroupIndex_member (c : ConsensusState) (i : Z) :
  SelfConsensusGroupIndex c = Ok i → selfPubKey c ∈ consensusGroup c.
Proof.
  intros Hi. apply ConsensusGroupIndex_Ok_inv in Hi as [_ Hl].
  eapply list_elem_of_lookup_2. exact Hl.
Qed.

(** The ways through [doCommitmentJob]: it leaves early without touching
    anything, or it hands one message to the callback and then marks the
    job done exactly when the callback answers [true]. *)
Lemma doCommitmentJob_cases (rounder : Rounder) (w : World M) :
  let r := doCommitmentJob canDo send rounder w in
  ((IsSelfJobDone (cns w) SrBitmap = false ∨
    canDo (cns w) SrCommitment = false ∨
    ∃ e, ownCommitment w = Err e) ∧ r = (false, w)) ∨
  (IsSelfJobDone (cns w) SrBitmap = true ∧
   canDo (cns w) SrCommitment = true ∧
   ∃ commitment,
     ownCommitment w = Ok commitment ∧
     let msg := commitmentMessage (cns w) rounder commitment in
     (send msg = false ∧ r = (false, record_sent msg w)) ∨
     (send msg = true ∧
      ∃ c', SetSelfJobDone (cns w) SrCommitment true = Ok c' ∧
            r = (true, mkWorld c' (multiSigner w) (sent w ++ [msg])))).
Proof.
  unfold doCommitmentJob, ownCommitment. cbv zeta.
  destruct (IsSelfJobDone _ _); cbn [negb]; [| left; auto].
  destruct (canDo _ _); cbn [negb]; [| left; auto].
  destruct (SelfConsensusGroupIndex _) as [selfIndex|e] eqn:Hi;
    [| left; eauto].
  destruct (Commitment _ _) as [commitment|e]; [| left; eauto].
  right. split; [reflexivity |]. split; [reflexivity |].
  exists commitment. split; [reflexivity |].
  fold (commitmentMessage (cns w) rounder commitment).
  destruct (send _); cbn [negb]; [right | left; auto].
  split; [reflexivity |]. cbn [record_sent cns].
  apply SelfConsensusGroupIndex_member in Hi.
  destruct (SetJobDone_member (cns w) _ SrCommitment true Hi) as [c' Hc'].
  unfold SetSelfJobDone. rewrite Hc'. exists c'. auto.
Qed.

(** What [doCommitmentJob] does not do: it changes nothing on a failed
    precondition, and it answers [true] or changes the job status only
    with one message handed to a callback that answered [true]. *)
Lemma doCommitmentJob_guarded (rounder : Rounder) (w : World M) :
  let r := doCommitmentJob canDo send rounder w in
  ((IsSelfJobDone (cns w) SrBitmap = false ∨
    canDo (cns w) SrCommitment = false ∨
    (∃ e, ownCommitment w = Err e)) →
   r = (false, w)) ∧
  (fst r = true →
   ∃ msg,
     sent (snd r) = sent w ++ [msg] ∧
     BlockHeaderHash msg = default [] (Data (cns w)) ∧
     ownCommitment w = Ok (SubRoundData msg) ∧
     TimeStamp msg = uint64 (TimeStampUnix rounder) ∧
     RoundIndex msg = Index rounder ∧
     MsgType msg = MtCommitment ∧
     send msg = true ∧
     IsSelfJobDone (cns (snd r)) SrCommitment = true) ∧
  (cns (snd r) ≠ cns w →
   ∃ msg, sent (snd r) = sent w ++ [msg] ∧ send msg = true ∧ fst r = true) ∧
  (∀ msg, sent (snd r) = sent w ++ [msg] → send msg = false →
   fst r = false ∧ cns (snd r) = cns w).
Proof.
  intros r. subst r.
  destruct (doCommitmentJob_cases rounder w)
    as [[Hpre ->] | (Hb & Hc & commitment & Hown & Hcase)].
  - cbn [fst snd]. split; [reflexivity |]. split; [discriminate |].
    split; [contradiction |].
    intros msg Hs _. exfalso.
    apply (f_equal length) in Hs. rewrite length_app in Hs.
    simpl in Hs. lia.
  - cbv zeta in Hcase.
    set (msg := commitmentMessage (cns w) rounder commitment) in *.
    split.
    { intros [Hf | [Hf | [e Hf]]]; congruence. }
    destruct Hcase as [[Hsend ->] | (Hsend & c' & Hset & ->)]; cbn [fst snd].
    + split; [discriminate |]. split; [contradiction |].
      intros msg' Hs _. auto.
    + split.
      { exists msg. repeat split; try reflexivity; try assumption.
        cbn [cns]. unfold IsSelfJobDone, SetSelfJobDone in *.
        pose proof (SetJobDone_frame _ _ _ _ _ Hset) as (_ & -> & _).
        rewrite (SetJobDone_IsJobDone _ _ _ _ _ _ _ Hset).
        destruct (decide _) as [|Hn]; [reflexivity | exfalso; apply Hn; auto]. }
      split.
      { intros _. exists msg. auto. }
      intros msg' Hs Hf. cbn [sent] in Hs.
      apply app_inv_head in Hs. injection Hs as <-. congruence.
Qed.

(** What [doCommitmentJob] does when its preconditions hold: it hands the
    message to the callback, and the callback's answer decides the rest. *)
Lemma doCommitmentJob_progress (rounder : Rounder) (w : World M)
    (commitment : bytes) :
  IsSelfJobDone (cns w) SrBitmap = true →
  canDo (cns w) SrCommitment = true →
  ownCommitment w = Ok commitment →
  let r := doCommitmentJob canDo send rounder w in
  let msg := commitmentMessage (cns w) rounder commitment in
  (send msg = true →
   ∃ c', SetSelfJobDone (cns w) SrCommitment true = Ok c' ∧
         IsSelfJobDone c' SrCommitment = true ∧
         r = (true, mkWorld c' (multiSigner w) (sent w ++ [msg]))) ∧
  (send msg = false → r = (false, record_sent msg w)).
Proof.
  intros Hb Hc Hown r msg. subst r.
  destruct (doCommitmentJob_cases rounder w)
    as [[[Hf | [Hf | [e Hf]]] _] | (_ & _ & commitment' & Hown' & Hcase)];
    try congruence.
  assert (commitment' = commitment) as -> by congruence.
  cbv zeta in Hcase. fold msg in Hcase.
  destruct Hcase as [[Hsend ->] | (Hsend & c' & Hset & ->)].
  - split; [congruence | reflexivity].
  - split; [| congruence]. intros _. exists c'.
    split; [exact Hset |]. split; [| reflexivity].
    unfold IsSelfJobDone, SetSelfJobDone in *.
    pose proof (SetJobDone_frame _ _ _ _ _ Hset) as (_ & -> & _).
    rewrite (SetJobDone_IsJobDone _ _ _ _ _ _ _ Hset).
    destruct (decide _) as [|Hn]; [reflexivity | exfalso; apply Hn; auto].
Qed.

(** C3: [doCommitmentJob] answers [false] and changes nothing when the local
    node is not marked done for Bitmap, or [CanDoSubroundJob(SrCommitment)]
    is false, or the commitment cannot be obtained.  When these
    preconditions hold it hands exactly one message to the send callback,
    carrying the round's data, the commitment, the time stamp and the round
    index; if the callback answers [true] it marks the local node's
    Commitment job done and answers [true], and if the callback answers
    [false] it answers [false] with the job status as it was.  It answers
    [true], and the job status changes, in no other case. *)
Theorem doCommitmentJob_spec (rounder : Rounder) (w : World M) :
  let r := doCommitmentJob canDo send rounder w in
  ((IsSelfJobDone (cns w) SrBitmap = false ∨
    canDo (cns w) SrCommitment = false ∨
    (∃ e, ownCommitment w = Err e)) →
   r = (false, w)) ∧
  (∀ commitment,
     IsSelfJobDone (cns w) SrBitmap = true →
     canDo (cns w) SrCommitment = true →
     ownCommitment w = Ok commitment →
     let msg := commitmentMessage (cns w) rounder commitment in
     BlockHeaderHash msg = default [] (Data (cns w)) ∧
     SubRoundData msg = commitment ∧
     TimeStamp msg = uint64 (TimeStampUnix rounder) ∧
     RoundIndex msg = Index rounder ∧
     MsgType msg = MtCommitment ∧
     sent (snd r) = sent w ++ [msg] ∧
     multiSigner (snd r) = multiSigner w ∧
     (send msg = true →
      fst r = true ∧
      SetSelfJobDone (cns w) SrCommitment true = Ok (cns (snd r)) ∧
      IsSelfJobDone (cns (snd r)) SrCommitment = true) ∧
     (send msg = false → fst r = false ∧ cns (snd r) = cns w)) ∧
  (fst r = true →
   ∃ msg,
     sent (snd r) = sent w ++ [msg] ∧
     BlockHeaderHash msg = default [] (Data (cns w)) ∧
     ownCommitment w = Ok (SubRoundData msg) ∧
     TimeStamp msg = uint64 (TimeStampUnix rounder) ∧
     RoundIndex msg = Index rounder ∧
     MsgType msg = MtCommitment ∧
     send msg = true ∧
     IsSelfJobDone (cns (snd r)) SrCommitment = true) ∧
  (cns (snd r) ≠ cns w →
   ∃ msg, sent (snd r) = sent w ++ [msg] ∧ send msg = true ∧ fst r = true) ∧
  (∀ msg, sent (snd r) = sent w ++ [msg] → send msg = false →
   fst r = false ∧ cns (snd r) = cns w).
Proof.
  intros r.
  destruct (doCommitmentJob_guarded rounder w) as (HA & HB & HC & HD).
  fold r in HA, HB, HC, HD.
  split; [exact HA |]. split; [| split; [exact HB | split; assumption]].
  intros commitment Hb Hc Hown msg.
  destruct (doCommitmentJob_progress rounder w commitment Hb Hc Hown)
    as [Hyes Hno]. fold r in Hyes, Hno. fold msg in Hyes, Hno.
  split; [reflexivity |]. split; [reflexivity |]. split; [reflexivity |].
  split; [reflexivity |]. split; [reflexivity |].
  destruct (send msg) eqn:Hsend.
  - destruct (Hyes eq_refl) as (c' & Hset & Hdone & Hr). rewrite Hr.
    cbn [fst snd sent multiSigner cns].
    split; [reflexivity |]. split; [reflexivity |].
    split; [auto | discriminate].
  - rewrite (Hno eq_refl). cbn [fst snd sent multiSigner cns record_sent].
    split; [reflexivity |]. split; [reflexivity |].
    split; [discriminate | auto].
Qed.

End JobTheorems.

(* ================================================================== *)
(** ** Lemmas: what a call leaves alone *)
(* ================================================================== *)

Section CallFacts.
Import Spos Bn Scenario.

Context {M : Type} `{MultiSigner M}.
Variable canDo : ConsensusState → SubroundId → bool.
Variable gate : ConsensusState → Message → Z → SubroundId → bool.
Variable send : Message → bool.

(** [receivedCommitment] either refuses the message and leaves the world as
    it was, or stores the commitment and marks the sender. *)
Lemma receivedCommitment_cases (rounder : Rounder) (w : World M)
    (cnsDta : Message) :
  let node := String.string_of_list_byte (PubKey cnsDta) in
  receivedCommitment gate rounder w cnsDta = (false, w) ∨
  ∃ index m' c',
    ConsensusGroupIndex (cns w) node = Ok index ∧
    StoreCommitment (multiSigner w) (uint16 index) (SubRoundData cnsDta)
      = Ok m' ∧
    SetJobDone (cns w) node SrCommitment true = Ok c' ∧
    receivedCommitment gate rounder w cnsDta = (true, mkWorld c' m' (sent w)).
Proof.
  intros node. unfold receivedCommitment. fold node.
  destruct (IsConsensusDataSet _); [| left; reflexivity].
  destruct (IsConsensusDataEqual _ _); [| left; reflexivity].
  destruct (IsJobDone _ _ _); [| left; reflexivity].
  destruct (gate _ _ _ _); [| left; reflexivity]. cbn [negb].
  destruct (ConsensusGroupIndex _ _) as [index|] eqn:Hi; [| left; reflexivity].
  destruct (StoreCommitment _ _ _) as [m'|] eqn:Hst; [| left; reflexivity].
  cbn [set_multiSigner cns].
  apply ConsensusGroupIndex_Ok_inv in Hi as Hl. destruct Hl as [_ Hl].
  apply list_elem_of_lookup_2 in Hl.
  destruct (SetJobDone_member (cns w) node SrCommitment true Hl) as [c' Hc'].
  rewrite Hc'. right. exists index, m', c'. auto.
Qed.

(** The effect of one call on the consensus state: none, or one Commitment
    job marked done, or the Commitment status set to Finished in a round
    that is not canceled. *)
Lemma call_cns (w : World M) (k : Call) :
  let w' := snd (call canDo gate send w k) in
  cns w' = cns w ∨
  (∃ node, SetJobDone (cns w) node SrCommitment true = Ok (cns w')) ∨
  (RoundCanceled (cns w) = false ∧
   cns w' = SetStatus (cns w) SrCommitment SsFinished).
Proof.
  destruct k as [rounder | rounder cnsDta |]; cbn [call]; cbv zeta.
  - destruct (doCommitmentJob_cases canDo send rounder w)
      as [[_ ->] | (_ & _ & commitment & _ & [[_ ->] | (_ & c' & Hc & ->)])];
      cbn [snd cns record_sent]; eauto.
  - destruct (receivedCommitment_cases rounder w cnsDta)
      as [-> | (index & m' & c' & _ & _ & Hc & ->)];
      cbn [snd cns]; eauto.
  - unfold doCommitmentConsensusCheck.
    destruct (RoundCanceled (cns w)) eqn:Hc; [left; reflexivity |].
    destruct (decide _); [left; reflexivity |].
    destruct (commitmentsCollected _ _); [| left; reflexivity].
    right. right. auto.
Qed.

(** A call keeps the group, the cancel flag and the thresholds, keeps a
    Finished status of the Commitment subround, and never turns a done job
    into a job not done. *)
Lemma call_keeps (w : World M) (k : Call) :
  let w' := snd (call canDo gate send w k) in
  consensusGroup (cns w') = consensusGroup (cns w) ∧
  RoundCanceled (cns w') = RoundCanceled (cns w) ∧
  threshold (cns w') = threshold (cns w) ∧
  (Status (cns w) SrCommitment = SsFinished →
   Status (cns w') SrCommitment = SsFinished) ∧
  (RoundCanceled (cns w) = true → status (cns w') = status (cns w)) ∧
  (∀ node s, IsJobDone (cns w) node s = true →
             IsJobDone (cns w') node s = true).
Proof.
  cbv zeta.
  destruct (call_cns w k) as [-> | [[node Hs] | [Hc ->]]].
  - tauto.
  - pose proof (SetJobDone_frame _ _ _ _ _ Hs) as (Hg & _ & _ & Hr & Hst & Ht).
    split; [exact Hg |]. split; [exact Hr |]. split; [exact Ht |].
    split; [unfold Status; rewrite Hst; auto |].
    split; [intros _; exact Hst |].
    intros node' s Hd. rewrite (SetJobDone_IsJobDone _ _ _ _ _ _ _ Hs).
    destruct (decide _); [reflexivity | assumption].
  - split; [reflexivity |]. split; [reflexivity |]. split; [reflexivity |].
    split.
    { intros _. rewrite Status_SetStatus.
      destruct (decide _); [reflexivity | congruence]. }
    split; [congruence |].
    intros node s Hd. exact Hd.
Qed.

Lemma run_snoc (w : World M) (ks : list Call) (k : Call) :
  run canDo gate send w (ks ++ [k])
  = snd (call canDo gate send (run canDo gate send w ks) k).
Proof.
  unfold run. rewrite fold_left_app. reflexivity.
Qed.

Lemma run_keeps (w : World M) (ks : list Call) :
  let w' := run canDo gate send w ks in
  consensusGroup (cns w') = consensusGroup (cns w) ∧
  RoundCanceled (cns w') = RoundCanceled (cns w) ∧
  threshold (cns w') = threshold (cns w) ∧
  (Status (cns w) SrCommitment = SsFinished →
   Status (cns w') SrCommitment = SsFinished) ∧
  (RoundCanceled (cns w) = true → status (cns w') = status (cns w)).
Proof.
  cbv zeta. induction ks as [|k ks IH] using rev_ind.
  - cbn. tauto.
  - rewrite run_snoc.
    destruct IH as (Hg & Hc & Ht & Hs & Hst).
    destruct (call_keeps (run canDo gate send w ks) k)
      as (Hg' & Hc' & Ht' & Hs' & Hst' & _).
    cbv zeta in *. rewrite Hg', Hc', Ht', Hg, Hc, Ht.
    split; [reflexivity |]. split; [reflexivity |]. split; [reflexivity |].
    split; [auto |].
    intros Hx. rewrite Hst' by congruence. auto.
Qed.

End CallFacts.

(* ================================================================== *)
(** ** Theorems: the check over a round *)
(* ================================================================== *)

Section CheckTheorems.
Import Spos Bn Scenario.

Context {M : Type} `{MultiSigner M}.
Variable canDo : ConsensusState → SubroundId → bool.
Variable gate : ConsensusState → Message → Z → SubroundId → bool.
Variable send : Message → bool.

Lemma check_canceled (w : World M) :
  RoundCanceled (cns w) = true → doCommitmentConsensusCheck w = (false, w).
Proof.
  intros Hc. unfold doCommitmentConsensusCheck. rewrite Hc. reflexivity.
Qed.

Lemma check_finished (w : World M) :
  Status (cns w) SrCommitment = SsFinished →
  doCommitmentConsensusCheck w = (negb (RoundCanceled (cns w)), w).
Proof.
  intros Hs. unfold doCommitmentConsensusCheck.
  destruct (RoundCanceled (cns w)); [reflexivity |].
  destruct (decide _); [reflexivity | contradiction].
Qed.

(** C6: when [RoundCanceled] is true the check of the commitment subround
    answers [false] and changes nothing, and this stays so after any
    further calls of the subround in the round: the flag stays set, the
    statuses stay as they were and the check keeps answering [false]. *)
Theorem canceled_round_check (w : World M) :
  RoundCanceled (cns w) = true →
  doCommitmentConsensusCheck w = (false, w) ∧
  ∀ ks : list Call,
    let w' := run canDo gate send w ks in
    RoundCanceled (cns w') = true ∧
    status (cns w') = status (cns w) ∧
    doCommitmentConsensusCheck w' = (false, w').
Proof.
  intros Hc. split; [apply check_canceled, Hc |].
  intros ks w'.
  destruct (run_keeps canDo gate send w ks) as (_ & Hc' & _ & _ & Hst).
  fold w' in Hc', Hst.
  split; [congruence |]. split; [auto |].
  apply check_canceled. congruence.
Qed.

(** C5, a Finished status alone does not make the check answer [true]: with
    the status Finished and the round canceled, the check answers
    [false]. *)
Lemma finished_canceled_counterexample :
  Status (state3 "a" true {[ SrCommitment := SsFinished ]} 2) SrCommitment
    = SsFinished ∧
  fst (doCommitmentConsensusCheck
         (world3 "a" true {[ SrCommitment := SsFinished ]} 2)) = false.
Proof.
  split; vm_compute; reflexivity.
Qed.

(** C5 (amended): once the status of the Commitment subround is Finished it
    stays Finished through all further calls of the subround in the round,
    and every later check answers [true] as long as the round is not
    canceled (in a canceled round it answers [false]); the check changes
    nothing then. *)
Theorem finished_stays_finished (w : World M) :
  Status (cns w) SrCommitment = SsFinished →
  ∀ ks : list Call,
    let w' := run canDo gate send w ks in
    Status (cns w') SrCommitment = SsFinished ∧
    doCommitmentConsensusCheck w' = (negb (RoundCanceled (cns w)), w').
Proof.
  intros Hs ks w'.
  destruct (run_keeps canDo gate send w ks) as (_ & Hc & _ & Hf & _).
  fold w' in Hc, Hf.
  split; [auto |]. rewrite <- Hc. apply check_finished. auto.
Qed.

End CheckTheorems.

Lemma canceled_round_check_witness :
  let w := Scenario.world3 "a" true ∅ 2 in
  let w' := Bn.run Scenario.CanDoSubroundJob
              Scenario.CanProcessReceivedMessage Scenario.sendAlways w
              [Bn.CallReceived Scenario.rounder7 Scenario.msgC;
               Bn.CallCheck] in
  Spos.RoundCanceled (Bn.cns w) = true ∧
  Bn.doCommitmentConsensusCheck w' = (false, w').
Proof.
  cbv zeta. split; [reflexivity |].
  refine (proj2 (proj2 (proj2
    (canceled_round_check Scenario.CanDoSubroundJob
       Scenario.CanProcessReceivedMessage Scenario.sendAlways
       (Scenario.world3 "a" true ∅ 2) _) _))).
  reflexivity.
Defined.

Lemma finished_stays_finished_witness :
  let w := Scenario.world3 "a" false {[ SrCommitment := SsFinished ]} 2 in
  let w' := Bn.run Scenario.CanDoSubroundJob
              Scenario.CanProcessReceivedMessage Scenario.sendAlways w
              [Bn.CallReceived Scenario.rounder7 Scenario.msgC;
               Bn.CallCheck] in
  Spos.Status (Bn.cns w) SrCommitment = SsFinished ∧
  Bn.doCommitmentConsensusCheck w' = (true, w').
Proof.
  cbv zeta. split; [reflexivity |].
  refine (proj2
    (finished_stays_finished Scenario.CanDoSubroundJob
       Scenario.CanProcessReceivedMessage Scenario.sendAlways
       (Scenario.world3 "a" false {[ SrCommitment := SsFinished ]} 2)
       _ _)).
  reflexivity.
Defined.

(* ================================================================== *)
(** ** Theorems: a commitment delivered again *)
(* ================================================================== *)

Section DuplicateTheorems.
Import Spos Bn Scenario.

Context {M : Type} `{MultiSigner M}.
Variable gate : ConsensusState → Message → Z → SubroundId → bool.

Lemma ComputeSize_ext (c c' : ConsensusState) (s : SubroundId) :
  consensusGroup c' = consensusGroup c →
  (∀ node s, IsJobDone c' node s = IsJobDone c node s) →
  ComputeSize c' s = ComputeSize c s.
Proof.
  intros Hg Hj. unfold ComputeSize. rewrite Hg. do 2 f_equal.
  apply list_filter_iff. intros node. rewrite Hj. reflexivity.
Qed.

(** The answer of the check is a function of the cancel flag, the status of
    the subround, its threshold, the group and the answers of
    [IsJobDone]. *)
Lemma check_answer_ext (w w' : World M) :
  RoundCanceled (cns w') = RoundCanceled (cns w) →
  Status (cns w') SrCommitment = Status (cns w) SrCommitment →
  threshold (cns w') = threshold (cns w) →
  consensusGroup (cns w') = consensusGroup (cns w) →
  (∀ node s, IsJobDone (cns w') node s = IsJobDone (cns w) node s) →
  fst (doCommitmentConsensusCheck w') = fst (doCommitmentConsensusCheck w).
Proof.
  intros Hc Hs Ht Hg Hj. unfold doCommitmentConsensusCheck, Threshold.
  rewrite Hc, Hs, Ht.
  rewrite (proj1 (commitmentsCollected_ext _ _ _ Hg Hj)).
  clear Hc Hs Ht Hg Hj.
  destruct (RoundCanceled (cns w)); [reflexivity |].
  destruct (decide _); [reflexivity |].
  destruct (commitmentsCollected _ _); reflexivity.
Qed.

(** A message of a sender whose Commitment job is already done leaves every
    answer of [IsJobDone] as it was, whether the message is let through or
    not. *)
Lemma receivedCommitment_again (rounder : Rounder) (w : World M)
    (cnsDta : Message) :
  let w' := snd (receivedCommitment gate rounder w cnsDta) in
  IsJobDone (cns w) (String.string_of_list_byte (PubKey cnsDta))
    SrCommitment = true →
  consensusGroup (cns w') = consensusGroup (cns w) ∧
  RoundCanceled (cns w') = RoundCanceled (cns w) ∧
  status (cns w') = status (cns w) ∧
  threshold (cns w') = threshold (cns w) ∧
  (∀ node s, IsJobDone (cns w') node s = IsJobDone (cns w) node s).
Proof.
  intros w' Hd. subst w'.
  destruct (receivedCommitment_cns gate rounder w cnsDta) as [-> | Hs].
  - tauto.
  - pose proof (SetJobDone_frame _ _ _ _ _ Hs) as (Hg & _ & _ & Hr & Hst & Ht).
    split; [exact Hg |]. split; [exact Hr |]. split; [exact Hst |].
    split; [exact Ht |].
    intros node s. eapply SetJobDone_again; eassumption.
Qed.

(** C7: a commitment delivered again by a sender whose Commitment job is
    already done does not raise the count [commitmentsCollected] works
    with: the number of members with both jobs done, the size of the
    Commitment subround and the answer of [commitmentsCollected] for every
    threshold are what they were, and a check that answered [true] answers
    [true] again after the delivery. *)
Theorem duplicate_commitment_not_counted (rounder : Rounder) (w : World M)
    (cnsDta : Message) :
  IsJobDone (cns w) (String.string_of_list_byte (PubKey cnsDta))
    SrCommitment = true →
  let w' := snd (receivedCommitment gate rounder w cnsDta) in
  bothDoneCount (cns w') = bothDoneCount (cns w) ∧
  ComputeSize (cns w') SrCommitment = ComputeSize (cns w) SrCommitment ∧
  (∀ threshold,
     commitmentsCollected (cns w') threshold
     = commitmentsCollected (cns w) threshold) ∧
  (fst (doCommitmentConsensusCheck w) = true →
   fst (doCommitmentConsensusCheck w') = true ∧
   fst (doCommitmentConsensusCheck
          (snd (receivedCommitment gate rounder
                  (snd (doCommitmentConsensusCheck w)) cnsDta))) = true).
Proof.
  intros Hd w'.
  destruct (receivedCommitment_again rounder w cnsDta Hd)
    as (Hg & Hc & Hst & Ht & Hj). fold w' in Hg, Hc, Hst, Ht, Hj.
  split; [apply (commitmentsCollected_ext _ _ 0 Hg Hj) |].
  split; [apply ComputeSize_ext; assumption |].
  split; [intros threshold; apply (commitmentsCollected_ext _ _ _ Hg Hj) |].
  intros Hchk.
  assert (fst (doCommitmentConsensusCheck w')
          = fst (doCommitmentConsensusCheck w)) as He.
  { apply check_answer_ext; try assumption. unfold Status. rewrite Hst.
    reflexivity. }
  split; [congruence |].
  (* the world the check left: not canceled, and Finished *)
  set (w1 := snd (doCommitmentConsensusCheck w)).
  assert (RoundCanceled (cns w1) = false ∧
          Status (cns w1) SrCommitment = SsFinished ∧
          consensusGroup (cns w1) = consensusGroup (cns w) ∧
          ∀ node s, IsJobDone (cns w1) node s = IsJobDone (cns w) node s)
    as (Hc1 & Hs1 & Hg1 & Hj1).
  { subst w1. revert Hchk. unfold doCommitmentConsensusCheck.
    destruct (RoundCanceled (cns w)) eqn:Ec; [discriminate |].
    destruct (decide _) as [Hf|Hf]; cbn [fst snd].
    - intros _. rewrite Ec. auto.
    - destruct (commitmentsCollected _ _); [| discriminate].
      intros _. cbn [snd cns set_cns]. rewrite Status_SetStatus.
      destruct (decide _); [| congruence]. auto. }
  assert (IsJobDone (cns w1) (String.string_of_list_byte (PubKey cnsDta))
            SrCommitment = true) as Hd1 by (rewrite Hj1; exact Hd).
  destruct (receivedCommitment_again rounder w1 cnsDta Hd1)
    as (_ & Hc2 & Hst2 & _ & _).
  set (w2 := snd (receivedCommitment gate rounder w1 cnsDta)) in *.
  rewrite check_finished by (unfold Status; rewrite Hst2; exact Hs1).
  cbn [fst]. rewrite Hc2, Hc1. reflexivity.
Qed.

End DuplicateTheorems.

Lemma duplicate_commitment_not_counted_witness :
  let w := Scenario.world3 "b" false ∅ 2 in
  let w' := snd (Bn.receivedCommitment (λ _ _ _ _, true)
                   Scenario.rounder7 w Scenario.msgA) in
  Spos.IsJobDone (Bn.cns w) "a" SrCommitment = true ∧
  Bn.bothDoneCount (Bn.cns w') = 2.
Proof.
  cbv zeta. split; [reflexivity |].
  rewrite (proj1 (duplicate_commitment_not_counted (λ _ _ _ _, true)
                    Scenario.rounder7 (Scenario.world3 "b" false ∅ 2)
                    Scenario.msgA eq_refl)).
  reflexivity.
Defined.

(* ================================================================== *)
(** ** Theorems: the commitment store and the job status *)
(* ================================================================== *)

#[global] Instance TableSigner_store : Bn.MultiSignerStore Scenario.TableSigner.
Proof.
  split. intros m m' i j c. cbn.
  destruct (decide (c = [])); [discriminate |].
  destruct (Scenario.stored m !! i) eqn:E.
  - intros [= <-] _. reflexivity.
  - intros [= <-] Hne. cbn. rewrite lookup_insert_ne by congruence.
    reflexivity.
Qed.

Section StoreTheorems.
Import Spos Bn Scenario.

Context {M : Type} `{MultiSignerStore M}.
Variable canDo : ConsensusState → SubroundId → bool.
Variable gate : ConsensusState → Message → Z → SubroundId → bool.
Variable send : Message → bool.

(** The conversion to [uint16] keeps an index below 65536 and wraps the
    next one to 0. *)
Lemma uint16_small (i : Z) : 0 ≤ i < 2 ^ 16 → uint16 i = i.
Proof.
  intros Hi. unfold uint16. apply Z.mod_small. exact Hi.
Qed.

(** An empty store is within the job status. *)
Lemma storeWithinJobStatus_empty (w : World M) :
  CommitmentStore (multiSigner w) = ∅ → storeWithinJobStatus w.
Proof.
  intros He i c. rewrite He, lookup_empty. discriminate.
Qed.

(** One call keeps the store within the job status. *)
Lemma call_storeWithinJobStatus (w : World M) (k : Call) :
  Z.of_nat (length (consensusGroup (cns w))) ≤ 2 ^ 16 →
  storeWithinJobStatus w →
  storeWithinJobStatus (snd (call canDo gate send w k)).
Proof.
  intros Hlen Hinv.
  destruct (call_keeps canDo gate send w k) as (Hg & _ & _ & _ & _ & Hmono).
  cbv zeta in Hg, Hmono.
  assert (multiSigner (snd (call canDo gate send w k)) = multiSigner w →
          storeWithinJobStatus (snd (call canDo gate send w k))) as Hsame.
  { intros Hm i c Hi. rewrite Hm in Hi.
    destruct (Hinv i c Hi) as (Hpos & node & Hl & Hd).
    split; [exact Hpos |]. exists node. rewrite Hg. auto. }
  destruct k as [rounder | rounder cnsDta |]; cbn [call] in *.
  - apply Hsame.
    destruct (doCommitmentJob_cases canDo send rounder w)
      as [[_ ->] | (_ & _ & commitment & _ & [[_ ->] | (_ & c' & _ & ->)])];
      reflexivity.
  - destruct (receivedCommitment_cases gate rounder w cnsDta)
      as [Hr | (index & m' & c' & Hidx & Hst & Hset & Hr)];
      rewrite Hr in *; cbn [snd cns multiSigner] in *.
    + apply Hsame. reflexivity.
    + clear Hsame. intros i c Hi. cbn [multiSigner cns] in *.
      apply ConsensusGroupIndex_Ok_inv in Hidx as [Hpos Hl].
      pose proof (lookup_lt_Some _ _ _ Hl) as Hlt.
      assert (uint16 index = index) as Hu by (apply uint16_small; lia).
      rewrite Hu in Hst.
      destruct (decide (i = index)) as [->|Hne].
      * split; [exact Hpos |].
        exists (String.string_of_list_byte (PubKey cnsDta)).
        rewrite Hg. split; [exact Hl |].
        rewrite (SetJobDone_IsJobDone _ _ _ _ _ _ _ Hset).
        destruct (decide _) as [|Hn]; [reflexivity | exfalso; apply Hn; auto].
      * rewrite (StoreCommitment_other _ _ _ _ _ Hst Hne) in Hi.
        destruct (Hinv i c Hi) as (Hi0 & node & Hnl & Hd).
        split; [exact Hi0 |]. exists node. rewrite Hg. auto.
  - apply Hsame. unfold doCommitmentConsensusCheck.
    destruct (RoundCanceled (cns w)); [reflexivity |].
    destruct (decide _); [reflexivity |].
    destruct (commitmentsCollected _ _); reflexivity.
Qed.

(** C4 (amended): in a consensus group of at most 65536 members, whose
    indices fit the [uint16] index of the multi-signer, and with a
    multi-signer that stores at the index it is given, an index has an
    entry in the commitment store only if the member of the group at that
    index has its Commitment job done.  This holds of the empty store of a
    round's start, and every call of the commitment subround
    ([doCommitmentJob], [receivedCommitment], [doCommitmentConsensusCheck])
    keeps it, so it holds after any sequence of such calls. *)
Theorem commitment_store_within_job_status (w : World M) :
  Z.of_nat (length (consensusGroup (cns w))) ≤ 2 ^ 16 →
  (CommitmentStore (multiSigner w) = ∅ → storeWithinJobStatus w) ∧
  (storeWithinJobStatus w →
   (∀ k : Call, storeWithinJobStatus (snd (call canDo gate send w k))) ∧
   (∀ ks : list Call, storeWithinJobStatus (run canDo gate send w ks))).
Proof.
  intros Hlen. split; [apply storeWithinJobStatus_empty |].
  intros Hinv. split.
  - intros k. apply call_storeWithinJobStatus; assumption.
  - intros ks. induction ks as [|k ks IH] using rev_ind; [exact Hinv |].
    rewrite run_snoc. apply call_storeWithinJobStatus; [| exact IH].
    destruct (run_keeps canDo gate send w ks) as (Hg & _).
    cbv zeta in Hg. rewrite Hg. exact Hlen.
Qed.

End StoreTheorems.

Lemma name_nonempty (p : positive) : LargeGroup.name p ≠ EmptyString.
Proof. destruct p; discriminate. Qed.

Lemma name_inj (p q : positive) :
  LargeGroup.name p = LargeGroup.name q → p = q.
Proof.
  revert q. induction p as [p IH|p IH|]; intros [q|q|]; cbn;
    intros Heq; try discriminate; try reflexivity.
  - injection Heq as Heq. f_equal. apply IH, Heq.
  - injection Heq as Heq. exfalso. exact (name_nonempty p Heq).
  - injection Heq as Heq. f_equal. apply IH, Heq.
  - injection Heq as Heq. exfalso. exact (name_nonempty q (eq_sym Heq)).
Qed.

Lemma positives_ge (n : nat) (p q : positive) :
  q ∈ LargeGroup.positives n p → (p ≤ q)%positive.
Proof.
  revert p. induction n as [|n IH]; intros p; cbn.
  - intros Hin. inversion Hin.
  - rewrite elem_of_cons. intros [-> | Hin]; [lia |].
    apply IH in Hin. lia.
Qed.

Lemma positives_NoDup (n : nat) (p : positive) :
  NoDup (LargeGroup.positives n p).
Proof.
  revert p. induction n as [|n IH]; intros p; cbn; [constructor |].
  apply NoDup_cons. split; [| apply IH].
  intros Hin. apply positives_ge in Hin. lia.
Qed.

Lemma LargeGroup_NoDup : NoDup LargeGroup.group.
Proof.
  unfold LargeGroup.group. apply NoDup_fmap_2; [| apply positives_NoDup].
  intros p q. apply name_inj.
Qed.

(** C4, beyond the range of [uint16]: in a group of 65537 members without
    duplicates, with an empty store, the commitment of the member at index
    65536 is accepted and stored at index [uint16(65536) = 0]; the member at
    index 0 has no Commitment job done, so the store has an entry for an
    index whose member's job is not done. *)
Lemma large_group_counterexample :
  let w := LargeGroup.world in
  let r := Bn.receivedCommitment Scenario.CanProcessReceivedMessage
             Scenario.rounder7 w LargeGroup.msgLast in
  NoDup (Spos.consensusGroup (Bn.cns w)) ∧
  Bn.storeWithinJobStatus w ∧
  Spos.ConsensusGroupIndex (Bn.cns w)
    (String.string_of_list_byte (PubKey LargeGroup.msgLast)) = Ok 65536 ∧
  uint16 65536 = 0 ∧
  fst r = true ∧
  Bn.CommitmentStore (Bn.multiSigner (snd r)) !! 0 = Some [x0c] ∧
  Spos.consensusGroup (Bn.cns (snd r)) !! Z.to_nat 0
  = Some (LargeGroup.member 0) ∧
  Spos.IsJobDone (Bn.cns (snd r)) (LargeGroup.member 0) SrCommitment = false.
Proof.
  cbv zeta.
  split; [exact LargeGroup_NoDup |].
  split; [apply storeWithinJobStatus_empty; reflexivity |].
  split; [vm_compute; reflexivity |].
  split; [reflexivity |].
  split; [vm_compute; reflexivity |].
  split; [vm_compute; reflexivity |].
  split; vm_compute; reflexivity.
Qed.

Lemma world3_store_within :
  Bn.storeWithinJobStatus (Scenario.world3 "a" false ∅ 2).
Proof.
  intros i c. cbn.
  destruct (decide (i = 0)) as [->|H0].
  { intros _. split; [lia |]. exists "a"%string. split; reflexivity. }
  destruct (decide (i = 1)) as [->|H1].
  { intros _. split; [lia |]. exists "b"%string. split; reflexivity. }
  rewrite lookup_insert_ne by congruence.
  rewrite lookup_singleton_ne by congruence. discriminate.
Qed.

Lemma commitment_store_within_job_status_witness :
  let w := Scenario.world3 "a" false ∅ 2 in
  Z.of_nat (length (Spos.consensusGroup (Bn.cns w))) ≤ 2 ^ 16 ∧
  Bn.storeWithinJobStatus
    (Bn.run Scenario.CanDoSubroundJob Scenario.CanProcessReceivedMessage
       Scenario.sendAlways w
       [Bn.CallReceived Scenario.rounder7 Scenario.msgC; Bn.CallCheck]).
Proof.
  cbv zeta.
  assert (Z.of_nat (length (Spos.consensusGroup
                              (Bn.cns (Scenario.world3 "a" false ∅ 2))))
          ≤ 2 ^ 16) as Hlen by (vm_compute; discriminate).
  split; [exact Hlen |].
  exact (proj2 (proj2 (commitment_store_within_job_status
                         Scenario.CanDoSubroundJob
                         Scenario.CanProcessReceivedMessage
                         Scenario.sendAlways
                         (Scenario.world3 "a" false ∅ 2) Hlen)
                  world3_store_within)
           [Bn.CallReceived Scenario.rounder7 Scenario.msgC; Bn.CallCheck]).
Defined.

(* ================================================================== *)
(** ** Theorems: building the subround *)
(* ================================================================== *)

Section ConstructorTheorems.
Import Spos Bn Scenario.

Context {M : Type} `{MultiSigner M} {Core ExtendFn : Type}.
Variable validate : Core → option Error.
Variable canDo : ConsensusState → SubroundId → bool.

(** C8: [NewSubroundCommitment] returns no object and an error when the
    subround is [nil], when the subround's consensus state is [nil], or
    when the send callback is [nil]; with the three present and a consensus
    core that validates it returns the object, built from the subround and
    the callback, and no error.  It never returns both or neither. *)
Theorem NewSubroundCommitment_spec
    (sr : option (subround M Core ExtendFn))
    (send : option (Message → bool)) (ext : option ExtendFn) :
  let r := NewSubroundCommitment validate canDo sr send ext in
  (sr = None → r = (None, Some ErrNilSubround)) ∧
  (∀ s, sr = Some s → ConsensusStatePtr s = None →
        r = (None, Some ErrNilConsensusState)) ∧
  (∀ s, sr = Some s → is_Some (ConsensusStatePtr s) → send = None →
        r = (None, Some ErrNilSendConsensusMessageFunction)) ∧
  (∀ s f, sr = Some s → is_Some (ConsensusStatePtr s) → send = Some f →
     match validate (ConsensusCoreHandler s) with
     | Some err => r = (None, Some err)
     | None =>
         r = (Some (mkSubroundCommitment
                      (mkSubround (ConsensusStatePtr s)
                         (ConsensusCoreHandler s)
                         (Some (doCommitmentJob canDo f))
                         (Some doCommitmentConsensusCheck)
                         ext)
                      f),
              None)
     end) ∧
  (fst r = None ↔ snd r ≠ None).
Proof.
  intros r. subst r. unfold NewSubroundCommitment.
  split; [intros ->; reflexivity |].
  split.
  { intros s -> Hc. cbn. rewrite Hc. reflexivity. }
  split.
  { intros s -> [c Hc] ->. cbn. rewrite Hc. reflexivity. }
  split.
  { intros s f -> [c Hc] ->. cbn. rewrite Hc.
    destruct (validate _); reflexivity. }
  destruct sr as [s|]; cbn; [| split; [discriminate | reflexivity]].
  destruct (ConsensusStatePtr s); [| split; [discriminate | reflexivity]].
  destruct send as [f|]; [| split; [discriminate | reflexivity]].
  destruct (validate _); cbn; split;
    try discriminate; try reflexivity; try contradiction.
Qed.

End ConstructorTheorems.

(* ================================================================== *)
(** ** Examples: one round, call by call *)
(* ================================================================== *)

Section Examples.
Import Spos Bn Scenario.

(** Two commitments out of a bitmap of three: not collected, even for a
    threshold of two. *)
Example two_of_three_not_collected :
  commitmentsCollected (state3 "a" false ∅ 2) 2 = false.
Proof. reflexivity. Qed.

(** The commitment of "c" arrives: it is stored at index 2, "c" is marked,
    and the check now finishes the subround. *)
Example third_commitment_received :
  let r := receivedCommitment CanProcessReceivedMessage rounder7
             (world3 "a" false ∅ 2) msgC in
  fst r = true ∧
  CommitmentStore (multiSigner (snd r)) !! 2 = Some [x0c] ∧
  JobDone (cns (snd r)) "c" SrCommitment = Ok true ∧
  fst (doCommitmentConsensusCheck (snd r)) = true ∧
  Status (cns (snd (doCommitmentConsensusCheck (snd r)))) SrCommitment
    = SsFinished.
Proof. vm_compute. repeat split; reflexivity. Qed.

(** A message for another block hash is refused. *)
Example other_hash_refused :
  receivedCommitment CanProcessReceivedMessage rounder7
    (world3 "a" false ∅ 2)
    (NewConsensusMessage [x01; x03] [x0c] (String.list_byte_of_string "c")
       [] MtCommitment 1500000000 7)
  = (false, world3 "a" false ∅ 2).
Proof. reflexivity. Qed.

(** The commitment of "a" delivered again is refused by the check of
    received messages. *)
Example duplicate_refused :
  receivedCommitment CanProcessReceivedMessage rounder7
    (world3 "b" false ∅ 2) msgA
  = (false, world3 "b" false ∅ 2).
Proof. reflexivity. Qed.

(** The local node "c" does its job: one message goes out and the job is
    marked. *)
Example job_done :
  let r := doCommitmentJob CanDoSubroundJob sendAlways rounder7
             (world3 "c" false ∅ 2) in
  fst r = true ∧
  sent (snd r)
    = [NewConsensusMessage hash1 [x0c] (String.list_byte_of_string "c") []
         MtCommitment 1500000000 7] ∧
  IsSelfJobDone (cns (snd r)) SrCommitment = true.
Proof. vm_compute. repeat split; reflexivity. Qed.

(** The callback fails: the job answers [false] and the job status is as it
    was. *)
Example job_send_fails :
  let r := doCommitmentJob CanDoSubroundJob sendNever rounder7
             (world3 "c" false ∅ 2) in
  fst r = false ∧ cns (snd r) = state3 "c" false ∅ 2.
Proof. vm_compute. split; reflexivity. Qed.

(** A local node that is not in the bitmap does nothing. *)
Example job_not_in_bitmap :
  let w := mkWorld
             (mkConsensusState group3 "c" ∅ (Some hash1) false ∅ (λ _, 2))
             signer3 [] in
  doCommitmentJob CanDoSubroundJob sendAlways rounder7 w = (false, w).
Proof. reflexivity. Qed.

Example new_nil_subround :
  NewSubroundCommitment (M := TableSigner) (ExtendFn := unit)
    ValidateConsensusCore CanDoSubroundJob None (Some sendAlways) None
  = (None, Some ErrNilSubround).
Proof. reflexivity. Qed.

Example new_nil_state :
  NewSubroundCommitment ValidateConsensusCore CanDoSubroundJob
    (Some (subround_with None core_ok)) (Some sendAlways) None
  = (None, Some ErrNilConsensusState).
Proof. reflexivity. Qed.

Example new_nil_callback :
  NewSubroundCommitment ValidateConsensusCore CanDoSubroundJob
    (Some (subround_with (Some (state3 "c" false ∅ 2)) core_ok)) None None
  = (None, Some ErrNilSendConsensusMessageFunction).
Proof. reflexivity. Qed.

Example new_missing_signer :
  NewSubroundCommitment ValidateConsensusCore CanDoSubroundJob
    (Some (subround_with (Some (state3 "c" false ∅ 2)) core_no_signer))
    (Some sendAlways) None
  = (None, Some (ErrExternal "MultiSigner")).
Proof. reflexivity. Qed.

Example new_ok :
  ∃ obj,
    NewSubroundCommitment ValidateConsensusCore CanDoSubroundJob
      (Some (subround_with (Some (state3 "c" false ∅ 2)) core_ok))
      (Some sendAlways) (Some ())
    = (Some obj, None) ∧
    extend (embedded obj) = Some ().
Proof. eexists. split; reflexivity. Qed.

Example uint16_wraps : uint16 65535 = 65535 ∧ uint16 65536 = 0.
Proof. split; reflexivity. Qed.

Example metachain_ids :
  Core.IsMetaChainShardId [xff; xff] = true ∧
  Core.IsMetaChainShardId [xff; xfe] = false ∧
  Core.IsMetaChainShardId [] = true.
Proof. repeat split. Qed.

End Examples.

(* ================================================================== *)
(** ** Theorems: smart-contract addresses *)
(* ================================================================== *)

Section AddressTheorems.
Import Address.

Variable N V : nat.

Lemma make_take (n k : nat) : (k ≤ n)%nat → take k (make n) = make k.
Proof.
  intros Hk. unfold make. rewrite take_replicate. f_equal. lia.
Qed.

(** When the slice shows fewer bytes than the prefix asks for, a prefix of
    zeros makes the whole slice zeros. *)
Lemma short_prefix_zero (s : Slice) (k : nat) :
  (len s < k)%nat →
  take k (elems s ++ spare s) = make k →
  elems s = make (len s).
Proof.
  unfold len, make. intros Hlt Heq.
  apply (f_equal (take (length (elems s)))) in Heq.
  rewrite take_take, Nat.min_l in Heq by lia.
  rewrite take_app_length in Heq.
  rewrite take_replicate, Nat.min_l in Heq by lia.
  exact Heq.
Qed.

(** X1: an address of zero bytes only, of any length and also the empty
    one, is reported as a smart-contract address; the slice expression is
    not reached, so the call does not panic whatever the two constants
    are. *)
Theorem IsSmartContractAddress_zero (n : nat) (behind : bytes) :
  IsSmartContractAddress N V (mkSlice (make n) behind) = Returns true.
Proof.
  unfold IsSmartContractAddress, len, make. cbn [elems].
  rewrite length_replicate.
  rewrite bool_decide_eq_true_2 by reflexivity. reflexivity.
Qed.

(** X2: for an address that shows at least
    [NumInitCharactersForScAddress - VMTypeLen] bytes the call returns, and
    it returns [true] exactly when those first bytes are all zero; the
    bytes behind the slice play no part. *)
Theorem IsSmartContractAddress_long (s : Slice) :
  (N - V ≤ len s)%nat →
  IsSmartContractAddress N V s
  = Returns (bool_decide (take (N - V) (elems s) = make (N - V))).
Proof.
  intros Hlen. unfold IsSmartContractAddress, slice_to.
  destruct (decide (N - V ≤ cap s)%nat) as [_|Hc]; [| unfold cap, len in *; lia].
  unfold len in Hlen. rewrite take_app_le by exact Hlen.
  destruct (decide (elems s = make (len s))) as [He|He].
  - rewrite (bool_decide_eq_true_2 _ He).
    rewrite bool_decide_eq_true_2; [reflexivity |].
    rewrite He. apply make_take. exact Hlen.
  - rewrite (bool_decide_eq_false_2 _ He).
    destruct (bool_decide (take (N - V) (elems s) = make (N - V)));
      reflexivity.
Qed.

(** X3: an address that is not all zeros and shows fewer than
    [NumInitCharactersForScAddress - VMTypeLen] bytes is never reported as a
    smart-contract address: the call returns [false] when the capacity of
    the slice reaches that length and panics on the slice expression when
    it does not. *)
Theorem IsSmartContractAddress_short (s : Slice) :
  (len s < N - V)%nat →
  elems s ≠ make (len s) →
  IsSmartContractAddress N V s
  = if decide (N - V ≤ cap s)%nat then Returns false else Panics.
Proof.
  intros Hlen Hnz. unfold IsSmartContractAddress, slice_to.
  rewrite bool_decide_eq_false_2 by exact Hnz.
  destruct (decide _); [| reflexivity].
  rewrite bool_decide_eq_false_2; [reflexivity |].
  intros Heq. apply Hnz. eapply short_prefix_zero; eassumption.
Qed.

End AddressTheorems.

Lemma IsSmartContractAddress_long_witness :
  (10 - 2 ≤ Address.len (Address.mkSlice
                           [x00; x00; x00; x00; x00; x00; x00; x00; x05; x01]
                           []))%nat ∧
  Address.IsSmartContractAddress 10 2
    (Address.mkSlice [x00; x00; x00; x00; x00; x00; x00; x00; x05; x01] [])
  = Returns true.
Proof.
  assert (10 - 2 ≤ Address.len (Address.mkSlice
                           [x00; x00; x00; x00; x00; x00; x00; x00; x05; x01]
                           []))%nat as Hlen by (vm_compute; lia).
  split; [exact Hlen |].
  rewrite (IsSmartContractAddress_long 10 2 _ Hlen). reflexivity.
Defined.

Lemma IsSmartContractAddress_short_witness :
  let s := Address.mkSlice [x00; x07] [x00; x00] in
  (Address.len s < 10 - 2)%nat ∧
  Address.elems s ≠ Address.make (Address.len s) ∧
  Address.IsSmartContractAddress 10 2 s = Panics.
Proof.
  cbv zeta.
  assert (Address.len (Address.mkSlice [x00; x07] [x00; x00]) < 10 - 2)%nat
    as Hlen by (vm_compute; lia).
  assert (Address.elems (Address.mkSlice [x00; x07] [x00; x00])
          ≠ Address.make (Address.len (Address.mkSlice [x00; x07] [x00; x00])))
    as Hnz by (vm_compute; discriminate).
  split; [exact Hlen |]. split; [exact Hnz |].
  rewrite (IsSmartContractAddress_short 10 2 _ Hlen Hnz). reflexivity.
Defined.
(* ================================================================== *)
(** ** Theorems: the slice of all peers *)
(* ================================================================== *)

Section PeersTheorems.
Import Heartbeat.

Context {S : Type} `{HeartbeatStorageHandler S}.

Lemma isPeerInSlice_elem_of (peers : list bytes) (pubKey : bytes) :
  isPeerInSlice peers pubKey = true ↔ pubKey ∈ peers.
Proof.
  induction peers as [|peer rest IH]; simpl.
  - split; [discriminate | intros Hin; inversion Hin].
  - rewrite elem_of_cons. destruct (decide (peer = pubKey)) as [->|Hne].
    + rewrite bool_decide_eq_true_2 by reflexivity. tauto.
    + rewrite bool_decide_eq_false_2 by exact Hne. rewrite IH.
      split; [auto |]. intros [Heq | Hin]; [congruence | exact Hin].
Qed.

(** The peers after one call: the old ones, and the new key behind them when
    it was not among them. *)
Lemma addPeerToFullPeersSlice_peers (m : Monitor S) (pubKey : bytes) :
  fullPeersSlice (addPeerToFullPeersSlice m pubKey)
  = if decide (pubKey ∈ fullPeersSlice m) then fullPeersSlice m
    else fullPeersSlice m ++ [pubKey].
Proof.
  unfold addPeerToFullPeersSlice, isPeerInFullPeersSlice.
  destruct (decide _) as [Hin|Hin].
  - apply isPeerInSlice_elem_of in Hin. rewrite Hin. reflexivity.
  - destruct (isPeerInSlice _ _) eqn:E.
    + apply isPeerInSlice_elem_of in E. contradiction.
    + cbn [negb]. destruct (SaveKeys _ _). reflexivity.
Qed.

(** X4: after [addPeerToFullPeersSlice] the key is in the slice of all
    peers, the peers that were there are still there in their places (the
    old slice is a prefix of the new one), and a slice without duplicates
    stays without duplicates; all this whether [SaveKeys] succeeds or
    not. *)
Theorem addPeerToFullPeersSlice_adds (m : Monitor S) (pubKey : bytes) :
  let m' := addPeerToFullPeersSlice m pubKey in
  pubKey ∈ fullPeersSlice m' ∧
  fullPeersSlice m `prefix_of` fullPeersSlice m' ∧
  (∀ peer, peer ∈ fullPeersSlice m' →
           peer ∈ fullPeersSlice m ∨ peer = pubKey) ∧
  (NoDup (fullPeersSlice m) → NoDup (fullPeersSlice m')).
Proof.
  cbv zeta. rewrite addPeerToFullPeersSlice_peers.
  destruct (decide _) as [Hin|Hin].
  - split; [exact Hin |]. split; [reflexivity |]. split; auto.
  - split; [apply elem_of_app; right; apply list_elem_of_singleton; reflexivity |].
    split; [apply prefix_app_r; reflexivity |].
    split.
    + intros peer Hp. apply elem_of_app in Hp as [Hp|Hp]; [auto |].
      apply list_elem_of_singleton in Hp. auto.
    + intros Hnd. apply NoDup_app. split; [exact Hnd |].
      split; [| apply NoDup_singleton].
      intros x Hx Hx'. apply list_elem_of_singleton in Hx'. congruence.
Qed.

(** X5: adding a key that is already in the slice changes nothing: the slice
    is as it was and the storer is not called.  Hence adding the same key
    twice is the same as adding it once. *)
Theorem addPeerToFullPeersSlice_idempotent (m : Monitor S) (pubKey : bytes) :
  (pubKey ∈ fullPeersSlice m → addPeerToFullPeersSlice m pubKey = m) ∧
  addPeerToFullPeersSlice (addPeerToFullPeersSlice m pubKey) pubKey
  = addPeerToFullPeersSlice m pubKey.
Proof.
  assert (∀ m0 : Monitor S, pubKey ∈ fullPeersSlice m0 →
            addPeerToFullPeersSlice m0 pubKey = m0) as Hpresent.
  { intros m0 Hin. unfold addPeerToFullPeersSlice, isPeerInFullPeersSlice.
    apply isPeerInSlice_elem_of in Hin. rewrite Hin. reflexivity. }
  split; [apply Hpresent |].
  apply Hpresent.
  pose proof (addPeerToFullPeersSlice_peers m pubKey) as Hp.
  rewrite Hp. destruct (decide _) as [Hin|_]; [exact Hin |].
  apply elem_of_app. right. apply list_elem_of_singleton. reflexivity.
Qed.

(** Additions one after the other, the keys taken as values: a slice
    without duplicates stays without duplicates and holds exactly the peers
    it had and the keys that were added. *)
Lemma addPeer_values_many (m : Monitor S) (keys : list bytes) :
  let m' := fold_left addPeerToFullPeersSlice keys m in
  (NoDup (fullPeersSlice m) → NoDup (fullPeersSlice m')) ∧
  (∀ peer, peer ∈ fullPeersSlice m' ↔
           peer ∈ fullPeersSlice m ∨ peer ∈ keys).
Proof.
  cbv zeta. revert m. induction keys as [|k keys IH]; intros m.
  - cbn. split; [auto |]. intros peer. split; [auto |].
    intros [Hp|Hp]; [exact Hp | inversion Hp].
  - cbn [fold_left].
    destruct (IH (addPeerToFullPeersSlice m k)) as [Hnd Hmem].
    destruct (addPeerToFullPeersSlice_adds m k) as (Hin & Hpre & Hfrom & Hnd').
    cbv zeta in *.
    split; [auto |].
    intros peer. rewrite Hmem, elem_of_cons. split.
    + intros [Hp|Hp]; [| auto].
      destruct (Hfrom peer Hp) as [Ho| ->]; auto.
    + intros [Hp | [-> | Hp]]; [| auto | auto].
      left. destruct Hpre as [tail ->]. apply elem_of_app. auto.
Qed.

End PeersTheorems.
(* ================================================================== *)
(** ** Theorems: the commitment subround, further *)
(* ================================================================== *)

Section CollectionFurther.
Import Spos Bn Scenario.

(** X7: [commitmentsCollected] compares the count with the threshold after
    the loop only, so commitments collected for a threshold are collected
    for every smaller one. *)
Theorem commitmentsCollected_smaller_threshold (c : ConsensusState)
    (threshold threshold' : Z) :
  threshold' ≤ threshold →
  commitmentsCollected c threshold = true →
  commitmentsCollected c threshold' = true.
Proof.
  intros Hle. rewrite !commitmentsCollected_true_iff.
  intros [Hcov Ht]. split; [exact Hcov | lia].
Qed.

(** X8: when no member of the group has its Bitmap job done (an empty group
    among the cases), the loop counts nothing and [commitmentsCollected]
    answers [true] exactly for a threshold that is not positive. *)
Theorem commitmentsCollected_empty_bitmap (c : ConsensusState)
    (threshold : Z) :
  (∀ node, node ∈ consensusGroup c → IsJobDone c node SrBitmap = false) →
  commitmentsCollected c threshold = bool_decide (threshold ≤ 0).
Proof.
  intros Hnone. rewrite commitmentsCollected_spec.
  assert (∀ l : list string, (∀ node, node ∈ l → node ∈ consensusGroup c) →
            existsb (uncovered c) l = false ∧
            filter (λ node, bothDone c node = true) l = []) as Hl.
  { induction l as [|x l IH]; intros Hsub; [split; reflexivity |].
    destruct IH as [IH1 IH2].
    { intros node Hn. apply Hsub. apply elem_of_cons. auto. }
    assert (IsJobDone c x SrBitmap = false) as Hx
      by (apply Hnone, Hsub, elem_of_cons; auto).
    split.
    - cbn [existsb]. unfold uncovered at 1. rewrite Hx, IH1. reflexivity.
    - rewrite filter_cons.
      assert (bothDone c x = false) as Hb
        by (unfold bothDone; rewrite Hx; reflexivity).
      rewrite Hb. destruct (decide _); [discriminate | exact IH2]. }
  destruct (Hl (consensusGroup c)) as [He Hf]; [auto |].
  unfold bothDoneCount. rewrite He, Hf. cbn [negb andb length].
  destruct (decide (threshold ≤ 0)) as [Ht|Ht].
  - rewrite bool_decide_eq_true_2 by exact Ht. apply Z.leb_le. exact Ht.
  - rewrite bool_decide_eq_false_2 by exact Ht. apply Z.leb_gt. lia.
Qed.

End CollectionFurther.

Lemma commitmentsCollected_smaller_threshold_witness :
  1 ≤ 2 ∧
  Bn.commitmentsCollected
    (Spos.set_jobStatus
       (<["c"%string := Scenario.flags [(SrBitmap, true); (SrCommitment, true)]]>
          Scenario.jobs3)
       (Scenario.state3 "a" false ∅ 2)) 1 = true.
Proof.
  assert (1 ≤ 2) as Hle by lia.
  split; [exact Hle |].
  refine (commitmentsCollected_smaller_threshold _ 2 1 Hle _).
  vm_compute. reflexivity.
Defined.

Lemma commitmentsCollected_empty_bitmap_witness :
  let c := Spos.mkConsensusState Scenario.group3 "a" ∅ (Some Scenario.hash1)
             false ∅ (λ _, 0) in
  (∀ node, node ∈ Spos.consensusGroup c →
           Spos.IsJobDone c node SrBitmap = false) ∧
  Bn.commitmentsCollected c 0 = true.
Proof.
  cbv zeta.
  assert (∀ node,
            node ∈ Spos.consensusGroup
                     (Spos.mkConsensusState Scenario.group3 "a" ∅
                        (Some Scenario.hash1) false ∅ (λ _, 0)) →
            Spos.IsJobDone
              (Spos.mkConsensusState Scenario.group3 "a" ∅
                 (Some Scenario.hash1) false ∅ (λ _, 0)) node SrBitmap
            = false) as Hnone.
  { intros node Hin. rewrite IsJobDone_member by exact Hin.
    unfold Spos.jobFlag. cbn. rewrite lookup_empty. reflexivity. }
  split; [exact Hnone |].
  rewrite (commitmentsCollected_empty_bitmap _ 0 Hnone). reflexivity.
Defined.

Section RoundFurther.
Import Spos Bn Scenario.

Context {M : Type} `{MultiSigner M}.
Variable canDo : ConsensusState → SubroundId → bool.
Variable gate : ConsensusState → Message → Z → SubroundId → bool.
Variable send : Message → bool.

(** X9: the check can be polled: a second call right after a first one
    gives the same answer and leaves the world the first one left. *)
Theorem doCommitmentConsensusCheck_again (w : World M) :
  doCommitmentConsensusCheck (snd (doCommitmentConsensusCheck w))
  = (fst (doCommitmentConsensusCheck w), snd (doCommitmentConsensusCheck w)).
Proof.
  unfold doCommitmentConsensusCheck at 2 3 4.
  destruct (RoundCanceled (cns w)) eqn:Hc.
  { cbn [fst snd]. apply check_canceled. exact Hc. }
  destruct (decide (Status (cns w) SrCommitment = SsFinished)) as [Hf|Hf].
  { cbn [fst snd]. rewrite check_finished by exact Hf. rewrite Hc.
    reflexivity. }
  destruct (commitmentsCollected _ _) eqn:Hcol; cbn [fst snd].
  - rewrite check_finished.
    + cbn [cns set_cns]. unfold SetStatus. cbn. rewrite Hc. reflexivity.
    + cbn [cns set_cns]. rewrite Status_SetStatus.
      destruct (decide _); [reflexivity | congruence].
  - unfold doCommitmentConsensusCheck. rewrite Hc.
    destruct (decide _); [contradiction |].
    unfold Threshold in *. rewrite Hcol. reflexivity.
Qed.

(** What one call never touches. *)
Lemma call_frame (w : World M) (k : Call) :
  let w' := snd (call canDo gate send w k) in
  selfPubKey (cns w') = selfPubKey (cns w) ∧
  Data (cns w') = Data (cns w) ∧
  (∀ s, s ≠ SrCommitment → Status (cns w') s = Status (cns w) s) ∧
  (∀ node s, s ≠ SrCommitment →
             IsJobDone (cns w') node s = IsJobDone (cns w) node s).
Proof.
  cbv zeta.
  destruct (call_cns canDo gate send w k) as [-> | [[node Hs] | [Hc ->]]].
  - tauto.
  - pose proof (SetJobDone_frame _ _ _ _ _ Hs) as (_ & Hself & Hd & _ & Hst & _).
    split; [exact Hself |]. split; [exact Hd |].
    split; [intros s _; unfold Status; rewrite Hst; reflexivity |].
    intros node' s Hne. rewrite (SetJobDone_IsJobDone _ _ _ _ _ _ _ Hs).
    destruct (decide _) as [[_ ?]|_]; [contradiction | reflexivity].
  - split; [reflexivity |]. split; [reflexivity |].
    split.
    + intros s Hne. rewrite Status_SetStatus.
      destruct (decide _); [contradiction | reflexivity].
    + intros node s _. reflexivity.
Qed.

(** X10: whatever calls reach the commitment subround in a round, it leaves
    alone the consensus group, the local identity, the round's data, the
    cancel flag and the thresholds, and it leaves alone the status and the
    job flags of every other subround. *)
Theorem commitment_subround_frame (w : World M) (ks : list Call) :
  let w' := run canDo gate send w ks in
  consensusGroup (cns w') = consensusGroup (cns w) ∧
  selfPubKey (cns w') = selfPubKey (cns w) ∧
  Data (cns w') = Data (cns w) ∧
  RoundCanceled (cns w') = RoundCanceled (cns w) ∧
  threshold (cns w') = threshold (cns w) ∧
  (∀ s, s ≠ SrCommitment → Status (cns w') s = Status (cns w) s) ∧
  (∀ node s, s ≠ SrCommitment →
             IsJobDone (cns w') node s = IsJobDone (cns w) node s).
Proof.
  cbv zeta. destruct (run_keeps canDo gate send w ks) as (Hg & Hc & Ht & _).
  cbv zeta in *.
  split; [exact Hg |].
  enough (selfPubKey (cns (run canDo gate send w ks)) = selfPubKey (cns w) ∧
          Data (cns (run canDo gate send w ks)) = Data (cns w) ∧
          (∀ s, s ≠ SrCommitment →
             Status (cns (run canDo gate send w ks)) s = Status (cns w) s) ∧
          (∀ node s, s ≠ SrCommitment →
             IsJobDone (cns (run canDo gate send w ks)) node s
             = IsJobDone (cns w) node s)) as (H1 & H2 & H3 & H4)
    by tauto.
  clear Hg Hc Ht. induction ks as [|k ks IH] using rev_ind; [cbn; tauto |].
  rewrite run_snoc. destruct IH as (I1 & I2 & I3 & I4).
  destruct (call_frame (run canDo gate send w ks) k) as (F1 & F2 & F3 & F4).
  cbv zeta in *.
  split; [congruence |]. split; [congruence |].
  split.
  - intros s Hne. rewrite F3, I3 by exact Hne. reflexivity.
  - intros node s Hne. rewrite F4, I4 by exact Hne. reflexivity.
Qed.

(** What one call only adds to. *)
Lemma call_grows (w : World M) (k : Call) :
  let r := call canDo gate send w k in
  sent w `prefix_of` sent (snd r) ∧
  (multiSigner (snd r) ≠ multiSigner w →
   ∃ rounder cnsDta, k = CallReceived rounder cnsDta ∧ fst r = true).
Proof.
  destruct k as [rounder | rounder cnsDta |]; cbn [call]; cbv zeta.
  - destruct (doCommitmentJob_cases canDo send rounder w)
      as [[_ ->] | (_ & _ & commitment & _ & [[_ ->] | (_ & c' & _ & ->)])];
      cbn [fst snd sent multiSigner record_sent];
      (split; [first [reflexivity | apply prefix_app_r; reflexivity]
              | contradiction]).
  - destruct (receivedCommitment_cases gate rounder w cnsDta)
      as [-> | (index & m' & c' & _ & _ & _ & ->)];
      cbn [fst snd sent multiSigner].
    + split; [reflexivity | contradiction].
    + split; [reflexivity |]. intros _. eauto.
  - unfold doCommitmentConsensusCheck.
    destruct (RoundCanceled (cns w));
      [cbn; split; [reflexivity | contradiction] |].
    destruct (decide _); [cbn; split; [reflexivity | contradiction] |].
    destruct (commitmentsCollected _ _);
      cbn; (split; [reflexivity | contradiction]).
Qed.

(** X11: over any calls of the round a job once marked done stays done, the
    messages handed to the send callback are only added to, and the
    multi-signer is changed by no call but a [receivedCommitment] that
    answers [true]. *)
Theorem commitment_subround_grows (w : World M) (ks : list Call) :
  let w' := run canDo gate send w ks in
  (∀ node s, IsJobDone (cns w) node s = true →
             IsJobDone (cns w') node s = true) ∧
  sent w `prefix_of` sent w' ∧
  (∀ k, multiSigner (snd (call canDo gate send w' k)) ≠ multiSigner w' →
        ∃ rounder cnsDta,
          k = CallReceived rounder cnsDta ∧
          fst (receivedCommitment gate rounder w' cnsDta) = true).
Proof.
  cbv zeta. split; [| split].
  - induction ks as [|k ks IH] using rev_ind; [auto |].
    intros node s Hd. rewrite run_snoc.
    destruct (call_keeps canDo gate send (run canDo gate send w ks) k)
      as (_ & _ & _ & _ & _ & Hmono).
    apply Hmono, IH, Hd.
  - induction ks as [|k ks IH] using rev_ind; [reflexivity |].
    rewrite run_snoc.
    destruct (call_grows (run canDo gate send w ks) k) as [Hp _].
    etransitivity; eassumption.
  - intros k Hne.
    destruct (call_grows (run canDo gate send w ks) k) as [_ Hm].
    destruct (Hm Hne) as (rounder & cnsDta & -> & Ht).
    exists rounder, cnsDta. split; [reflexivity | exact Ht].
Qed.

End RoundFurther.

Section CountFurther.
Import Spos Bn Scenario.

Context {M : Type} `{MultiSigner M}.
Variable gate : ConsensusState → Message → Z → SubroundId → bool.

Lemma filter_same_length (f g : string → bool) (l : list string) :
  (∀ y, y ∈ l → g y = f y) →
  length (filter (λ y, g y = true) l) = length (filter (λ y, f y = true) l).
Proof.
  induction l as [|y l IH]; intros Hsame; [reflexivity |].
  rewrite !filter_cons, (Hsame y) by (apply elem_of_cons; auto).
  assert (length (filter (λ y, g y = true) l)
          = length (filter (λ y, f y = true) l)) as IH'.
  { apply IH. intros z Hz. apply Hsame. apply elem_of_cons. auto. }
  destruct (decide (f y = true)); cbn [length]; rewrite IH'; reflexivity.
Qed.

(** In a list without duplicates, a flag that turns on at one member and is
    as before at the others counts one more. *)
Lemma filter_one_more (f g : string → bool) (l : list string) (x : string) :
  NoDup l → x ∈ l → f x = false → g x = true →
  (∀ y, y ≠ x → g y = f y) →
  length (filter (λ y, g y = true) l)
  = Datatypes.S (length (filter (λ y, f y = true) l)).
Proof.
  intros Hnd Hin Hf Hg Hother.
  induction l as [|y l IH]; [inversion Hin |].
  apply NoDup_cons in Hnd as [Hy Hnd]. rewrite !filter_cons.
  destruct (decide (y = x)) as [->|Hne].
  - rewrite Hf, Hg.
    destruct (decide (true = true)); [| congruence].
    destruct (decide (false = true)); [discriminate |].
    cbn [length]. f_equal. apply filter_same_length.
    intros z Hz. apply Hother. intros ->. contradiction.
  - apply elem_of_cons in Hin as [Heq|Hin]; [congruence |].
    rewrite (Hother y Hne).
    destruct (decide (f y = true)); cbn [length]; rewrite IH; auto.
Qed.

(** The counts after an accepted commitment of a sender that was not yet
    marked. *)
Lemma accepted_counts (rounder : Rounder) (w w' : World M)
    (cnsDta : Message) :
  let node := String.string_of_list_byte (PubKey cnsDta) in
  NoDup (consensusGroup (cns w)) →
  IsJobDone (cns w) node SrCommitment = false →
  receivedCommitment gate rounder w cnsDta = (true, w') →
  bothDoneCount (cns w') = bothDoneCount (cns w) + 1 ∧
  ComputeSize (cns w') SrCommitment = ComputeSize (cns w) SrCommitment + 1 ∧
  consensusGroup (cns w') = consensusGroup (cns w) ∧
  (∀ node' s, IsJobDone (cns w') node' s
              = if decide (node' = node ∧ s = SrCommitment) then true
                else IsJobDone (cns w) node' s).
Proof.
  intros node Hnd Hnot Hr.
  apply receivedCommitment_true_inv in Hr
    as (Hacc & index & m' & c' & Hidx & _ & Hset & ->).
  fold node in Hidx, Hset. cbn [cns].
  pose proof (SetJobDone_frame _ _ _ _ _ Hset) as (Hg & _).
  pose proof (SetJobDone_Ok_inv _ _ _ _ _ Hset) as [Hin _].
  assert (IsJobDone (cns w) node SrBitmap = true) as Hbit.
  { unfold accepted in Hacc. rewrite !andb_true_iff in Hacc. tauto. }
  assert (∀ node' s, IsJobDone c' node' s
                     = if decide (node' = node ∧ s = SrCommitment) then true
                       else IsJobDone (cns w) node' s) as Hj
    by (intros node' s; eapply SetJobDone_IsJobDone; exact Hset).
  assert (IsJobDone c' node SrCommitment = true) as Hnow.
  { rewrite Hj. destruct (decide _) as [|Hn]; [reflexivity |].
    exfalso. apply Hn. auto. }
  assert (∀ y s, y ≠ node → IsJobDone c' y s = IsJobDone (cns w) y s) as Ho.
  { intros y s Hne. rewrite Hj.
    destruct (decide _) as [[? _]|_]; [contradiction | reflexivity]. }
  assert (IsJobDone c' node SrBitmap = true) as Hbit'.
  { rewrite Hj. destruct (decide _) as [[_ ?]|_]; [discriminate | exact Hbit]. }
  split; [| split; [| split; [exact Hg | exact Hj]]].
  - unfold bothDoneCount. rewrite Hg.
    rewrite (filter_one_more (bothDone (cns w)) (bothDone c') _ node Hnd Hin).
    + lia.
    + unfold bothDone. rewrite Hnot. apply andb_false_r.
    + unfold bothDone. rewrite Hbit', Hnow. reflexivity.
    + intros y Hne. unfold bothDone. rewrite !Ho by exact Hne. reflexivity.
  - unfold ComputeSize. rewrite Hg.
    rewrite (filter_one_more (λ y, IsJobDone (cns w) y SrCommitment)
               (λ y, IsJobDone c' y SrCommitment) _ node Hnd Hin).
    + lia.
    + exact Hnot.
    + exact Hnow.
    + intros y Hne. apply Ho. exact Hne.
Qed.

(** X12: in a group without duplicates, a commitment that is accepted from a
    sender whose Commitment job was not yet done raises by exactly one both
    the number of members with the Bitmap and the Commitment job done and
    the size of the Commitment subround. *)
Theorem accepted_commitment_counts_once (rounder : Rounder) (w w' : World M)
    (cnsDta : Message) :
  NoDup (consensusGroup (cns w)) →
  IsJobDone (cns w) (String.string_of_list_byte (PubKey cnsDta))
    SrCommitment = false →
  receivedCommitment gate rounder w cnsDta = (true, w') →
  bothDoneCount (cns w') = bothDoneCount (cns w) + 1 ∧
  ComputeSize (cns w') SrCommitment = ComputeSize (cns w) SrCommitment + 1.
Proof.
  intros Hnd Hnot Hr.
  destruct (accepted_counts rounder w w' cnsDta Hnd Hnot Hr) as (Hb & Hc & _).
  split; assumption.
Qed.

(** X13: the commitment that was missing finishes the subround.  In a fresh
    subround of a group without duplicates, when every member of the bitmap
    other than the sender has its commitment counted and the threshold is at
    most one more than the count, an accepted commitment of the sender makes
    the next check answer [true] and set the status to Finished. *)
Theorem missing_commitment_finishes (rounder : Rounder) (w w' : World M)
    (cnsDta : Message) :
  let node := String.string_of_list_byte (PubKey cnsDta) in
  fresh (cns w) →
  NoDup (consensusGroup (cns w)) →
  IsJobDone (cns w) node SrCommitment = false →
  (∀ other, other ∈ consensusGroup (cns w) → other ≠ node →
            IsJobDone (cns w) other SrBitmap = true →
            IsJobDone (cns w) other SrCommitment = true) →
  Threshold (cns w) SrCommitment ≤ bothDoneCount (cns w) + 1 →
  receivedCommitment gate rounder w cnsDta = (true, w') →
  doCommitmentConsensusCheck w'
  = (true, set_cns (SetStatus (cns w') SrCommitment SsFinished) w').
Proof.
  intros node [Hc Hs] Hnd Hnot Hothers Hthr Hr.
  destruct (accepted_counts rounder w w' cnsDta Hnd Hnot Hr)
    as (Hb & _ & Hg & Hj). fold node in Hj.
  destruct (receivedCommitment_cns gate rounder w cnsDta) as [He | Hset];
    rewrite Hr in *; cbn [snd] in *.
  { exfalso. rewrite He in Hb. lia. }
  pose proof (SetJobDone_frame _ _ _ _ _ Hset) as (_ & _ & _ & Hc' & Hst & Ht).
  unfold doCommitmentConsensusCheck, Threshold in *.
  rewrite Hc', Hc.
  destruct (decide _) as [Hf|_].
  { exfalso. apply Hs. unfold Status in *. rewrite <- Hst. exact Hf. }
  assert (commitmentsCollected (cns w') (threshold (cns w') SrCommitment)
          = true) as ->; [| reflexivity].
  apply commitmentsCollected_true_iff. split.
  - intros other Hin Hbit. rewrite Hg in Hin. rewrite Hj in *.
    destruct (decide (other = node ∧ SrCommitment = SrCommitment))
      as [|Hn]; [reflexivity |].
    destruct (decide (other = node ∧ SrBitmap = SrCommitment))
      as [[_ ?]|_]; [discriminate |].
    apply Hothers; [exact Hin | | exact Hbit].
    intros ->. apply Hn. auto.
  - rewrite Ht, Hb. exact Hthr.
Qed.

End CountFurther.

Lemma group3_NoDup : NoDup Scenario.group3.
Proof.
  apply (bool_decide_unpack _). vm_compute. exact I.
Qed.

Lemma world3_others_covered (other : string) :
  other ∈ Scenario.group3 → other ≠ "c"%string →
  Spos.IsJobDone (Scenario.state3 "a" false ∅ 2) other SrBitmap = true →
  Spos.IsJobDone (Scenario.state3 "a" false ∅ 2) other SrCommitment = true.
Proof.
  unfold Scenario.group3. rewrite !elem_of_cons.
  intros [-> | [-> | [-> | Hin]]] Hne _;
    [reflexivity | reflexivity | congruence | inversion Hin].
Qed.

Lemma accepted_commitment_counts_once_witness :
  let w := Scenario.world3 "a" false ∅ 2 in
  let r := Bn.receivedCommitment Scenario.CanProcessReceivedMessage
             Scenario.rounder7 w Scenario.msgC in
  fst r = true ∧ Bn.bothDoneCount (Bn.cns (snd r)) = 2 + 1.
Proof.
  cbv zeta. split; [reflexivity |].
  refine (proj1 (accepted_commitment_counts_once
                   Scenario.CanProcessReceivedMessage Scenario.rounder7
                   (Scenario.world3 "a" false ∅ 2) _ Scenario.msgC
                   group3_NoDup _ _)).
  - reflexivity.
  - vm_compute. reflexivity.
Defined.

Lemma missing_commitment_finishes_witness :
  let w := Scenario.world3 "a" false ∅ 3 in
  let w' := snd (Bn.receivedCommitment Scenario.CanProcessReceivedMessage
                   Scenario.rounder7 w Scenario.msgC) in
  Bn.fresh (Bn.cns w) ∧
  fst (Bn.doCommitmentConsensusCheck w) = false ∧
  fst (Bn.doCommitmentConsensusCheck w') = true.
Proof.
  cbv zeta.
  assert (Bn.fresh (Bn.cns (Scenario.world3 "a" false ∅ 3))) as Hf.
  { split; [reflexivity |]. vm_compute. discriminate. }
  split; [exact Hf |]. split; [reflexivity |].
  rewrite (missing_commitment_finishes
             Scenario.CanProcessReceivedMessage Scenario.rounder7
             (Scenario.world3 "a" false ∅ 3) _ Scenario.msgC
             Hf group3_NoDup eq_refl).
  - reflexivity.
  - exact world3_others_covered.
  - vm_compute. discriminate.
  - vm_compute. reflexivity.
Defined.


(* ================================================================== *)
(** ** Theorems: the shard of a public key *)
(* ================================================================== *)

Section ShardOfKeyTheorems.
Import HeartbeatShard.

Lemma keyInSlice_elem_of (pubKeysSlice : list string) (pubkey : string) :
  keyInSlice pubKeysSlice pubkey = true ↔ pubkey ∈ pubKeysSlice.
Proof.
  induction pubKeysSlice as [|pKey rest IH]; simpl.
  - split; [discriminate | intros Hin; inversion Hin].
  - rewrite elem_of_cons. destruct (decide (pKey = pubkey)) as [->|Hne].
    + rewrite bool_decide_eq_true_2 by reflexivity. tauto.
    + rewrite bool_decide_eq_false_2 by exact Hne. rewrite IH.
      split; [auto |]. intros [Heq | Hin]; [congruence | exact Hin].
Qed.

Lemma firstShardOf_Some (entries : list (Z * list string)) (pubkey : string)
    (shardID : Z) :
  firstShardOf entries pubkey = Some shardID →
  ∃ pubKeysSlice, (shardID, pubKeysSlice) ∈ entries ∧ pubkey ∈ pubKeysSlice.
Proof.
  induction entries as [|[s l] rest IH]; simpl; [discriminate |].
  destruct (keyInSlice l pubkey) eqn:E.
  - intros [= <-]. exists l. split; [apply elem_of_cons; auto |].
    apply keyInSlice_elem_of. exact E.
  - intros Hf. destruct (IH Hf) as (l' & Hin & Hk).
    exists l'. split; [apply elem_of_cons; auto | exact Hk].
Qed.

Lemma firstShardOf_None (entries : list (Z * list string)) (pubkey : string) :
  firstShardOf entries pubkey = None ↔
  ∀ shardID pubKeysSlice,
    (shardID, pubKeysSlice) ∈ entries → pubkey ∉ pubKeysSlice.
Proof.
  induction entries as [|[s l] rest IH]; simpl.
  - split; [intros _ ? ? Hin; inversion Hin | reflexivity].
  - destruct (keyInSlice l pubkey) eqn:E.
    + split; [discriminate |]. intros Hall. exfalso.
      apply (Hall s l); [apply elem_of_cons; auto |].
      apply keyInSlice_elem_of. exact E.
    + rewrite IH. split.
      * intros Hall s' l' Hin. apply elem_of_cons in Hin as [[= -> ->]|Hin].
        -- intros Hk. apply keyInSlice_elem_of in Hk. congruence.
        -- eapply Hall. exact Hin.
      * intros Hall s' l' Hin. eapply Hall. apply elem_of_cons. eauto.
Qed.

(** X14: [computeShardID] answers a shard under which the key is listed in
    [pubKeysMap] whenever there is one, in whatever order the map is
    ranged over; when the key is listed under one shard only, the answer is
    that shard.  Only a key listed under no shard gets the shard recorded in
    its heartbeat info, and the call panics when there is no such info. *)
Theorem computeShardID_spec (pubKeysMap : gmap Z (list string))
    (entries : list (Z * list string))
    (heartbeatMessages : gmap string (option heartbeatMessageInfo))
    (pubkey : string) :
  iterationOf pubKeysMap entries →
  let listed shardID :=
    ∃ pubKeysSlice,
      pubKeysMap !! shardID = Some pubKeysSlice ∧ pubkey ∈ pubKeysSlice in
  ((∃ shardID, listed shardID) →
   ∃ shardID,
     computeShardID entries heartbeatMessages pubkey = Returns shardID ∧
     listed shardID) ∧
  (∀ shardID,
     listed shardID → (∀ other, listed other → other = shardID) →
     computeShardID entries heartbeatMessages pubkey = Returns shardID) ∧
  ((∀ shardID, ¬ listed shardID) →
   computeShardID entries heartbeatMessages pubkey
   = match heartbeatMessages !! pubkey with
     | Some (Some hbmi) => Returns (computedShardID hbmi)
     | _ => Panics
     end).
Proof.
  intros Hperm listed.
  assert (∀ s l, (s, l) ∈ entries ↔ pubKeysMap !! s = Some l) as Hent.
  { intros s l. unfold iterationOf in Hperm. rewrite Hperm.
    apply elem_of_map_to_list. }
  assert ((∃ shardID, listed shardID) →
          ∃ shardID, firstShardOf entries pubkey = Some shardID ∧
                     listed shardID) as Hsome.
  { intros (s & l & Hl & Hk).
    destruct (firstShardOf entries pubkey) as [s'|] eqn:E.
    - exists s'. split; [reflexivity |].
      apply firstShardOf_Some in E as (l' & Hin & Hk').
      exists l'. split; [apply Hent, Hin | exact Hk'].
    - exfalso. rewrite firstShardOf_None in E.
      apply (E s l); [apply Hent, Hl | exact Hk]. }
  split; [| split].
  - intros Hex. destruct (Hsome Hex) as (s & Hf & Hl).
    exists s. unfold computeShardID. rewrite Hf. auto.
  - intros s Hl Huniq.
    destruct (Hsome (ex_intro _ s Hl)) as (s' & Hf & Hl').
    unfold computeShardID. rewrite Hf. f_equal. apply Huniq, Hl'.
  - intros Hnone. unfold computeShardID.
    destruct (firstShardOf entries pubkey) as [s|] eqn:E; [| reflexivity].
    exfalso. apply firstShardOf_Some in E as (l & Hin & Hk).
    apply (Hnone s). exists l. split; [apply Hent, Hin | exact Hk].
Qed.

End ShardOfKeyTheorems.

Lemma computeShardID_spec_witness :
  let pubKeysMap : gmap Z (list string) :=
    {[ 0 := ["k0"%string; "k1"%string]; 1 := ["k2"%string] ]} in
  let entries := [(1, ["k2"%string]); (0, ["k0"%string; "k1"%string])] in
  HeartbeatShard.iterationOf pubKeysMap entries ∧
  HeartbeatShard.computeShardID entries ∅ "k1" = Returns 0.
Proof.
  cbv zeta.
  assert (HeartbeatShard.iterationOf
            ({[ 0 := ["k0"%string; "k1"%string]; 1 := ["k2"%string] ]}
               : gmap Z (list string))
            [(1, ["k2"%string]); (0, ["k0"%string; "k1"%string])]) as Hperm.
  { unfold HeartbeatShard.iterationOf.
    rewrite map_to_list_insert by (vm_compute; reflexivity).
    rewrite map_to_list_singleton. apply Permutation_swap. }
  split; [exact Hperm |].
  refine (proj1 (proj2 (computeShardID_spec _ _ ∅ "k1" Hperm)) 0 _ _).
  - exists ["k0"%string; "k1"%string]. split; [reflexivity |].
    apply elem_of_cons. right. apply elem_of_cons. left. reflexivity.
  - intros other (l & Hl & Hk).
    destruct (decide (other = 0)) as [->|H0]; [reflexivity |].
    rewrite lookup_insert_ne in Hl by congruence.
    destruct (decide (other = 1)) as [->|H1].
    + rewrite lookup_singleton_eq in Hl. injection Hl as <-.
      apply list_elem_of_singleton in Hk. discriminate.
    + rewrite lookup_singleton_ne in Hl by congruence. discriminate.
Defined.


(* ================================================================== *)
(** ** Theorems: the factory of the interceptors *)
(* ================================================================== *)

Section FactoryTheorems.
Import Shard.

Context {Accounts Coordinator Messenger Store Marshalizer Hasher KeyGen
           SingleSigner MultiSigVerifier DataPool AddrConverter
           NodesCoordinator Throttler FeeHandler : Type}.
Variable newThrottler : Z → res Throttler.

Lemma present_not_nil {A : Type} (x : iface A) :
  isNilOrInterfaceNil x = false ↔ present x.
Proof.
  destruct x; simpl; split; try discriminate; try (intros [a Ha]; discriminate).
  - intros _. eexists. reflexivity.
  - reflexivity.
Qed.

(** X15: [NewInterceptorsContainerFactory] returns a factory and no error
    exactly when the twelve collaborators it tests with [IsInterfaceNil] hold
    an implementation, the messenger is not the [nil] interface (a
    messenger holding a [nil] pointer passes), and the throttler could be
    made; in every other case it returns no factory and an error. *)
Theorem NewInterceptorsContainerFactory_spec
    (accounts : iface Accounts) (shardCoordinator : iface Coordinator)
    (nodesCoordinator : iface NodesCoordinator)
    (messenger : iface Messenger) (store : iface Store)
    (marshalizer : iface Marshalizer) (hasher : iface Hasher)
    (keyGen : iface KeyGen) (singleSigner : iface SingleSigner)
    (multiSigner : iface MultiSigVerifier) (dataPool : iface DataPool)
    (addrConverter : iface AddrConverter) (maxTxNonceDeltaAllowed : Z)
    (txFeeHandler : iface FeeHandler) :
  let r := NewInterceptorsContainerFactory newThrottler accounts
             shardCoordinator nodesCoordinator messenger store marshalizer
             hasher keyGen singleSigner multiSigner dataPool addrConverter
             maxTxNonceDeltaAllowed txFeeHandler in
  ((∃ icf, r = (Some icf, None)) ↔
   present accounts ∧ present shardCoordinator ∧ messenger ≠ NilInterface ∧
   present store ∧ present marshalizer ∧ present hasher ∧ present keyGen ∧
   present singleSigner ∧ present multiSigner ∧ present dataPool ∧
   present addrConverter ∧ present nodesCoordinator ∧ present txFeeHandler ∧
   ∃ t, newThrottler maxGoRoutineTxInterceptor = Done t) ∧
  ((∃ icf, r = (Some icf, None)) ∨ (∃ err, r = (None, Some err))).
Proof.
  cbv zeta. unfold NewInterceptorsContainerFactory.
  rewrite <- !present_not_nil.
  destruct (isNilOrInterfaceNil accounts);
    [split; [split; [intros [? [=]] | intros (? & _); discriminate] | eauto] |].
  destruct (isNilOrInterfaceNil shardCoordinator);
    [split; [split; [intros [? [=]] | intros (_ & ? & _); discriminate]
            | eauto] |].
  destruct messenger as [| |msg]; cbn [isNil];
    [split; [split; [intros [? [=]] | intros (_ & _ & ? & _); congruence]
            | eauto] | |].
  all: destruct (isNilOrInterfaceNil store);
    [split; [split; [intros [? [=]] | intros (_ & _ & _ & ? & _); discriminate]
            | eauto] |].
  all: destruct (isNilOrInterfaceNil marshalizer);
    [split; [split; [intros [? [=]]
                    | intros (_ & _ & _ & _ & ? & _); discriminate]
            | eauto] |].
  all: destruct (isNilOrInterfaceNil hasher);
    [split; [split; [intros [? [=]]
                    | intros (_ & _ & _ & _ & _ & ? & _); discriminate]
            | eauto] |].
  all: destruct (isNilOrInterfaceNil keyGen);
    [split; [split; [intros [? [=]]
                    | intros (_ & _ & _ & _ & _ & _ & ? & _); discriminate]
            | eauto] |].
  all: destruct (isNilOrInterfaceNil singleSigner);
    [split; [split; [intros [? [=]]
                    | intros (_ & _ & _ & _ & _ & _ & _ & ? & _);
                      discriminate]
            | eauto] |].
  all: destruct (isNilOrInterfaceNil multiSigner);
    [split; [split; [intros [? [=]]
                    | intros (_ & _ & _ & _ & _ & _ & _ & _ & ? & _);
                      discriminate]
            | eauto] |].
  all: destruct (isNilOrInterfaceNil dataPool);
    [split; [split; [intros [? [=]]
                    | intros (_ & _ & _ & _ & _ & _ & _ & _ & _ & ? & _);
                      discriminate]
            | eauto] |].
  all: destruct (isNilOrInterfaceNil addrConverter);
    [split; [split; [intros [? [=]]
                    | intros (_ & _ & _ & _ & _ & _ & _ & _ & _ & _ & ? & _);
                      discriminate]
            | eauto] |].
  all: destruct (isNilOrInterfaceNil nodesCoordinator);
    [split; [split; [intros [? [=]]
                    | intros (_ & _ & _ & _ & _ & _ & _ & _ & _ & _ & _ & ?
                              & _); discriminate]
            | eauto] |].
  all: destruct (isNilOrInterfaceNil txFeeHandler);
    [split; [split; [intros [? [=]]
                    | intros (_ & _ & _ & _ & _ & _ & _ & _ & _ & _ & _ & _
                              & ? & _); discriminate]
            | eauto] |].
  all: destruct (newThrottler maxGoRoutineTxInterceptor) as [t|err] eqn:Et.
  all: split; [split | eauto].
  all: try (intros [? [=]]; fail).
  all: try (intros _; repeat split; try reflexivity; try discriminate; eauto; fail).
  all: try (intros (_ & _ & _ & _ & _ & _ & _ & _ & _ & _ & _ & _ & _ & t' & ?);
            discriminate).
  all: intros _; eauto.
Qed.

End FactoryTheorems.

(* ================================================================== *)
(** ** Theorems: the generators of the interceptors *)
(* ================================================================== *)

Section GeneratorTheorems.
Import Shard.

Context {Accounts Coordinator Messenger Store Marshalizer Hasher KeyGen
           SingleSigner MultiSigVerifier DataPool AddrConverter NodesCoordinator
           Throttler FeeHandler ShardedCache Cache NoncesCache Storer TxValidator
           HdrValidator Interceptor T C : Type}.
Context `{!TopicHandler T Interceptor} `{!InterceptorsContainer C Interceptor}.
Context `{!Collaborators Accounts Coordinator Messenger Store Marshalizer
            Hasher KeyGen SingleSigner MultiSigVerifier DataPool
            AddrConverter NodesCoordinator Throttler FeeHandler ShardedCache
            Cache NoncesCache Storer TxValidator HdrValidator Interceptor}.

Local Abbreviation factory :=
  (interceptorsContainerFactory (λ A : Type, A) Accounts Coordinator
     Messenger Store Marshalizer Hasher KeyGen SingleSigner MultiSigVerifier
     DataPool AddrConverter NodesCoordinator Throttler FeeHandler).

Local Abbreviation created := (@Shard.created Interceptor T).

Lemma createTopicAndAssignHandler_answers (topic : string)
    (interceptor : Interceptor) (createChannel : bool) (m m' : T)
    (x : option Interceptor) :
  createTopicAndAssignHandler topic interceptor createChannel m
  = (m', (x, None)) →
  x = Some interceptor.
Proof.
  unfold createTopicAndAssignHandler.
  destruct (CreateTopic m topic createChannel) as [m1 [e|]];
    [discriminate |].
  destruct (RegisterMessageProcessor m1 topic interceptor) as [m2 e].
  intros [= _ <- _]. reflexivity.
Qed.

Lemma createOneTxInterceptor_answers (icf : factory) :
  answersInterceptor (createOneTxInterceptor icf).
Proof.
  intros identifier m m' x. unfold createOneTxInterceptor.
  destruct (NewTxValidator _ _ _); [| discriminate].
  destruct (NewTxInterceptor _ _ _ _ _ _ _ _ _ _); [| discriminate].
  intros Hc. apply createTopicAndAssignHandler_answers in Hc. subst. eauto.
Qed.

Lemma createOneRewardTxInterceptor_answers (icf : factory) :
  answersInterceptor (createOneRewardTxInterceptor icf).
Proof.
  intros identifier m m' x. unfold createOneRewardTxInterceptor.
  destruct (NewRewardTxInterceptor _ _ _ _ _ _); [| discriminate].
  intros Hc. apply createTopicAndAssignHandler_answers in Hc. subst. eauto.
Qed.

Lemma createOneUnsignedTxInterceptor_answers (icf : factory) :
  answersInterceptor (createOneUnsignedTxInterceptor icf).
Proof.
  intros identifier m m' x. unfold createOneUnsignedTxInterceptor.
  destruct (NewUnsignedTxInterceptor _ _ _ _ _ _); [| discriminate].
  intros Hc. apply createTopicAndAssignHandler_answers in Hc. subst. eauto.
Qed.

Lemma createOneMiniBlocksInterceptor_answers (icf : factory) :
  answersInterceptor (createOneMiniBlocksInterceptor icf).
Proof.
  intros identifier m m' x. unfold createOneMiniBlocksInterceptor.
  destruct (NewTxBlockBodyInterceptor _ _ _ _ _); [| discriminate].
  intros Hc. apply createTopicAndAssignHandler_answers in Hc. subst. eauto.
Qed.

Lemma assign_Returns {A : Type} (s s' : list A) (i : nat) (v : A) :
  assign s (Z.of_nat i) v = Returns s' →
  (i < length s)%nat ∧ s' = <[i := v]> s.
Proof.
  unfold assign. destruct (decide _) as [Hi|]; [| discriminate].
  intros [= <-]. rewrite Nat2Z.id. split; [lia | reflexivity].
Qed.

Lemma assign_in_range {A : Type} (s : list A) (i : nat) (v : A) :
  (i < length s)%nat → assign s (Z.of_nat i) v = Returns (<[i := v]> s).
Proof.
  intros Hi. unfold assign. destruct (decide _) as [|Hn]; [| lia].
  rewrite Nat2Z.id. reflexivity.
Qed.

(** The loop fills the entries from [i] on, one per shard, and leaves the
    other entries alone. *)
Lemma shardLoop_Done (createOne : string → T → created) (topic : string)
    (shardC : Coordinator) (r i : nat) (m m' : T)
    (keys keys' : list string) (slice slice' : list (option Interceptor)) :
  answersInterceptor createOne →
  shardLoop createOne topic shardC r (Z.of_nat i) m keys slice
  = Returns (m', Done (keys', slice')) →
  length keys' = length keys ∧ length slice' = length slice ∧
  (∀ j, (i ≤ j < i + r)%nat →
        keys' !! j
        = Some (topic +:+ CommunicationIdentifier shardC (Z.of_nat j))%string ∧
        ∃ x, slice' !! j = Some (Some x)) ∧
  (∀ j, ¬ (i ≤ j < i + r)%nat →
        keys' !! j = keys !! j ∧ slice' !! j = slice !! j).
Proof.
  intros Hok. revert i m keys slice.
  induction r as [|r IH]; intros i m keys slice; cbn [shardLoop].
  - intros [= <- <- <-]. split; [reflexivity |]. split; [reflexivity |].
    split; [intros j Hj; lia | intros j _; auto].
  - destruct (createOne _ m) as [m1 [x [e|]]] eqn:Hc; [discriminate |].
    destruct (assign keys _ _) as [keys1|] eqn:Hk; [| discriminate].
    destruct (assign slice _ _) as [slice1|] eqn:Hs; [| discriminate].
    apply assign_Returns in Hk as [Hik ->].
    apply assign_Returns in Hs as [His ->].
    replace (Z.of_nat i + 1) with (Z.of_nat (Datatypes.S i)) by lia.
    intros Hl. apply IH in Hl as (Hlk & Hls & Hin & Hout).
    rewrite ?length_insert in Hlk. rewrite ?length_insert in Hls.
    destruct (Hok _ _ _ _ Hc) as [xi ->].
    split; [exact Hlk |]. split; [exact Hls |]. split.
    + intros j Hj. destruct (decide (j = i)) as [->|Hne].
      * destruct (Hout i) as [Hki Hsi]; [lia |].
        rewrite Hki, Hsi, !list_lookup_insert_eq by assumption. eauto.
      * apply Hin. lia.
    + intros j Hj. destruct (Hout j) as [Hkj Hsj]; [lia |].
      rewrite Hkj, Hsj, !list_lookup_insert_ne by lia. auto.
Qed.

(** With room for every shard the loop does not panic. *)
Lemma shardLoop_no_panic (createOne : string → T → created) (topic : string)
    (shardC : Coordinator) (r i : nat) (m : T)
    (keys : list string) (slice : list (option Interceptor)) :
  (i + r ≤ length keys)%nat → (i + r ≤ length slice)%nat →
  shardLoop createOne topic shardC r (Z.of_nat i) m keys slice ≠ Panics.
Proof.
  revert i m keys slice.
  induction r as [|r IH]; intros i m keys slice Hk Hs; cbn [shardLoop];
    [discriminate |].
  destruct (createOne _ m) as [m1 [x [e|]]]; [discriminate |].
  rewrite !assign_in_range by lia.
  replace (Z.of_nat i + 1) with (Z.of_nat (Datatypes.S i)) by lia.
  apply IH; rewrite length_insert; lia.
Qed.

(** A list whose entries are the shards' keys in turn. *)
Lemma keys_of_lookups (topic : string) (shardC : Coordinator) (n : nat)
    (keys : list string) :
  length keys = n →
  (∀ j, (j < n)%nat →
        keys !! j
        = Some (topic +:+ CommunicationIdentifier shardC (Z.of_nat j))%string) →
  keys = map (λ i : nat,
                (topic +:+ CommunicationIdentifier shardC (Z.of_nat i))%string)
             (seq 0 n).
Proof.
  intros Hlen Hj. apply list_eq. intros j.
  rewrite list_lookup_fmap.
  destruct (decide (j < n)%nat) as [Hlt|Hge].
  - rewrite Hj by exact Hlt. rewrite lookup_seq_lt by exact Hlt. reflexivity.
  - rewrite lookup_ge_None_2 by lia.
    rewrite lookup_seq_ge by lia. reflexivity.
Qed.

Lemma all_Some_of_lookups (n : nat) (slice : list (option Interceptor)) :
  length slice = n →
  (∀ j, (j < n)%nat → ∃ x, slice !! j = Some (Some x)) →
  Forall (λ i, is_Some i) slice.
Proof.
  intros Hlen Hj. apply Forall_lookup. intros j x Hx.
  pose proof (lookup_lt_Some _ _ _ Hx) as Hlt.
  destruct (Hj j) as [y Hy]; [lia |]. rewrite Hy in Hx.
  injection Hx as <-. eauto.
Qed.

(** The three generators that append the entry of the metachain. *)
Lemma generateAppending_shape (createOne : string → T → created)
    (topic : string) (icf : factory) (m : T) :
  answersInterceptor createOne →
  0 ≤ NumberOfShards (shardCoordinator icf) →
  generateAppending createOne topic icf m ≠ Panics ∧
  ∀ m' keys slice,
    generateAppending createOne topic icf m = Returns (m', Done (keys, slice)) →
    keys = shardKeys topic (shardCoordinator icf) ∧ wellMade keys slice.
Proof.
  intros Hok Hn. unfold generateAppending. cbv zeta.
  set (shardC := shardCoordinator icf) in *.
  set (n := Z.to_nat (NumberOfShards shardC)).
  pose proof (shardLoop_no_panic createOne topic shardC n 0 m
                (replicate n ""%string) (replicate n None)) as Hnp.
  rewrite !length_replicate in Hnp. specialize (Hnp ltac:(lia) ltac:(lia)).
  change 0 with (Z.of_nat 0).
  destruct (shardLoop _ _ _ _ _ _ _ _) as [[m1 [[keys1 slice1]|e]]|] eqn:Hl;
    [| split; [discriminate | intros ? ? ? [=]] | contradiction].
  apply shardLoop_Done in Hl as (Hlk & Hls & Hin & _); [| exact Hok].
  rewrite length_replicate in Hlk. rewrite length_replicate in Hls.
  destruct (createOne _ m1) as [m2 [x [e|]]] eqn:Hc;
    [split; [discriminate | intros ? ? ? [=]] |].
  split; [discriminate |].
  intros m' keys slice [= <- <- <-].
  destruct (Hok _ _ _ _ Hc) as [xi ->].
  split.
  - unfold shardKeys. fold shardC. fold n. f_equal.
    apply keys_of_lookups; [exact Hlk |].
    intros j Hj. apply Hin. lia.
  - split.
    + rewrite !length_app. cbn. lia.
    + apply Forall_app. split; [| repeat constructor; eauto].
      apply (all_Some_of_lookups n); [exact Hls |].
      intros j Hj. apply Hin. lia.
Qed.

(** X16: for a number of shards that is not negative, [generateTxInterceptors],
    [generateRewardTxInterceptors] and [generateUnsignedTxsInterceptors] do
    not panic, and when they return no error they return, for their topic,
    the key of every shard in turn followed by the key of the metachain,
    with as many interceptors as keys and none of them [nil]. *)
Theorem generators_over_shards (icf : factory) (m : T) :
  0 ≤ NumberOfShards (shardCoordinator icf) →
  let shardC := shardCoordinator icf in
  (generateTxInterceptors icf m ≠ Panics ∧
   ∀ m' keys slice,
     generateTxInterceptors icf m = Returns (m', Done (keys, slice)) →
     keys = shardKeys TransactionTopic shardC ∧ wellMade keys slice) ∧
  (generateRewardTxInterceptors icf m ≠ Panics ∧
   ∀ m' keys slice,
     generateRewardTxInterceptors icf m = Returns (m', Done (keys, slice)) →
     keys = shardKeys RewardsTransactionTopic shardC ∧ wellMade keys slice) ∧
  (generateUnsignedTxsInterceptors icf m ≠ Panics ∧
   ∀ m' keys slice,
     generateUnsignedTxsInterceptors icf m
     = Returns (m', Done (keys, slice)) →
     keys = shardKeys UnsignedTransactionTopic shardC ∧ wellMade keys slice).
Proof.
  intros Hn shardC.
  split; [| split].
  - apply generateAppending_shape;
      [apply createOneTxInterceptor_answers | exact Hn].
  - apply generateAppending_shape;
      [apply createOneRewardTxInterceptor_answers | exact Hn].
  - apply generateAppending_shape;
      [apply createOneUnsignedTxInterceptor_answers | exact Hn].
Qed.

Lemma generateMiniBlocksInterceptors_shape (icf : factory) :
  0 ≤ NumberOfShards (shardCoordinator icf) →
  NumberOfShards (shardCoordinator icf) + 1 < 2 ^ 32 →
  returnsKeys generateMiniBlocksInterceptors icf
    (shardKeys MiniBlocksTopic (shardCoordinator icf)).
Proof.
  intros Hn Hmax m. unfold generateMiniBlocksInterceptors. cbv zeta.
  set (shardC := shardCoordinator icf) in *.
  assert (uint32 (NumberOfShards shardC + 1) = NumberOfShards shardC + 1)
    as -> by (unfold uint32; apply Z.mod_small; lia).
  set (n := Z.to_nat (NumberOfShards shardC)).
  assert (Z.to_nat (NumberOfShards shardC + 1) = Datatypes.S n) as -> by lia.
  assert (NumberOfShards shardC = Z.of_nat n) as Hnz by lia.
  pose proof (shardLoop_no_panic (createOneMiniBlocksInterceptor icf)
                MiniBlocksTopic shardC n 0 m
                (replicate (Datatypes.S n) ""%string)
                (replicate (Datatypes.S n) None)) as Hnp.
  rewrite !length_replicate in Hnp. specialize (Hnp ltac:(lia) ltac:(lia)).
  change 0 with (Z.of_nat 0).
  destruct (shardLoop _ _ _ _ _ _ _ _) as [[m1 [[keys1 slice1]|e]]|] eqn:Hl;
    [| split; [discriminate | intros ? ? ? [=]] | contradiction].
  apply shardLoop_Done in Hl as (Hlk & Hls & Hin & _);
    [| apply createOneMiniBlocksInterceptor_answers].
  rewrite length_replicate in Hlk. rewrite length_replicate in Hls.
  destruct (createOneMiniBlocksInterceptor icf _ m1) as [m2 [x [e|]]] eqn:Hc;
    [split; [discriminate | intros ? ? ? [=]] |].
  rewrite Hnz, !assign_in_range by lia.
  split; [discriminate |].
  intros m' keys slice [= <- <- <-].
  destruct (createOneMiniBlocksInterceptor_answers icf _ _ _ _ Hc) as [xi ->].
  split.
  - unfold shardKeys. fold shardC. fold n.
    apply list_eq. intros j.
    destruct (decide (j < n)%nat) as [Hlt|Hge].
    + rewrite list_lookup_insert_ne by lia.
      rewrite lookup_app_l by (rewrite length_map, length_seq; exact Hlt).
      rewrite list_lookup_fmap, lookup_seq_lt by exact Hlt.
      apply Hin. lia.
    + destruct (decide (j = n)) as [->|Hne].
      * rewrite list_lookup_insert_eq by lia.
        rewrite lookup_app_r by (rewrite length_map, length_seq; lia).
        rewrite length_map, length_seq, Nat.sub_diag. reflexivity.
      * rewrite list_lookup_insert_ne by lia.
        rewrite lookup_ge_None_2 by lia.
        rewrite lookup_ge_None_2; [reflexivity |].
        rewrite length_app, length_map, length_seq. cbn. lia.
  - split.
    + rewrite !length_insert. lia.
    + apply (all_Some_of_lookups (Datatypes.S n));
        [rewrite length_insert; exact Hls |].
      intros j Hj. destruct (decide (j = n)) as [->|Hne].
      * rewrite list_lookup_insert_eq by lia. eauto.
      * rewrite list_lookup_insert_ne by lia. apply Hin. lia.
Qed.

(** X17: for a number of shards [n] with [0 <= n] and [n + 1] in the range
    of [uint32], [generateMiniBlocksInterceptors], which sizes its slices
    [n + 1] and assigns the entry of the metachain at index [n], does not
    panic and returns on success the same keys as the generators that
    append: the key of every shard in turn and then the key of the
    metachain, each with an interceptor that is not [nil]. *)
Theorem generateMiniBlocksInterceptors_keys (icf : factory) (m : T) :
  0 ≤ NumberOfShards (shardCoordinator icf) →
  NumberOfShards (shardCoordinator icf) + 1 < 2 ^ 32 →
  generateMiniBlocksInterceptors icf m ≠ Panics ∧
  ∀ m' keys slice,
    generateMiniBlocksInterceptors icf m = Returns (m', Done (keys, slice)) →
    keys = shardKeys MiniBlocksTopic (shardCoordinator icf) ∧
    wellMade keys slice.
Proof.
  intros Hn Hmax.
  apply (generateMiniBlocksInterceptors_shape icf Hn Hmax m).
Qed.

Lemma single_wellMade (key : string) (interceptor : Interceptor) :
  wellMade [key] [Some interceptor].
Proof.
  split; [reflexivity |]. repeat constructor. eauto.
Qed.

Lemma generateHdrInterceptor_shape (icf : factory) :
  returnsKeys generateHdrInterceptor icf
    [(HeadersTopic
      +:+ CommunicationIdentifier (shardCoordinator icf)
            (SelfId (shardCoordinator icf)))%string].
Proof.
  intros m. unfold generateHdrInterceptor. cbv zeta.
  destruct NewNilHeaderValidator;
    [| split; [discriminate | intros ? ? ? [=]]].
  destruct (NewHeaderInterceptor _ _ _ _ _ _ _ _);
    [| split; [discriminate | intros ? ? ? [=]]].
  destruct (createTopicAndAssignHandler _ _ _ _) as [m1 [x [e|]]];
    (split; [discriminate |]); intros ? ? ? [=]; subst.
  split; [reflexivity | apply single_wellMade].
Qed.

Lemma generatePeerChBlockBodyInterceptor_shape (icf : factory) :
  returnsKeys generatePeerChBlockBodyInterceptor icf
    [(PeerChBodyTopic
      +:+ CommunicationIdentifier (shardCoordinator icf)
            (SelfId (shardCoordinator icf)))%string].
Proof.
  intros m. unfold generatePeerChBlockBodyInterceptor. cbv zeta.
  destruct (NewPeerBlockBodyInterceptor _ _ _ _ _);
    [| split; [discriminate | intros ? ? ? [=]]].
  destruct (createTopicAndAssignHandler _ _ _ _) as [m1 [x [e|]]];
    (split; [discriminate |]); intros ? ? ? [=]; subst.
  split; [reflexivity | apply single_wellMade].
Qed.

Lemma generateMetachainHeaderInterceptor_shape (icf : factory) :
  returnsKeys generateMetachainHeaderInterceptor icf [MetachainBlocksTopic].
Proof.
  intros m. unfold generateMetachainHeaderInterceptor. cbv zeta.
  destruct NewNilHeaderValidator;
    [| split; [discriminate | intros ? ? ? [=]]].
  destruct (NewMetachainHeaderInterceptor _ _ _ _ _ _ _ _);
    [| split; [discriminate | intros ? ? ? [=]]].
  destruct (createTopicAndAssignHandler _ _ _ _) as [m1 [x [e|]]];
    (split; [discriminate |]); intros ? ? ? [=]; subst.
  split; [reflexivity | apply single_wellMade].
Qed.

(** Generators of known shapes, run one after the other into a container. *)
Lemma createFrom_shape (icf : factory)
    (gens : list (factory → T → @generated Interceptor T))
    (expected : list (list string)) :
  Forall2 (λ gen keys, returnsKeys gen icf keys) gens expected →
  ∀ (m : T) (c : C),
    createFrom gens icf m c ≠ Panics ∧
    ∀ m' c',
      createFrom gens icf m c = Returns (m', Done c') →
      ∃ slices,
        Forall2 wellMade expected slices ∧
        addAll c (zip expected slices) = Done c'.
Proof.
  induction 1 as [|gen keysE gens expected Hgen _ IH]; intros m c.
  - cbn. split; [discriminate |]. intros m' c' [= <- <-].
    exists []. split; [constructor | reflexivity].
  - cbn [createFrom]. unfold generateInto. cbn [fst snd].
    destruct (Hgen m) as [Hnp Hsh].
    destruct (gen icf m) as [[m1 [[keys slice]|e]]|];
      [| split; [discriminate | intros ? ? [=]] | contradiction].
    destruct (Hsh m1 keys slice eq_refl) as [-> Hwm].
    destruct (AddMultiple c keysE slice) as [c1|e] eqn:Ha;
      [| split; [discriminate | intros ? ? [=]]].
    destruct (IH m1 c1) as [Hnp' Hrest].
    split; [exact Hnp' |].
    intros m' c' Hr. destruct (Hrest m' c' Hr) as (slices & Hf & Hadd).
    exists (slice :: slices). split; [constructor; assumption |].
    cbn. rewrite Ha. exact Hadd.
Qed.

(** X18: for a number of shards [n] with [0 <= n] and [n + 1] in the range
    of [uint32], [Create] does not panic, and a container it returns is the
    new container after seven [AddMultiple] in this order: transactions,
    unsigned transactions, reward transactions (each with the keys of all
    shards and of the metachain), the headers of the own shard, the
    miniblocks (all shards and the metachain), the peer changes of the own
    shard and the metachain blocks; every batch has as many interceptors as
    keys and none [nil], and the keys are [4 * (n + 1) + 3] in all. *)
Theorem Create_batches (icf : factory) (m : T) :
  0 ≤ NumberOfShards (shardCoordinator icf) →
  NumberOfShards (shardCoordinator icf) + 1 < 2 ^ 32 →
  let shardC := shardCoordinator icf in
  Create icf m ≠ Panics ∧
  (∀ m' (c : C),
     Create icf m = Returns (m', Done c) →
     ∃ slices,
       Forall2 wellMade (createKeys shardC) slices ∧
       addAll NewInterceptorsContainer (zip (createKeys shardC) slices)
       = Done c) ∧
  Z.of_nat (length (concat (createKeys shardC)))
  = 4 * (NumberOfShards shardC + 1) + 3.
Proof.
  intros Hn Hmax shardC.
  assert (Forall2 (λ gen keys, returnsKeys gen icf keys)
            generators (createKeys shardC)) as Hshapes.
  { unfold generators, createKeys.
    repeat first [apply Forall2_nil; exact I | apply Forall2_cons; split].
    - intros m0. unfold generateTxInterceptors.
      apply generateAppending_shape;
        [apply createOneTxInterceptor_answers | exact Hn].
    - intros m0. unfold generateUnsignedTxsInterceptors.
      apply generateAppending_shape;
        [apply createOneUnsignedTxInterceptor_answers | exact Hn].
    - intros m0. unfold generateRewardTxInterceptors.
      apply generateAppending_shape;
        [apply createOneRewardTxInterceptor_answers | exact Hn].
    - apply generateHdrInterceptor_shape.
    - apply generateMiniBlocksInterceptors_shape; assumption.
    - apply generatePeerChBlockBodyInterceptor_shape.
    - apply generateMetachainHeaderInterceptor_shape. }
  destruct (createFrom_shape icf _ _ Hshapes m NewInterceptorsContainer)
    as [Hnp Hsh].
  split; [exact Hnp |]. split; [exact Hsh |].
  subst shardC. unfold createKeys, shardKeys. cbn [concat].
  rewrite !length_app, !length_map, !length_seq. cbn [length]. lia.
Qed.

End GeneratorTheorems.


Section GeneratorExamples.
Import Shard ShardScenario.

Example tx_keys_two_shards :
  generateTxInterceptors factory2 []
  = Returns
      (["transactions_0"; "transactions_1"; "transactions_META"]%string,
       Done (["transactions_0"; "transactions_1"; "transactions_META"]%string,
             [Some "tx"; Some "tx"; Some "tx"]%string)).
Proof. vm_compute. reflexivity. Qed.

Example miniblocks_keys_two_shards :
  generateMiniBlocksInterceptors factory2 []
  = Returns
      (["txBlockBodies_0"; "txBlockBodies_1"; "txBlockBodies_META"]%string,
       Done (["txBlockBodies_0"; "txBlockBodies_1";
              "txBlockBodies_META"]%string,
             [Some "txBlockBody"; Some "txBlockBody";
              Some "txBlockBody"]%string)).
Proof. vm_compute. reflexivity. Qed.

(** A topic that exists already stops the generator with the error of the
    messenger; the topics made before stay. *)
Example tx_topic_taken :
  generateTxInterceptors factory2 ["transactions_1"%string]
  = Returns (["transactions_1"; "transactions_0"]%string,
             Failed (ErrOther "topic already exists")).
Proof. vm_compute. reflexivity. Qed.

Example create_two_shards :
  ∃ m, Create (C := list string) factory2 []
       = Returns
           (m,
            Done ["transactions_0"; "transactions_1"; "transactions_META";
                  "unsignedTransactions_0"; "unsignedTransactions_1";
                  "unsignedTransactions_META";
                  "rewardsTransactions_0"; "rewardsTransactions_1";
                  "rewardsTransactions_META";
                  "headers_0";
                  "txBlockBodies_0"; "txBlockBodies_1"; "txBlockBodies_META";
                  "peerChangeBlockBodies_0";
                  "metachainBlocks"]%string).
Proof. eexists. vm_compute. reflexivity. Qed.

End GeneratorExamples.

Lemma generators_over_shards_witness :
  0 ≤ Shard.NumberOfShards (Shard.shardCoordinator ShardScenario.factory2) ∧
  Shard.generateTxInterceptors ShardScenario.factory2 [] ≠ Panics.
Proof.
  assert (0 ≤ Shard.NumberOfShards
                (Shard.shardCoordinator ShardScenario.factory2)) as Hn
    by (vm_compute; discriminate).
  split; [exact Hn |].
  exact (proj1 (proj1 (generators_over_shards ShardScenario.factory2 [] Hn))).
Defined.

Lemma generateMiniBlocksInterceptors_keys_witness :
  0 ≤ Shard.NumberOfShards (Shard.shardCoordinator ShardScenario.factory2) ∧
  Shard.NumberOfShards (Shard.shardCoordinator ShardScenario.factory2) + 1
    < 2 ^ 32 ∧
  Shard.generateMiniBlocksInterceptors ShardScenario.factory2 [] ≠ Panics.
Proof.
  assert (0 ≤ Shard.NumberOfShards
                (Shard.shardCoordinator ShardScenario.factory2)) as Hn
    by (vm_compute; discriminate).
  assert (Shard.NumberOfShards
            (Shard.shardCoordinator ShardScenario.factory2) + 1 < 2 ^ 32)
    as Hmax by (vm_compute; reflexivity).
  split; [exact Hn |]. split; [exact Hmax |].
  exact (proj1 (generateMiniBlocksInterceptors_keys
                  ShardScenario.factory2 [] Hn Hmax)).
Defined.

Lemma Create_batches_witness :
  0 ≤ Shard.NumberOfShards (Shard.shardCoordinator ShardScenario.factory2) ∧
  Shard.NumberOfShards (Shard.shardCoordinator ShardScenario.factory2) + 1
    < 2 ^ 32 ∧
  Shard.Create (C := list string) ShardScenario.factory2 [] ≠ Panics.
Proof.
  assert (0 ≤ Shard.NumberOfShards
                (Shard.shardCoordinator ShardScenario.factory2)) as Hn
    by (vm_compute; discriminate).
  assert (Shard.NumberOfShards
            (Shard.shardCoordinator ShardScenario.factory2) + 1 < 2 ^ 32)
    as Hmax by (vm_compute; reflexivity).
  split; [exact Hn |]. split; [exact Hmax |].
  exact (proj1 (Create_batches (C := list string)
                  ShardScenario.factory2 [] Hn Hmax)).
Defined.

Section PeersExamples.
Import Heartbeat.

(** With a storer that fails the slice of all peers still gets the new key;
    what the storer holds stays behind. *)
Example add_with_broken_storer :
  addPeerToFullPeersSlice (mkMonitor [[x01]] (mkMemStorer true [[x01]] 1))
    [x02]
  = mkMonitor [[x01]; [x02]] (mkMemStorer true [[x01]] 2).
Proof. reflexivity. Qed.

Example add_known_peer :
  addPeerToFullPeersSlice (mkMonitor [[x01]; [x02]] (mkMemStorer false [] 0))
    [x02]
  = mkMonitor [[x01]; [x02]] (mkMemStorer false [] 0).
Proof. reflexivity. Qed.

End PeersExamples.

(* ================================================================== *)
(** ** Theorems: the slice of all peers and the callers' buffers *)
(* ================================================================== *)

Section PeerBuffersTheorems.
Import HeartbeatBuffers.

Context {S : Type} `{Heartbeat.HeartbeatStorageHandler S}.

(** The monitor of values a monitor of views shows in a memory. *)
Local Abbreviation asValues mem m :=
  (Heartbeat.mkMonitor (shown mem m) (storer m)).

Lemma isPeerInViews_values (mem : gmap nat bytes) (peers : list View)
    (pubKey : View) :
  isPeerInViews mem peers pubKey
  = Heartbeat.isPeerInSlice (map (contents mem) peers) (contents mem pubKey).
Proof.
  induction peers as [|peer rest IH]; [reflexivity |].
  cbn. rewrite IH. reflexivity.
Qed.

(** In one memory, a call on views shows what the call on the values shown
    gives. *)
Lemma addPeerToFullPeersSlice_values (mem : gmap nat bytes) (m : Monitor S)
    (pubKey : View) :
  asValues mem (addPeerToFullPeersSlice mem m pubKey)
  = Heartbeat.addPeerToFullPeersSlice (asValues mem m) (contents mem pubKey).
Proof.
  unfold addPeerToFullPeersSlice, Heartbeat.addPeerToFullPeersSlice,
    isPeerInFullPeersSlice, Heartbeat.isPeerInFullPeersSlice, shown.
  cbn [Heartbeat.fullPeersSlice Heartbeat.storer].
  rewrite isPeerInViews_values.
  destruct (Heartbeat.isPeerInSlice _ _); cbn [negb]; [reflexivity |].
  rewrite map_app. cbn [map].
  destruct (Heartbeat.SaveKeys _ _). cbn [fullPeersSlice storer].
  rewrite map_app. reflexivity.
Qed.

Lemma addPeerToFullPeersSlice_views (mem : gmap nat bytes) (m : Monitor S)
    (pubKey : View) :
  fullPeersSlice (addPeerToFullPeersSlice mem m pubKey) = fullPeersSlice m ∨
  fullPeersSlice (addPeerToFullPeersSlice mem m pubKey)
  = fullPeersSlice m ++ [pubKey].
Proof.
  unfold addPeerToFullPeersSlice.
  destruct (isPeerInFullPeersSlice mem m pubKey); cbn [negb]; [auto |].
  destruct (Heartbeat.SaveKeys _ _). auto.
Qed.

(** X6: as long as no byte of the backing arrays is written between the
    calls, after any sequence of [addPeerToFullPeersSlice] the slice of all
    peers shows exactly the byte strings it showed before and those of the
    keys that were added, without a byte string twice if there was none
    twice before.  What the slice stores are the callers' views themselves:
    every stored view is one that was stored before or one of the keys. *)
Theorem addPeerToFullPeersSlice_unwritten (mem : gmap nat bytes)
    (m : Monitor S) (keys : list View) :
  let m' := fold_left (addPeerToFullPeersSlice mem) keys m in
  (NoDup (shown mem m) → NoDup (shown mem m')) ∧
  (∀ bs, bs ∈ shown mem m' ↔
         bs ∈ shown mem m ∨ bs ∈ map (contents mem) keys) ∧
  (∀ v, v ∈ fullPeersSlice m' → v ∈ fullPeersSlice m ∨ v ∈ keys).
Proof.
  cbv zeta.
  assert (asValues mem (fold_left (addPeerToFullPeersSlice mem) keys m)
          = fold_left Heartbeat.addPeerToFullPeersSlice
              (map (contents mem) keys) (asValues mem m)) as Hsim.
  { revert m. induction keys as [|k keys IH]; intros m; [reflexivity |].
    cbn [fold_left map]. rewrite IH, addPeerToFullPeersSlice_values.
    reflexivity. }
  pose proof (addPeer_values_many (asValues mem m) (map (contents mem) keys))
    as [Hnd Hmem]. cbv zeta in Hnd, Hmem.
  rewrite <- Hsim in Hnd, Hmem. cbn [Heartbeat.fullPeersSlice] in Hnd, Hmem.
  split; [exact Hnd |]. split; [exact Hmem |].
  clear Hsim Hnd Hmem. revert m.
  induction keys as [|k keys IH]; intros m v; cbn [fold_left]; [auto |].
  intros Hv. apply IH in Hv as [Hv | Hv].
  - destruct (addPeerToFullPeersSlice_views mem m k) as [He | He];
      rewrite He in Hv.
    + auto.
    + apply elem_of_app in Hv as [Hv | Hv]; [auto |].
      apply list_elem_of_singleton in Hv. subst. right.
      apply elem_of_cons. auto.
  - right. apply elem_of_cons. auto.
Qed.

(** A buffer handed in, overwritten by the caller and handed in again: the
    second call finds the changed bytes already there, so the slice has one
    peer, which now shows the new bytes, and [SaveKeys] ran once. *)
Example add_write_add :
  let buf := mkView 0 0 1 in
  let mem0 : gmap nat bytes := {[ 0%nat := [x01] ]} in
  let m0 := mkMonitor [] (Heartbeat.mkMemStorer false [] 0) in
  let m1 := addPeerToFullPeersSlice mem0 m0 buf in
  let mem1 := write mem0 0 0 x02 in
  let m2 := addPeerToFullPeersSlice mem1 m1 buf in
  shown mem0 m1 = [[x01]] ∧
  shown mem1 m2 = [[x02]] ∧
  Heartbeat.saves (storer m2) = 1%nat ∧
  Heartbeat.savedKeys (storer m2) = [[x01]].
Proof. vm_compute. repeat split; reflexivity. Qed.

End PeerBuffersTheorems.
